(** * TemplTracker: donor aggregation, search, permissions, category ordering

    A shallow embedding of the core logic of the temple donation tracker:
    the browser front end (permission evaluator, [groupDonationsByName],
    the search filter of [renderPublicView], [transliterateHindiToEnglish],
    [moveCategoryUp] / [moveCategoryDown]) and the Express handlers of
    [server.js] that create, edit, approve and delete donations and
    categories.

    Conventions of the embedding.
    - A JavaScript string is a [string]: the UTF-8 bytes of its text.  The
      only non-ASCII text the program manipulates is Devanagari, whose
      glyphs are single UTF-16 code units and three UTF-8 bytes each; since
      UTF-8 is self-synchronising, literal substring search and replacement
      on the bytes coincide with the same operations on code units.
    - Amounts and order keys are whole numbers, held as integers ([Z]); a
      missing amount ([null]) is [None].  Where the program adds two of
      them it adds doubles: [JS.add] rounds as the double sum does.
    - The global [currentUser] and the caches of the front end are passed
      explicitly.
    - A MongoDB collection is the list of its documents. *)

From Stdlib Require Import String Ascii List ZArith Lia Bool.
From Stdlib Require Import Permutation Sorted.
Import ListNotations.
Open Scope string_scope.

(** ** JavaScript built-ins *)

Module JS.

(** [s.includes(t)]: [t] occurs in [s] as a contiguous substring. *)
Fixpoint includes (s t : string) : bool :=
  String.prefix t s ||
  match s with
  | EmptyString => false
  | String _ s' => includes s' t
  end.

(** What [s.replace(new RegExp('', 'g'), rep)] yields: the empty pattern
    matches before every character and at the end. *)
Fixpoint intersperse (rep s : string) : string :=
  match s with
  | EmptyString => rep
  | String c s' => rep ++ String c (intersperse rep s')
  end.

(** Left-to-right scan for a non-empty literal pattern; [skip] counts the
    characters of the current match that are still to be consumed. *)
Fixpoint replaceScan (pat rep : string) (skip : nat) (s : string) : string :=
  match s with
  | EmptyString => EmptyString
  | String c s' =>
      match skip with
      | S k => replaceScan pat rep k s'
      | O =>
          if String.prefix pat s
          then rep ++ replaceScan pat rep (String.length pat - 1) s'
          else String c (replaceScan pat rep 0 s')
      end
  end.

(** [s.replace(new RegExp(pat, 'g'), rep)] for a pattern without regular
    expression metacharacters: every non-overlapping occurrence of [pat],
    found left to right, is replaced by [rep]. *)
Definition replaceAll (pat rep s : string) : string :=
  match pat with
  | EmptyString => intersperse rep s
  | _ => replaceScan pat rep 0 s
  end.

Definition lowerAscii (c : ascii) : ascii :=
  let n := nat_of_ascii c in
  if (65 <=? n)%nat && (n <=? 90)%nat then ascii_of_nat (n + 32) else c.

(** [s.toLowerCase()] on text whose cased letters are ASCII (Devanagari has
    no case, so its bytes are left alone). *)
Fixpoint asciiLowerCase (s : string) : string :=
  match s with
  | EmptyString => EmptyString
  | String c s' => String (lowerAscii c) (asciiLowerCase s')
  end.

Definition isSpace (c : ascii) : bool :=
  let n := nat_of_ascii c in
  ((9 <=? n)%nat && (n <=? 13)%nat) || (n =? 32)%nat.

Fixpoint trimStart (s : string) : string :=
  match s with
  | EmptyString => EmptyString
  | String c s' => if isSpace c then trimStart s' else s
  end.

(** Drops trailing white space: a character is kept when something other
    than white space follows it or it is not white space itself. *)
Fixpoint trimEnd (s : string) : string :=
  match s with
  | EmptyString => EmptyString
  | String c s' =>
      match trimEnd s' with
      | EmptyString => if isSpace c then EmptyString else String c EmptyString
      | r => String c r
      end
  end.

(** [s.trim()] for ASCII white space. *)
Definition asciiTrim (s : string) : string := trimEnd (trimStart s).

(** *** Numbers

    A Number is an IEEE 754 double.  The amounts and order keys of the
    program are whole numbers; every whole number up to 2^53 in magnitude
    is a double, beyond it only those with 53 significant bits are.  The
    nearest double of a whole number, a tie going to the even
    significand: *)
Definition roundToDouble (z : Z) : Z :=
  let a := Z.abs z in
  if (a <=? 2 ^ 53)%Z then z
  else
    let ulp := (2 ^ (Z.log2 a - 52))%Z in
    let q := (a / ulp)%Z in
    let r := (a mod ulp)%Z in
    let significand :=
      if (2 * r <? ulp)%Z then q
      else if (ulp <? 2 * r)%Z then (q + 1)%Z
      else if Z.even q then q else (q + 1)%Z in
    (Z.sgn z * (significand * ulp))%Z.

(** [x + y] on two whole doubles: the exact sum, rounded.  (A sum of
    2^1024 or more in magnitude is [Infinity] in JavaScript; no statement
    below reaches that far.) *)
Definition add (x y : Z) : Z := roundToDouble (x + y).

(** [Number.MAX_SAFE_INTEGER]. *)
Definition maxSafeInteger : Z := (2 ^ 53 - 1)%Z.

End JS.

Lemma roundToDouble_exact (z : Z) :
  (Z.abs z <= 2 ^ 53)%Z -> JS.roundToDouble z = z.
Proof.
  intros H. unfold JS.roundToDouble. apply Z.leb_le in H. now rewrite H.
Qed.

Lemma add_exact (x y : Z) :
  (Z.abs (x + y) <= JS.maxSafeInteger)%Z -> JS.add x y = (x + y)%Z.
Proof.
  intros H. apply roundToDouble_exact. unfold JS.maxSafeInteger in H. lia.
Qed.

(** Rounding keeps the sign: a positive sum stays positive. *)
Lemma roundToDouble_pos (z : Z) : (0 < z)%Z -> (0 < JS.roundToDouble z)%Z.
Proof.
  intros Hz. unfold JS.roundToDouble.
  destruct (Z.abs z <=? 2 ^ 53)%Z eqn:E; [assumption |].
  rewrite (Z.abs_eq z), (Z.sgn_pos z), Z.mul_1_l by lia.
  apply Z.leb_gt in E. rewrite Z.abs_eq in E by lia.
  assert (H53 : (53 <= Z.log2 z)%Z).
  { apply Z.log2_le_pow2; [assumption |]. lia. }
  set (ulp := (2 ^ (Z.log2 z - 52))%Z).
  assert (Hulp : (0 < ulp)%Z) by (apply Z.pow_pos_nonneg; lia).
  assert (Hle : (ulp <= z)%Z).
  { transitivity (2 ^ Z.log2 z)%Z.
    - apply Z.pow_le_mono_r; lia.
    - apply Z.log2_spec. assumption. }
  assert (Hq : (1 <= z / ulp)%Z).
  { apply Z.div_le_lower_bound; lia. }
  apply Z.mul_pos_pos; [| assumption].
  destruct (2 * (z mod ulp) <? ulp)%Z; [lia |].
  destruct (ulp <? 2 * (z mod ulp))%Z; [lia |].
  destruct (Z.even (z / ulp)); lia.
Qed.

Lemma add_nonneg (x y : Z) :
  (0 <= x)%Z -> (0 <= y)%Z ->
  (0 <= JS.add x y)%Z /\ (JS.add x y = 0%Z -> x = 0%Z /\ y = 0%Z).
Proof.
  intros Hx Hy. unfold JS.add.
  destruct (Z.eq_dec (x + y) 0) as [E | E].
  - rewrite E. cbn. split; [lia | intros _; lia].
  - pose proof (roundToDouble_pos (x + y)). split; [lia | intros H0; lia].
Qed.

(** ** Permission evaluator (front end, [canUser...]) *)

Record Permissions := {
  canAddDonation : bool;
  canEditDonation : bool;
  canDeleteDonation : bool;
  canManageCategory : bool;
  assignedCategories : list string
}.

Inductive UserType := admin | subadmin.

(** The [user] object of a successful login.  The admin object carries no
    [permissions] field; the sub-admin object carries the stored one. *)
Record User := {
  type : UserType;
  username : string;
  permissions : option Permissions
}.

Definition isAdmin (u : User) : bool :=
  match type u with admin => true | subadmin => false end.

(** [currentUser.permissions?.flag], read as a condition: [undefined]
    (no [permissions] object) is falsy. *)
Definition flagOf (flag : Permissions -> bool) (u : User) : bool :=
  match permissions u with
  | Some p => flag p
  | None => false
  end.

Definition canUserAdd (currentUser : option User) : bool :=
  match currentUser with
  | None => false
  | Some u => if isAdmin u then true else flagOf canAddDonation u
  end.

Definition canUserEdit (currentUser : option User) : bool :=
  match currentUser with
  | None => false
  | Some u => if isAdmin u then true else flagOf canEditDonation u
  end.

Definition canUserDelete (currentUser : option User) : bool :=
  match currentUser with
  | None => false
  | Some u => if isAdmin u then true else flagOf canDeleteDonation u
  end.

Definition canUserManageCategory (currentUser : option User) : bool :=
  match currentUser with
  | None => false
  | Some u => if isAdmin u then true else flagOf canManageCategory u
  end.

(** [arr.includes(x)] on an array of strings. *)
Definition arrayIncludes (arr : list string) (x : string) : bool :=
  existsb (String.eqb x) arr.

(** [canUserAccessCategory(categoryId)].  [None] is the [TypeError] raised
    by [perms.assignedCategories] when a non-admin user has no
    [permissions] object. *)
Definition canUserAccessCategory (currentUser : option User)
    (categoryId : string) : option bool :=
  match currentUser with
  | None => Some false
  | Some u =>
      if isAdmin u then Some true
      else match permissions u with
           | None => None
           | Some perms =>
               Some ((length (assignedCategories perms) =? 0)%nat
                     || arrayIncludes (assignedCategories perms) categoryId)
           end
  end.

Lemma arrayIncludes_In (arr : list string) (x : string) :
  arrayIncludes arr x = true <-> In x arr.
Proof.
  unfold arrayIncludes. rewrite existsb_exists. split.
  - intros [y [Hy Heq]]. apply String.eqb_eq in Heq. now subst.
  - intros H. exists x. split; [assumption | apply String.eqb_refl].
Qed.

(** C3.  The five permission functions depend only on the actor handed to
    them and on the action: an admin is allowed everything; a sub-admin is
    allowed add / edit / delete / manage-category exactly as its flag says
    and may access a category iff its assigned list is empty or holds the
    id; without an actor everything is denied. *)
Theorem permission_evaluator_rules :
  (forall (n : string) (p : option Permissions) (cid : string),
     let actor := Some {| type := admin; username := n; permissions := p |} in
     canUserAdd actor = true /\ canUserEdit actor = true /\
     canUserDelete actor = true /\ canUserManageCategory actor = true /\
     canUserAccessCategory actor cid = Some true) /\
  (forall (n : string) (p : Permissions) (cid : string),
     let actor :=
       Some {| type := subadmin; username := n; permissions := Some p |} in
     canUserAdd actor = canAddDonation p /\
     canUserEdit actor = canEditDonation p /\
     canUserDelete actor = canDeleteDonation p /\
     canUserManageCategory actor = canManageCategory p /\
     (canUserAccessCategory actor cid = Some true <->
        assignedCategories p = [] \/ In cid (assignedCategories p)) /\
     (canUserAccessCategory actor cid = Some false <->
        ~ (assignedCategories p = [] \/ In cid (assignedCategories p)))) /\
  (forall cid : string,
     canUserAdd None = false /\ canUserEdit None = false /\
     canUserDelete None = false /\ canUserManageCategory None = false /\
     canUserAccessCategory None cid = Some false).
Proof.
  split; [| split].
  - intros n p cid. cbn. repeat split; reflexivity.
  - intros n p cid. cbn. repeat (split; [reflexivity |]).
    destruct (assignedCategories p) as [| a l] eqn:E.
    + cbn. split; split; intros H; try reflexivity; auto.
      * discriminate.
      * exfalso. apply H. now left.
    + change ((length (a :: l) =? 0)%nat) with false. rewrite orb_false_l.
      destruct (arrayIncludes (a :: l) cid) eqn:Hinc.
      * apply arrayIncludes_In in Hinc.
        split; split; intros H; try reflexivity; auto.
        -- discriminate.
        -- exfalso. apply H. now right.
      * assert (Hn : ~ In cid (a :: l)).
        { intros Hin. apply arrayIncludes_In in Hin. congruence. }
        split; split; intros H; try reflexivity.
        -- discriminate.
        -- destruct H as [H | H]; [discriminate | contradiction].
        -- intros [H' | H']; [discriminate | contradiction].
  - intros cid. cbn. repeat split; reflexivity.
Qed.

(** ** Data model *)

(** A MongoDB ObjectId as the client and the route parameters see it: a
    string of 24 lower-case hexadecimal digits. *)
Definition isHexDigit (c : ascii) : bool :=
  let n := nat_of_ascii c in
  ((48 <=? n)%nat && (n <=? 57)%nat) || ((97 <=? n)%nat && (n <=? 102)%nat).

Fixpoint allHex (s : string) : bool :=
  match s with
  | EmptyString => true
  | String c s' => isHexDigit c && allHex s'
  end.

Definition isObjectIdString (s : string) : bool :=
  (String.length s =? 24)%nat && allHex s.

Record ObjectId := {
  hexString : string;
  hexString_ok : isObjectIdString hexString = true
}.

(** Mongoose's cast of a string to the schema type [ObjectId]; [None] is
    the [CastError].  The digits may come in either case; the id is kept
    in lower case.  (Older drivers also take any string of twelve bytes
    for an id; no statement below turns on such a parameter.) *)
Definition castObjectId (s : string) : option ObjectId :=
  match bool_dec (isObjectIdString (JS.asciiLowerCase s)) true with
  | left H => Some {| hexString := JS.asciiLowerCase s; hexString_ok := H |}
  | right _ => None
  end.

(** [a === b] on two ids. *)
Definition sameId (a b : ObjectId) : bool :=
  String.eqb (hexString a) (hexString b).

Inductive Status := approved | pending.

Definition isApproved (s : Status) : bool :=
  match s with approved => true | pending => false end.

(** A stored date as JSON delivers it: [null], or the ISO string of a time
    value in milliseconds. *)
Inductive JsDate := DateNull | DateISO (ms : Z).

(** The time value of [new Date(d)]; [new Date(null)] is the epoch. *)
Definition getTime (d : JsDate) : Z :=
  match d with
  | DateNull => 0
  | DateISO ms => ms
  end.

Module Category.
Record t := mk {
  _id : ObjectId;
  name : string;
  order : Z
}.
End Category.

(** The [categoryId] field of a donation: [null] when the reference could
    not be populated, the bare id, or the populated category document. *)
Inductive CategoryRef :=
| RefNull
| RefId (id : ObjectId)
| RefDoc (c : Category.t).

Module Donation.
Record t := mk {
  _id : ObjectId;
  donorName : string;
  amount : option Z;
  date : JsDate;
  categoryId : CategoryRef;
  notes : string;
  status : Status
}.
End Donation.

Module History.
Record t := mk {
  amount : Z;
  date : JsDate;
  notes : string
}.
End History.

(** One value of the [grouped] object of [groupDonationsByName]. *)
Module Donor.
Record t := mk {
  donorName : string;
  amount : Z;
  history : list History.t;
  categoryId : CategoryRef;
  date : JsDate;
  notes : string;
  _id : ObjectId
}.
End Donor.

(** [d.amount || 0]: [null] and [0] both give [0]. *)
Definition amountOr0 (a : option Z) : Z :=
  match a with
  | Some z => z
  | None => 0
  end.

(** [d.categoryId?._id || d.categoryId]: the id string, or [null] for an
    unresolved reference.  Ids are non-empty strings, hence truthy. *)
Definition resolvedId (r : CategoryRef) : option string :=
  match r with
  | RefNull => None
  | RefId i => Some (hexString i)
  | RefDoc c => Some (hexString (Category._id c))
  end.

(** [d.categoryId?._id || d.categoryId || 'unknown']. *)
Definition refKey (r : CategoryRef) : string :=
  match resolvedId r with
  | Some s => s
  | None => "unknown"
  end.

(** [(d.categoryId?._id || d.categoryId) === id] for an id string. *)
Definition inCategory (id : string) (r : CategoryRef) : bool :=
  match resolvedId r with
  | Some s => String.eqb s id
  | None => false
  end.

(** The category a reference names, read off the reference itself: the id
    it holds, or the id of the populated document; an unresolved reference
    names no category. *)
Definition namesCategory (id : string) (r : CategoryRef) : bool :=
  match r with
  | RefNull => false
  | RefId i => String.eqb (hexString i) id
  | RefDoc c => String.eqb (hexString (Category._id c)) id
  end.

(** The mathematical sum of a list of whole numbers. *)
Definition sumZ (l : list Z) : Z := fold_right Z.add 0%Z l.

(** ** Front end: aggregation, search and filters

    [toLowerCase] and [trim] stand for the built-in string methods. *)

Section FrontEnd.

Variables toLowerCase trim : string -> string.

Definition nameKey (d : Donation.t) : string :=
  toLowerCase (trim (Donation.donorName d)) ++ "_"
    ++ refKey (Donation.categoryId d).

(** [grouped[k]] on own properties, which are kept in insertion order. *)
Fixpoint lookup (k : string) (grouped : list (string * Donor.t))
  : option Donor.t :=
  match grouped with
  | [] => None
  | (k', g) :: rest => if String.eqb k' k then Some g else lookup k rest
  end.

(** Mutation of the object stored under [k]. *)
Fixpoint update (k : string) (f : Donor.t -> Donor.t)
    (grouped : list (string * Donor.t)) : list (string * Donor.t) :=
  match grouped with
  | [] => []
  | (k', g) :: rest =>
      if String.eqb k' k then (k', f g) :: rest
      else (k', g) :: update k f rest
  end.

(** The object created for a key that is not in [grouped] yet. *)
Definition newDonor (d : Donation.t) : Donor.t :=
  {| Donor.donorName := trim (Donation.donorName d);
     Donor.amount := 0;
     Donor.history := [];
     Donor.categoryId := Donation.categoryId d;
     Donor.date := Donation.date d;
     Donor.notes := Donation.notes d;
     Donor._id := Donation._id d |}.

(** The statements after the creation: add the amount, move the date
    forward when the record's is strictly later, push the history entry. *)
Definition absorb (g : Donor.t) (d : Donation.t) : Donor.t :=
  let amount := amountOr0 (Donation.amount d) in
  {| Donor.donorName := Donor.donorName g;
     Donor.amount := JS.add (Donor.amount g) amount;
     Donor.history :=
       (Donor.history g ++
        [ {| History.amount := amount;
             History.date := Donation.date d;
             History.notes := Donation.notes d |} ])%list;
     Donor.categoryId := Donor.categoryId g;
     Donor.date :=
       if (getTime (Donation.date d) >? getTime (Donor.date g))%Z
       then Donation.date d else Donor.date g;
     Donor.notes := Donor.notes g;
     Donor._id := Donor._id g |}.

(** One iteration of [donations.forEach]. *)
Definition groupStep (grouped : list (string * Donor.t)) (d : Donation.t)
  : list (string * Donor.t) :=
  let k := nameKey d in
  let grouped' :=
    match lookup k grouped with
    | Some _ => grouped
    | None => (grouped ++ [(k, newDonor d)])%list
    end in
  update k (fun g => absorb g d) grouped'.

(** The [grouped] object after the loop. *)
Definition groupedOf (donations : list Donation.t)
  : list (string * Donor.t) :=
  fold_left groupStep donations [].

(** [Object.values(grouped)]: no key is an array index (each contains an
    underscore), so the values come in insertion order. *)
Definition groupDonationsByName (donations : list Donation.t)
  : list Donor.t :=
  map snd (groupedOf donations).

(** The substitution table of [transliterateHindiToEnglish], in the order
    of [Object.entries]. *)
Definition transliterationMap : list (string * string) :=
  [ ("अ", "a"); ("आ", "aa"); ("इ", "i"); ("ई", "ee"); ("उ", "u"); ("ऊ", "oo");
    ("ए", "e"); ("ऐ", "ai"); ("ओ", "o"); ("औ", "au"); ("अं", "an"); ("अः", "ah");
    ("क", "k"); ("ख", "kh"); ("ग", "g"); ("घ", "gh"); ("ङ", "ng");
    ("च", "ch"); ("छ", "chh"); ("ज", "j"); ("झ", "jh"); ("ञ", "ny");
    ("ट", "t"); ("ठ", "th"); ("ड", "d"); ("ढ", "dh"); ("ण", "n");
    ("त", "t"); ("थ", "th"); ("द", "d"); ("ध", "dh"); ("न", "n");
    ("प", "p"); ("फ", "ph"); ("ब", "b"); ("भ", "bh"); ("म", "m");
    ("य", "y"); ("र", "r"); ("ल", "l"); ("व", "v"); ("श", "sh");
    ("ष", "sh"); ("स", "s"); ("ह", "h");
    ("ा", "a"); ("ि", "i"); ("ी", "ee"); ("ु", "u"); ("ू", "oo");
    ("े", "e"); ("ै", "ai"); ("ो", "o"); ("ौ", "au");
    ("ं", "n"); ("ः", "h"); ("्", ""); ("ृ", "ri");
    ("श्री", "shri"); ("राम", "ram"); ("कृष्ण", "krishna"); ("हनुमान", "hanuman");
    ("प्रसाद", "prasad"); ("कुमार", "kumar"); ("सिंह", "singh"); ("शर्मा", "sharma");
    ("गुप्ता", "gupta"); ("यादव", "yadav"); ("पाण्डेय", "pandey"); ("मिश्रा", "mishra") ].

Definition transliterateWith (table : list (string * string))
    (text : string) : string :=
  toLowerCase
    (fold_left (fun result entry =>
                  JS.replaceAll (fst entry) (snd entry) result)
               table text).

Definition transliterateHindiToEnglish (text : string) : string :=
  transliterateWith transliterationMap text.

(** The predicate of step 3 of [renderPublicView], for a lower-cased
    term. *)
Definition searchMatches (term : string) (d : Donor.t) : bool :=
  let donorLower := toLowerCase (Donor.donorName d) in
  if JS.includes donorLower term then true
  else
    let searchable :=
      donorLower ++ " " ++ transliterateHindiToEnglish (Donor.donorName d) in
    JS.includes searchable term.

Inductive StatusFilter := AnyStatus | Paid | Pledged.

(** Steps 1 to 5 of [renderPublicView]: [groupedDonors] after the three
    filters, the list the function then renders (or, when it is empty,
    replaces by the empty-state notice). *)
Definition filteredDonors (donationsCache : list Donation.t)
    (searchTerm categoryFilter : string) (statusFilter : StatusFilter)
  : list Donor.t :=
  let rawDonations :=
    filter (fun d => isApproved (Donation.status d)) donationsCache in
  let groupedDonors := groupDonationsByName rawDonations in
  let searched :=
    match searchTerm with
    | EmptyString => groupedDonors
    | _ => filter (searchMatches (toLowerCase searchTerm)) groupedDonors
    end in
  let inCat :=
    match categoryFilter with
    | EmptyString => searched
    | _ => filter (fun d => inCategory categoryFilter (Donor.categoryId d))
                  searched
    end in
  match statusFilter with
  | AnyStatus => inCat
  | Paid => filter (fun d => (Donor.amount d >? 0)%Z) inCat
  | Pledged => filter (fun d => (Donor.amount d =? 0)%Z) inCat
  end.

(** *** Facts about keys *)

Fixpoint underscoreFree (s : string) : bool :=
  match s with
  | EmptyString => true
  | String c s' => negb (Ascii.eqb c "_") && underscoreFree s'
  end.

Lemma allHex_underscoreFree (s : string) :
  allHex s = true -> underscoreFree s = true.
Proof.
  induction s as [| c s IH]; simpl; intros H; [reflexivity |].
  apply andb_true_iff in H as [Hc Hs].
  rewrite (IH Hs), andb_true_r.
  destruct (Ascii.eqb c "_") eqn:E; [| reflexivity].
  apply Ascii.eqb_eq in E. subst c. discriminate Hc.
Qed.

Lemma underscoreFree_app (n c : string) :
  underscoreFree (n ++ String "_" c) = false.
Proof.
  induction n as [| a n IH]; simpl.
  - reflexivity.
  - rewrite IH. apply andb_false_r.
Qed.

Lemma key_split (n1 n2 c1 c2 : string) :
  underscoreFree c1 = true -> underscoreFree c2 = true ->
  n1 ++ "_" ++ c1 = n2 ++ "_" ++ c2 -> n1 = n2 /\ c1 = c2.
Proof.
  revert n2. induction n1 as [| a n1 IH]; intros [| b n2] H1 H2 E; simpl in E.
  - injection E as E. now split.
  - injection E as Ea Ec. subst c1.
    change (n2 ++ "_" ++ c2) with (n2 ++ String "_" c2) in H1.
    rewrite underscoreFree_app in H1. discriminate.
  - injection E as Ea Ec. subst c2.
    change (n1 ++ "_" ++ c1) with (n1 ++ String "_" c1) in H2.
    rewrite underscoreFree_app in H2. discriminate.
  - injection E as Ea Et. subst b.
    destruct (IH n2 H1 H2 Et) as [-> ->]. now split.
Qed.

Lemma resolvedId_ok (r : CategoryRef) (s : string) :
  resolvedId r = Some s -> isObjectIdString s = true.
Proof.
  destruct r as [| i | c]; simpl; intros H; try discriminate;
    injection H as <-; apply hexString_ok.
Qed.

Lemma refKey_underscoreFree (r : CategoryRef) :
  underscoreFree (refKey r) = true.
Proof.
  unfold refKey. destruct (resolvedId r) as [s |] eqn:E; [| reflexivity].
  apply resolvedId_ok in E. unfold isObjectIdString in E.
  apply andb_true_iff in E as [_ E]. now apply allHex_underscoreFree.
Qed.

(** The key suffix determines the resolved category: ["unknown"] is not an
    ObjectId string. *)
Lemma refKey_resolvedId (r1 r2 : CategoryRef) :
  refKey r1 = refKey r2 <-> resolvedId r1 = resolvedId r2.
Proof.
  unfold refKey. split.
  - destruct (resolvedId r1) as [s1 |] eqn:E1;
      destruct (resolvedId r2) as [s2 |] eqn:E2; intros H.
    + now subst.
    + subst s1. apply resolvedId_ok in E1. discriminate E1.
    + subst s2. apply resolvedId_ok in E2. discriminate E2.
    + reflexivity.
  - now intros ->.
Qed.

Lemma nameKey_eq (d1 d2 : Donation.t) :
  nameKey d1 = nameKey d2 <->
  toLowerCase (trim (Donation.donorName d1))
    = toLowerCase (trim (Donation.donorName d2)) /\
  resolvedId (Donation.categoryId d1) = resolvedId (Donation.categoryId d2).
Proof.
  unfold nameKey. split.
  - intros H. apply key_split in H; try apply refKey_underscoreFree.
    destruct H as [Hn Hc]. split; [assumption |].
    now apply refKey_resolvedId.
  - intros [Hn Hc]. apply refKey_resolvedId in Hc. now rewrite Hn, Hc.
Qed.

Lemma nameKey_inCategory (id : string) (d1 d2 : Donation.t) :
  nameKey d1 = nameKey d2 ->
  inCategory id (Donation.categoryId d1)
    = inCategory id (Donation.categoryId d2).
Proof.
  intros H. apply nameKey_eq in H as [_ H]. unfold inCategory. now rewrite H.
Qed.

(** *** Facts about the [grouped] object *)

Lemma lookup_None (k : string) (l : list (string * Donor.t)) :
  lookup k l = None <-> ~ In k (map fst l).
Proof.
  induction l as [| [k' g] l IH]; simpl.
  - tauto.
  - destruct (String.eqb k' k) eqn:E.
    + apply String.eqb_eq in E. split; [discriminate | intros H; tauto].
    + apply String.eqb_neq in E. rewrite IH. tauto.
Qed.

Lemma lookup_In (k : string) (g : Donor.t) (l : list (string * Donor.t)) :
  lookup k l = Some g -> In (k, g) l.
Proof.
  induction l as [| [k' g'] l IH]; simpl; [discriminate |].
  destruct (String.eqb k' k) eqn:E.
  - apply String.eqb_eq in E. intros [= ->]. left. now subst.
  - intros H. right. now apply IH.
Qed.

Lemma In_lookup (k : string) (g : Donor.t) (l : list (string * Donor.t)) :
  NoDup (map fst l) -> In (k, g) l -> lookup k l = Some g.
Proof.
  induction l as [| [k' g'] l IH]; simpl; [tauto |].
  intros Hnd [H | H]; inversion Hnd as [| ? ? Hnotin Hnd']; subst.
  - injection H as -> ->. now rewrite String.eqb_refl.
  - destruct (String.eqb k' k) eqn:E.
    + apply String.eqb_eq in E. subst k'. exfalso. apply Hnotin.
      change k with (fst (k, g)). now apply in_map.
    + now apply IH.
Qed.

Lemma lookup_app (k : string) (l1 l2 : list (string * Donor.t)) :
  lookup k (l1 ++ l2) =
  match lookup k l1 with
  | Some g => Some g
  | None => lookup k l2
  end.
Proof.
  induction l1 as [| [k' g'] l1 IH]; simpl; [reflexivity |].
  now destruct (String.eqb k' k).
Qed.

Lemma map_fst_update (k : string) (f : Donor.t -> Donor.t)
    (l : list (string * Donor.t)) :
  map fst (update k f l) = map fst l.
Proof.
  induction l as [| [k' g'] l IH]; simpl; [reflexivity |].
  destruct (String.eqb k' k); simpl; [reflexivity | now rewrite IH].
Qed.

Lemma lookup_update_same (k : string) (f : Donor.t -> Donor.t)
    (l : list (string * Donor.t)) :
  lookup k (update k f l) = option_map f (lookup k l).
Proof.
  induction l as [| [k' g'] l IH]; simpl; [reflexivity |].
  destruct (String.eqb k' k) eqn:E; simpl; rewrite E; [reflexivity | exact IH].
Qed.

Lemma lookup_update_other (k k0 : string) (f : Donor.t -> Donor.t)
    (l : list (string * Donor.t)) :
  k <> k0 -> lookup k0 (update k f l) = lookup k0 l.
Proof.
  intros Hne. induction l as [| [k' g'] l IH]; simpl; [reflexivity |].
  destruct (String.eqb k' k) eqn:E; simpl.
  - apply String.eqb_eq in E. subst k'.
    apply String.eqb_neq in Hne. now rewrite Hne.
  - now rewrite IH.
Qed.

Lemma update_app_absent (k : string) (f : Donor.t -> Donor.t)
    (l1 l2 : list (string * Donor.t)) :
  lookup k l1 = None -> update k f (l1 ++ l2) = (l1 ++ update k f l2)%list.
Proof.
  induction l1 as [| [k' g'] l1 IH]; simpl; [reflexivity |].
  destruct (String.eqb k' k); [discriminate |].
  intros H. now rewrite IH.
Qed.

(** The two shapes of one iteration. *)
Lemma groupStep_new (grouped : list (string * Donor.t)) (d : Donation.t) :
  lookup (nameKey d) grouped = None ->
  groupStep grouped d
    = (grouped ++ [(nameKey d, absorb (newDonor d) d)])%list.
Proof.
  intros H. unfold groupStep. rewrite H.
  rewrite update_app_absent by assumption.
  simpl. now rewrite String.eqb_refl.
Qed.

Lemma groupStep_old (grouped : list (string * Donor.t)) (d : Donation.t)
    (g : Donor.t) :
  lookup (nameKey d) grouped = Some g ->
  groupStep grouped d = update (nameKey d) (fun g => absorb g d) grouped.
Proof.
  intros H. unfold groupStep. now rewrite H.
Qed.

Lemma groupedOf_snoc (ds : list Donation.t) (d : Donation.t) :
  groupedOf (ds ++ [d]) = groupStep (groupedOf ds) d.
Proof.
  unfold groupedOf. now rewrite fold_left_app.
Qed.

(** The records of a list that carry the key [k], in their order. *)
Definition members (k : string) (ds : list Donation.t) : list Donation.t :=
  filter (fun d => String.eqb (nameKey d) k) ds.

(** What the loop leaves under a key whose records are [d0 :: rest]. *)
Definition summarize (d0 : Donation.t) (rest : list Donation.t) : Donor.t :=
  fold_left absorb (d0 :: rest) (newDonor d0).

Lemma members_snoc (k : string) (ds : list Donation.t) (d : Donation.t) :
  members k (ds ++ [d]) =
  (members k ds ++ if String.eqb (nameKey d) k then [d] else [])%list.
Proof.
  unfold members. rewrite filter_app. simpl.
  now destruct (String.eqb (nameKey d) k).
Qed.

Lemma summarize_snoc (d0 : Donation.t) (rest : list Donation.t)
    (d : Donation.t) :
  summarize d0 (rest ++ [d]) = absorb (summarize d0 rest) d.
Proof.
  unfold summarize. rewrite app_comm_cons, fold_left_app. reflexivity.
Qed.

(** The loop keeps one entry per key, and the entry of a key summarises
    exactly the records that carry it. *)
Lemma groupedOf_spec (ds : list Donation.t) :
  NoDup (map fst (groupedOf ds)) /\
  forall k,
    lookup k (groupedOf ds) =
    match members k ds with
    | [] => None
    | d0 :: rest => Some (summarize d0 rest)
    end.
Proof.
  induction ds as [| d ds [IHnd IHl]] using rev_ind.
  - split; [constructor | reflexivity].
  - rewrite groupedOf_snoc.
    destruct (lookup (nameKey d) (groupedOf ds)) as [g |] eqn:Hk.
    + rewrite (groupStep_old _ _ _ Hk). split.
      * now rewrite map_fst_update.
      * intros k. rewrite members_snoc.
        destruct (String.eqb (nameKey d) k) eqn:E.
        -- apply String.eqb_eq in E. subst k.
           rewrite lookup_update_same, Hk. simpl.
           rewrite IHl in Hk.
           destruct (members (nameKey d) ds) as [| d0 rest];
             [discriminate |].
           injection Hk as <-. simpl. now rewrite summarize_snoc.
        -- apply String.eqb_neq in E.
           rewrite lookup_update_other by assumption.
           rewrite IHl, app_nil_r. reflexivity.
    + rewrite (groupStep_new _ _ Hk). split.
      * rewrite map_app. simpl.
        apply NoDup_app; [assumption | repeat constructor; simpl; tauto |].
        intros k Hin [<- | []]. now apply lookup_None in Hk.
      * intros k. rewrite members_snoc, lookup_app. simpl.
        destruct (String.eqb (nameKey d) k) eqn:E.
        -- apply String.eqb_eq in E. subst k. rewrite Hk.
           rewrite IHl in Hk.
           destruct (members (nameKey d) ds) as [| d0 rest];
             [| discriminate].
           reflexivity.
        -- rewrite IHl, app_nil_r.
           now destruct (members k ds).
Qed.

(** *** What a summary holds *)

Definition historyEntry (d : Donation.t) : History.t :=
  {| History.amount := amountOr0 (Donation.amount d);
     History.date := Donation.date d;
     History.notes := Donation.notes d |}.

(** The date comparison of the loop: the candidate wins only when it is
    strictly later. *)
Definition later (current candidate : JsDate) : JsDate :=
  if (getTime candidate >? getTime current)%Z then candidate else current.

Lemma absorb_fold (l : list Donation.t) (g : Donor.t) :
  let r := fold_left absorb l g in
  Donor.donorName r = Donor.donorName g /\
  Donor.categoryId r = Donor.categoryId g /\
  Donor.notes r = Donor.notes g /\
  Donor._id r = Donor._id g /\
  Donor.amount r
    = fold_left JS.add (map (fun d => amountOr0 (Donation.amount d)) l)
        (Donor.amount g) /\
  Donor.history r = (Donor.history g ++ map historyEntry l)%list /\
  Donor.date r = fold_left later (map Donation.date l) (Donor.date g).
Proof.
  revert g. induction l as [| d l IH]; intros g; cbn [fold_left map].
  - rewrite app_nil_r. repeat split; reflexivity.
  - destruct (IH (absorb g d)) as (Hn & Hc & Hnt & Hi & Ha & Hh & Hd).
    cbv zeta in *. rewrite Hn, Hc, Hnt, Hi, Ha, Hh, Hd.
    cbn [absorb Donor.donorName Donor.categoryId Donor.notes Donor._id
         Donor.amount Donor.history Donor.date].
    rewrite <- app_assoc. repeat split; reflexivity.
Qed.

Lemma later_self (x : JsDate) : later x x = x.
Proof.
  unfold later. now destruct (getTime x >? getTime x)%Z.
Qed.

Lemma summarize_fields (d0 : Donation.t) (rest : list Donation.t) :
  let g := summarize d0 rest in
  Donor.donorName g = trim (Donation.donorName d0) /\
  Donor.categoryId g = Donation.categoryId d0 /\
  Donor.notes g = Donation.notes d0 /\
  Donor._id g = Donation._id d0 /\
  Donor.amount g
    = fold_left JS.add
        (map (fun d => amountOr0 (Donation.amount d)) (d0 :: rest)) 0%Z /\
  Donor.history g = map historyEntry (d0 :: rest) /\
  Donor.date g
    = fold_left later (map Donation.date rest) (Donation.date d0).
Proof.
  unfold summarize.
  destruct (absorb_fold (d0 :: rest) (newDonor d0))
    as (Hn & Hc & Hnt & Hi & Ha & Hh & Hd).
  cbv zeta. rewrite Hn, Hc, Hnt, Hi, Ha, Hh, Hd.
  cbn [map fold_left newDonor Donor.donorName Donor.categoryId Donor.notes
       Donor._id Donor.amount Donor.history Donor.date app].
  rewrite later_self. repeat split; reflexivity.
Qed.

(** [fold_left later] returns the first date of the sequence that attains
    the greatest time value. *)
Lemma later_first_max (x : JsDate) (l : list JsDate) :
  exists pre post,
    x :: l = (pre ++ fold_left later l x :: post)%list /\
    (forall y, In y pre -> (getTime y < getTime (fold_left later l x))%Z) /\
    (forall y, In y post -> (getTime y <= getTime (fold_left later l x))%Z).
Proof.
  induction l as [| z l (pre & post & Hs & Hpre & Hpost)] using rev_ind.
  - exists [], []. simpl. repeat split; intros y [].
  - rewrite fold_left_app. simpl. unfold later at 1 3 5.
    destruct (getTime z >? getTime (fold_left later l x))%Z eqn:E.
    + apply Z.gtb_lt in E. exists (x :: l), []. split; [| split].
      * now rewrite app_comm_cons.
      * intros y Hy. rewrite Hs in Hy. apply in_app_or in Hy.
        destruct Hy as [Hy | [<- | Hy]].
        -- specialize (Hpre y Hy). lia.
        -- lia.
        -- specialize (Hpost y Hy). lia.
      * intros y [].
    + assert (Hle : (getTime z <= getTime (fold_left later l x))%Z).
      { destruct (Z.gtb_spec (getTime z) (getTime (fold_left later l x)));
          [discriminate | lia]. }
      exists pre, (post ++ [z])%list. split; [| split].
      * rewrite app_comm_cons, Hs, <- app_assoc. reflexivity.
      * exact Hpre.
      * intros y Hy. apply in_app_or in Hy.
        destruct Hy as [Hy | [<- | []]]; [now apply Hpost | exact Hle].
Qed.

Lemma members_key (k : string) (ds : list Donation.t) (d : Donation.t) :
  In d (members k ds) -> nameKey d = k /\ In d ds.
Proof.
  unfold members. rewrite filter_In. intros [Hin E].
  apply String.eqb_eq in E. now split.
Qed.

(** Every entry of [grouped] is the summary of the records with its key,
    of which there is at least one. *)
Lemma groupedOf_entry (ds : list Donation.t) (k : string) (g : Donor.t) :
  In (k, g) (groupedOf ds) ->
  exists d0 rest, members k ds = d0 :: rest /\ g = summarize d0 rest.
Proof.
  intros Hin. destruct (groupedOf_spec ds) as [Hnd Hl].
  apply (In_lookup _ _ _ Hnd) in Hin. rewrite Hl in Hin.
  destruct (members k ds) as [| d0 rest]; [discriminate |].
  injection Hin as <-. now exists d0, rest.
Qed.

(** *** Totals per category *)

(** The total of category [id] over a list of aggregates: the mathematical
    sum of the amounts of the aggregates whose reference names [id]. *)
Definition categoryTotal (id : string) (donors : list Donor.t) : Z :=
  sumZ (map Donor.amount
          (filter (fun g => namesCategory id (Donor.categoryId g)) donors)).

(** The records of category [id], and the mathematical sum of their
    amounts, a missing amount counting as 0. *)
Definition recordsOf (id : string) (ds : list Donation.t)
  : list Donation.t :=
  filter (fun d => namesCategory id (Donation.categoryId d)) ds.

Definition recordTotal (id : string) (ds : list Donation.t) : Z :=
  sumZ (map (fun d => match Donation.amount d with
                      | Some a => a
                      | None => 0%Z
                      end) (recordsOf id ds)).

(** What the history of an aggregate adds up to. *)
Definition historyTotal (g : Donor.t) : Z :=
  sumZ (map History.amount (Donor.history g)).

Lemma inCategory_namesCategory (id : string) (r : CategoryRef) :
  inCategory id r = namesCategory id r.
Proof. now destruct r. Qed.

Lemma sumZ_app (l1 l2 : list Z) : sumZ (l1 ++ l2) = (sumZ l1 + sumZ l2)%Z.
Proof.
  induction l1 as [| a l1 IH]; simpl; [reflexivity | rewrite IH; lia].
Qed.

(** As long as the magnitudes met stay within the safe integers, the
    double sums of a loop are the mathematical ones. *)
Lemma fold_add_exact (l : list Z) (acc : Z) :
  (Z.abs acc + sumZ (map Z.abs l) <= JS.maxSafeInteger)%Z ->
  fold_left JS.add l acc = (acc + sumZ l)%Z.
Proof.
  revert acc. unfold sumZ.
  induction l as [| a l IH]; intros acc H; cbn [fold_left map fold_right] in *.
  - lia.
  - assert (Hl : (0 <= fold_right Z.add 0 (map Z.abs l))%Z).
    { clear. induction l as [| x l IH]; cbn; lia. }
    rewrite add_exact by lia. rewrite IH by lia. lia.
Qed.

Lemma sumZ_abs_nonneg (l : list Z) : (0 <= sumZ (map Z.abs l))%Z.
Proof.
  unfold sumZ. induction l as [| x l IH]; cbn; lia.
Qed.

(** A narrower selection of records has the smaller sum of magnitudes. *)
Lemma magnitudes_filter (p q : Donation.t -> bool) (ds : list Donation.t) :
  (forall d, In d ds -> p d = true -> q d = true) ->
  (sumZ (map (fun d => Z.abs (amountOr0 (Donation.amount d))) (filter p ds))
   <= sumZ (map (fun d => Z.abs (amountOr0 (Donation.amount d)))
              (filter q ds)))%Z.
Proof.
  unfold sumZ. induction ds as [| d ds IH]; intros H; [cbn; lia |].
  assert (IH' := IH (fun x Hx => H x (or_intror Hx))).
  cbn [filter]. destruct (p d) eqn:Ep.
  - rewrite (H d (or_introl eq_refl) Ep). cbn [map fold_right]. lia.
  - assert (Hq := sumZ_abs_nonneg
                    (map (fun d => amountOr0 (Donation.amount d))
                       (filter q ds))).
    unfold sumZ in Hq. rewrite map_map in Hq.
    destruct (q d); cbn [map fold_right]; lia.
Qed.

Lemma magnitudes_read (ds : list Donation.t) :
  sumZ (map (fun d => Z.abs (amountOr0 (Donation.amount d))) ds)
    = sumZ (map (fun d => match Donation.amount d with
                          | Some a => Z.abs a
                          | None => 0%Z
                          end) ds).
Proof.
  f_equal. apply map_ext. intros d. now destruct (Donation.amount d).
Qed.

Lemma historyTotal_summarize (d0 : Donation.t) (rest : list Donation.t) :
  historyTotal (summarize d0 rest)
    = sumZ (map (fun d => amountOr0 (Donation.amount d)) (d0 :: rest)).
Proof.
  unfold historyTotal.
  destruct (summarize_fields d0 rest) as (_ & _ & _ & _ & _ & -> & _).
  now rewrite map_map.
Qed.

(** The total of an aggregate is the mathematical sum of its history when
    the magnitudes of the amounts of its records add up to a safe
    integer. *)
Lemma amount_exact (ds : list Donation.t) (k : string) (g : Donor.t) :
  In (k, g) (groupedOf ds) ->
  (sumZ (map (fun d => Z.abs (amountOr0 (Donation.amount d))) (members k ds))
   <= JS.maxSafeInteger)%Z ->
  Donor.amount g = historyTotal g.
Proof.
  intros Hin Hb.
  destruct (groupedOf_entry _ _ _ Hin) as (d0 & rest & Hm & ->).
  rewrite historyTotal_summarize.
  destruct (summarize_fields d0 rest) as (_ & _ & _ & _ & -> & _).
  rewrite Hm, <- map_map in Hb.
  rewrite fold_add_exact by (cbn [Z.abs]; lia). lia.
Qed.

Lemma historyTotal_absorb (g : Donor.t) (d : Donation.t) :
  historyTotal (absorb g d)
    = (historyTotal g + amountOr0 (Donation.amount d))%Z.
Proof.
  unfold historyTotal. cbn [absorb Donor.history].
  rewrite map_app, sumZ_app. cbn. lia.
Qed.

(** The history totals of a category, over the [grouped] object. *)
Definition categoryHistory (id : string) (donors : list Donor.t) : Z :=
  sumZ (map historyTotal
          (filter (fun g => namesCategory id (Donor.categoryId g)) donors)).

Lemma categoryHistory_app (id : string) (l1 l2 : list Donor.t) :
  categoryHistory id (l1 ++ l2)
    = (categoryHistory id l1 + categoryHistory id l2)%Z.
Proof.
  unfold categoryHistory. now rewrite filter_app, map_app, sumZ_app.
Qed.

Lemma recordTotal_snoc (id : string) (ds : list Donation.t)
    (d : Donation.t) :
  recordTotal id (ds ++ [d]) =
  (recordTotal id ds
   + if namesCategory id (Donation.categoryId d)
     then amountOr0 (Donation.amount d) else 0)%Z.
Proof.
  unfold recordTotal, recordsOf. rewrite filter_app, map_app, sumZ_app.
  cbn [filter].
  destruct (namesCategory id (Donation.categoryId d));
    cbn [map sumZ fold_right]; unfold amountOr0; lia.
Qed.

Lemma categoryHistory_update (id k : string) (d : Donation.t) (g : Donor.t)
    (l : list (string * Donor.t)) :
  lookup k l = Some g ->
  categoryHistory id (map snd (update k (fun g => absorb g d) l)) =
  (categoryHistory id (map snd l)
   + if namesCategory id (Donor.categoryId g)
     then amountOr0 (Donation.amount d) else 0)%Z.
Proof.
  induction l as [| [k' g'] l IH]; cbn [lookup update]; [discriminate |].
  destruct (String.eqb k' k) eqn:E.
  - intros [= ->]. unfold categoryHistory. cbn [map snd filter].
    change (Donor.categoryId (absorb g d)) with (Donor.categoryId g).
    destruct (namesCategory id (Donor.categoryId g));
      cbn [map sumZ fold_right]; rewrite ?historyTotal_absorb; lia.
  - intros H. specialize (IH H). unfold categoryHistory, sumZ in *.
    cbn [map snd filter].
    destruct (namesCategory id (Donor.categoryId g'));
      cbn [map fold_right]; lia.
Qed.

(** The histories of a category hold, in all, the amounts of the records
    of the category. *)
Lemma categoryHistory_groupedOf (id : string) (ds : list Donation.t) :
  categoryHistory id (map snd (groupedOf ds)) = recordTotal id ds.
Proof.
  induction ds as [| d ds IH] using rev_ind; [reflexivity |].
  rewrite groupedOf_snoc, recordTotal_snoc, <- IH.
  destruct (lookup (nameKey d) (groupedOf ds)) as [g |] eqn:Hk.
  - rewrite (groupStep_old _ _ _ Hk).
    rewrite (categoryHistory_update _ _ _ _ _ Hk).
    apply lookup_In, groupedOf_entry in Hk as (d0 & rest & Hm & ->).
    destruct (summarize_fields d0 rest) as (_ & -> & _).
    assert (Hin : In d0 (members (nameKey d) ds))
      by (rewrite Hm; now left).
    apply members_key in Hin as [Hkey _].
    now rewrite <- !inCategory_namesCategory,
      (nameKey_inCategory id _ _ Hkey).
  - rewrite (groupStep_new _ _ Hk), map_app, categoryHistory_app.
    unfold categoryHistory at 2. cbn [map snd filter].
    change (Donor.categoryId (absorb (newDonor d) d))
      with (Donation.categoryId d).
    destruct (namesCategory id (Donation.categoryId d));
      cbn [map sumZ fold_right]; rewrite ?historyTotal_absorb;
      cbn [historyTotal newDonor Donor.history map sumZ fold_right]; lia.
Qed.

(** The records behind an aggregate of category [id] are records of that
    category. *)
Lemma members_of_category (id k : string) (g : Donor.t)
    (ds : list Donation.t) :
  In (k, g) (groupedOf ds) ->
  namesCategory id (Donor.categoryId g) = true ->
  forall d, In d ds -> String.eqb (nameKey d) k = true ->
            namesCategory id (Donation.categoryId d) = true.
Proof.
  intros Hin Hg d Hd Hk. apply String.eqb_eq in Hk.
  destruct (groupedOf_entry _ _ _ Hin) as (d0 & rest & Hm & ->).
  destruct (summarize_fields d0 rest) as (_ & Hc & _). rewrite Hc in Hg.
  assert (H0 : In d0 (members k ds)) by (rewrite Hm; now left).
  apply members_key in H0 as [Hkey _].
  rewrite <- inCategory_namesCategory in *.
  rewrite (nameKey_inCategory id d d0); [assumption | congruence].
Qed.

(** C1, within the safe integers.  Among the approved records, when the
    magnitudes of the amounts of the records of a category add up to no
    more than [Number.MAX_SAFE_INTEGER], the totals of the aggregates of
    the category add up to the amounts of those records, a missing amount
    counting as 0. *)
Theorem aggregate_totals_conserved
    (donations : list Donation.t) (id : string) :
  let approvedOnes :=
    filter (fun d => isApproved (Donation.status d)) donations in
  (sumZ (map (fun d => match Donation.amount d with
                       | Some a => Z.abs a
                       | None => 0%Z
                       end) (recordsOf id approvedOnes))
   <= JS.maxSafeInteger)%Z ->
  categoryTotal id (groupDonationsByName approvedOnes)
    = recordTotal id approvedOnes.
Proof.
  cbv zeta. set (ds := filter _ donations). intros Hb.
  rewrite <- categoryHistory_groupedOf.
  unfold categoryTotal, categoryHistory, groupDonationsByName. f_equal.
  apply map_ext_in. intros g Hg. apply filter_In in Hg as [Hg Hcat].
  apply in_map_iff in Hg as [[k g'] [E Hin]]. cbn [snd] in E. subst g'.
  apply (amount_exact ds k); [assumption |].
  etransitivity; [| exact Hb].
  etransitivity;
    [apply (magnitudes_filter _
              (fun d => namesCategory id (Donation.categoryId d)));
     intros d Hd; now apply (members_of_category id k g ds) |].
  unfold recordsOf. apply Z.eq_le_incl. f_equal. apply map_ext.
  intros d. unfold amountOr0. now destruct (Donation.amount d).
Qed.

(** C7, as the code has it.  Every aggregate stands for at least one
    record; its date is the date of the first of its records that attains
    the greatest time value (so no record of the group is later); its
    notes are those of the first record of the group. *)
Theorem representative_date_and_notes
    (ds : list Donation.t) (g : Donor.t) :
  In g (groupDonationsByName ds) ->
  exists k d0 rest,
    In (k, g) (groupedOf ds) /\
    members k ds = d0 :: rest /\
    Donor.notes g = Donation.notes d0 /\
    exists pre m post,
      d0 :: rest = (pre ++ m :: post)%list /\
      Donor.date g = Donation.date m /\
      (forall x, In x pre ->
         (getTime (Donation.date x) < getTime (Donation.date m))%Z) /\
      (forall x, In x post ->
         (getTime (Donation.date x) <= getTime (Donation.date m))%Z).
Proof.
  unfold groupDonationsByName. intros Hin.
  apply in_map_iff in Hin as [[k g'] [Heq Hin]]. simpl in Heq. subst g'.
  destruct (groupedOf_entry _ _ _ Hin) as (d0 & rest & Hm & ->).
  exists k, d0, rest. split; [assumption | split; [assumption |]].
  destruct (summarize_fields d0 rest) as (_ & _ & Hnotes & _ & _ & _ & Hd).
  split; [assumption |]. rewrite Hd.
  destruct (later_first_max (Donation.date d0) (map Donation.date rest))
    as (pre & post & Hs & Hpre & Hpost).
  change (Donation.date d0 :: map Donation.date rest)
    with (map Donation.date (d0 :: rest)) in Hs.
  apply map_eq_app in Hs as (lp & lq & Hsplit & Hlp & Hlq).
  destruct lq as [| m post']; [discriminate |].
  injection Hlq as Hm' Hpost'.
  exists lp, m, post'. split; [assumption | split; [now rewrite Hm' |]].
  rewrite <- Hm' in Hpre, Hpost. split.
  - intros x Hx. apply Hpre. rewrite <- Hlp. now apply in_map.
  - intros x Hx. apply Hpost. rewrite <- Hpost'. now apply in_map.
Qed.

End FrontEnd.

(** ** Concrete runs of the front end

    The instances below use the ASCII models of [toLowerCase] and [trim];
    on the names involved (ASCII and Devanagari) they agree with the
    built-ins. *)

Definition oid1 : ObjectId :=
  {| hexString := "65a4f0c2b7e1d9a3c5f00001"; hexString_ok := eq_refl |}.
Definition oid2 : ObjectId :=
  {| hexString := "65a4f0c2b7e1d9a3c5f00002"; hexString_ok := eq_refl |}.
Definition oid3 : ObjectId :=
  {| hexString := "65a4f0c2b7e1d9a3c5f00003"; hexString_ok := eq_refl |}.
Definition oid4 : ObjectId :=
  {| hexString := "65a4f0c2b7e1d9a3c5f00004"; hexString_ok := eq_refl |}.

Definition category1 : Category.t :=
  {| Category._id := oid1; Category.name := "Tola"; Category.order := 1 |}.

(** The records [{name:"Ram", cat:1, amount:500}] and
    [{name:"ram", cat:1, amount:300}], approved and populated. *)
Definition ramRecords : list Donation.t :=
  [ {| Donation._id := oid2; Donation.donorName := "Ram";
       Donation.amount := Some 500%Z; Donation.date := DateISO 1705276800000;
       Donation.categoryId := RefDoc category1; Donation.notes := "";
       Donation.status := approved |};
    {| Donation._id := oid3; Donation.donorName := "ram";
       Donation.amount := Some 300%Z; Donation.date := DateISO 1705536000000;
       Donation.categoryId := RefDoc category1; Donation.notes := "";
       Donation.status := approved |} ].

(** Two records of one donor in one category that differ in their notes
    and carry the same date. *)
Definition sita1 : Donation.t :=
  {| Donation._id := oid2; Donation.donorName := "Sita";
     Donation.amount := Some 100%Z; Donation.date := DateISO 1705276800000;
     Donation.categoryId := RefDoc category1; Donation.notes := "first";
     Donation.status := approved |}.

Definition sita2 : Donation.t :=
  {| Donation._id := oid3; Donation.donorName := "Sita";
     Donation.amount := Some 200%Z; Donation.date := DateISO 1705276800000;
     Donation.categoryId := RefDoc category1; Donation.notes := "second";
     Donation.status := approved |}.

Definition notedRecords : list Donation.t := [sita1; sita2].

(** An approved donation of the donor "श्री राम". *)
Definition shriRamRecords : list Donation.t :=
  [ {| Donation._id := oid4; Donation.donorName := "श्री राम";
       Donation.amount := Some 51000%Z; Donation.date := DateISO 1705276800000;
       Donation.categoryId := RefDoc category1; Donation.notes := "";
       Donation.status := approved |} ].

(** The table with its twelve proper nouns moved in front of the
    fifty-eight single glyphs. *)
Definition wordsFirstMap : list (string * string) :=
  (skipn 58 transliterationMap ++ firstn 58 transliterationMap)%list.

Definition oid5 : ObjectId :=
  {| hexString := "65a4f0c2b7e1d9a3c5f00005"; hexString_ok := eq_refl |}.
Definition oid6 : ObjectId :=
  {| hexString := "65a4f0c2b7e1d9a3c5f00006"; hexString_ok := eq_refl |}.
Definition oid7 : ObjectId :=
  {| hexString := "65a4f0c2b7e1d9a3c5f00007"; hexString_ok := eq_refl |}.

Definition category2 : Category.t :=
  {| Category._id := oid5; Category.name := "Bazar"; Category.order := 2 |}.

(** Five records of donors called Ram, written in different ways: two of
    category 1 (one populated, one by its bare id), one of category 2, two
    whose category could not be resolved; two of them carry no amount. *)
Definition mixedRecords : list Donation.t :=
  [ {| Donation._id := oid2; Donation.donorName := "  Ram ";
       Donation.amount := Some 500%Z; Donation.date := DateISO 1705276800000;
       Donation.categoryId := RefDoc category1; Donation.notes := "";
       Donation.status := approved |};
    {| Donation._id := oid3; Donation.donorName := "RAM";
       Donation.amount := Some 300%Z; Donation.date := DateISO 1705276800000;
       Donation.categoryId := RefDoc category2; Donation.notes := "";
       Donation.status := approved |};
    {| Donation._id := oid4; Donation.donorName := "ram";
       Donation.amount := None; Donation.date := DateISO 1705276800000;
       Donation.categoryId := RefNull; Donation.notes := "";
       Donation.status := approved |};
    {| Donation._id := oid6; Donation.donorName := "ram  ";
       Donation.amount := None; Donation.date := DateISO 1705276800000;
       Donation.categoryId := RefId oid1; Donation.notes := "";
       Donation.status := approved |};
    {| Donation._id := oid7; Donation.donorName := "Ram";
       Donation.amount := Some 7%Z; Donation.date := DateISO 1705276800000;
       Donation.categoryId := RefNull; Donation.notes := "";
       Donation.status := approved |} ].

Lemma resolvedId_namesCategory (r1 r2 : CategoryRef) :
  resolvedId r1 = resolvedId r2 <->
  forall id, namesCategory id r1 = namesCategory id r2.
Proof.
  split.
  - intros H id. rewrite <- !inCategory_namesCategory. unfold inCategory.
    now rewrite H.
  - intros H.
    assert (Hsome : forall r s, resolvedId r = Some s ->
                                namesCategory s r = true).
    { intros r s. destruct r; cbn; intros [= <-];
        apply String.eqb_refl. }
    assert (Hname : forall r s, namesCategory s r = true ->
                                resolvedId r = Some s).
    { intros r s. destruct r; cbn; intros E; try discriminate E;
        apply String.eqb_eq in E; now rewrite E. }
    destruct (resolvedId r1) as [s1 |] eqn:E1.
    + apply Hsome in E1. rewrite H in E1. symmetry. now apply Hname.
    + destruct (resolvedId r2) as [s2 |] eqn:E2; [| reflexivity].
      apply Hsome in E2. rewrite <- H in E2. apply Hname in E2. congruence.
Qed.

(** C4.  The key of a record is its trimmed, lower-cased donor name, an
    underscore and the id of its category, taken from the bare id or from
    the populated document (["unknown"] for an unresolved reference); two
    records share a key iff they agree on the normalised name and name
    the same category; the aggregator keeps one aggregate per key, which
    totals and lists exactly the records of that key, in their order; the
    two records "Ram"/500 and "ram"/300 of category 1 give one aggregate
    named "Ram" with total 800 and a history of two entries; of five
    records of "Ram" in other spellings, the two of category 1, the one
    of category 2 and the two without a category give three aggregates. *)
Theorem groups_by_name_and_category :
  (forall lower trim d,
     nameKey lower trim d =
     lower (trim (Donation.donorName d)) ++ "_" ++
     match Donation.categoryId d with
     | RefNull => "unknown"
     | RefId i => hexString i
     | RefDoc c => hexString (Category._id c)
     end) /\
  (forall lower trim d1 d2,
     nameKey lower trim d1 = nameKey lower trim d2 <->
     lower (trim (Donation.donorName d1))
       = lower (trim (Donation.donorName d2)) /\
     forall id, namesCategory id (Donation.categoryId d1)
                = namesCategory id (Donation.categoryId d2)) /\
  (forall lower trim ds,
     NoDup (map fst (groupedOf lower trim ds)) /\
     (forall d, In d ds ->
        exists g, In (nameKey lower trim d, g) (groupedOf lower trim ds)) /\
     (forall k g, In (k, g) (groupedOf lower trim ds) ->
        members lower trim k ds <> [] /\
        Donor.amount g =
          fold_left JS.add
            (map (fun d => match Donation.amount d with
                           | Some a => a
                           | None => 0%Z
                           end) (members lower trim k ds)) 0%Z /\
        Donor.history g =
          map (fun d =>
                 {| History.amount := match Donation.amount d with
                                      | Some a => a
                                      | None => 0%Z
                                      end;
                    History.date := Donation.date d;
                    History.notes := Donation.notes d |})
              (members lower trim k ds))) /\
  (exists g,
     groupDonationsByName JS.asciiLowerCase JS.asciiTrim ramRecords = [g] /\
     Donor.donorName g = "Ram" /\
     Donor.amount g = 800%Z /\
     map History.amount (Donor.history g) = [500%Z; 300%Z]) /\
  (map (fun e => (fst e, Donor.donorName (snd e), Donor.amount (snd e),
                  map History.amount (Donor.history (snd e))))
       (groupedOf JS.asciiLowerCase JS.asciiTrim mixedRecords)
   = [ ("ram_65a4f0c2b7e1d9a3c5f00001", "Ram", 500%Z, [500%Z; 0%Z]);
       ("ram_65a4f0c2b7e1d9a3c5f00005", "RAM", 300%Z, [300%Z]);
       ("ram_unknown", "ram", 7%Z, [0%Z; 7%Z]) ]).
Proof.
  split; [| split; [| split; [| split]]].
  - intros lower trim d. unfold nameKey, refKey.
    now destruct (Donation.categoryId d).
  - intros lower trim d1 d2. rewrite nameKey_eq.
    now rewrite resolvedId_namesCategory.
  - intros lower trim ds. destruct (groupedOf_spec lower trim ds) as [Hnd Hl].
    split; [assumption | split].
    + intros d Hin.
      assert (Hm : In d (members lower trim (nameKey lower trim d) ds)).
      { unfold members. apply filter_In. split; [assumption |].
        apply String.eqb_refl. }
      specialize (Hl (nameKey lower trim d)).
      destruct (members lower trim (nameKey lower trim d) ds)
        as [| d0 rest]; [destruct Hm |].
      exists (summarize trim d0 rest). now apply lookup_In.
    + intros k g Hin.
      destruct (groupedOf_entry _ _ _ _ _ Hin) as (d0 & rest & Hm & ->).
      rewrite Hm.
      destruct (summarize_fields trim d0 rest)
        as (_ & _ & _ & _ & Ha & Hh & _).
      split; [discriminate | split; [exact Ha | exact Hh]].
  - eexists. split; [vm_compute; reflexivity |]. now vm_compute.
  - now vm_compute.
Qed.

(** Two approved records of one donor of category 1 whose amounts are
    2^53 and 1. *)
Definition hugeRecords : list Donation.t :=
  [ {| Donation._id := oid2; Donation.donorName := "Ram";
       Donation.amount := Some 9007199254740992%Z;
       Donation.date := DateISO 1705276800000;
       Donation.categoryId := RefDoc category1; Donation.notes := "";
       Donation.status := approved |};
    {| Donation._id := oid3; Donation.donorName := "Ram";
       Donation.amount := Some 1%Z; Donation.date := DateISO 1705536000000;
       Donation.categoryId := RefDoc category1; Donation.notes := "";
       Donation.status := approved |} ].

(** C1 as stated fails beyond the safe integers: the total of the one
    aggregate of [hugeRecords] is 2^53, the double nearest to the sum
    2^53 + 1 of the two amounts. *)
Lemma totals_round_beyond_safe_integers :
  filter (fun d => isApproved (Donation.status d)) hugeRecords
    = hugeRecords /\
  map Donor.amount
    (groupDonationsByName JS.asciiLowerCase JS.asciiTrim hugeRecords)
    = [9007199254740992%Z] /\
  categoryTotal (hexString oid1)
    (groupDonationsByName JS.asciiLowerCase JS.asciiTrim hugeRecords)
    = 9007199254740992%Z /\
  recordTotal (hexString oid1) hugeRecords = 9007199254740993%Z.
Proof. repeat split; now vm_compute. Qed.

Lemma aggregate_totals_conserved_witness :
  categoryTotal (hexString oid1)
    (groupDonationsByName JS.asciiLowerCase JS.asciiTrim
       (filter (fun d => isApproved (Donation.status d)) mixedRecords))
  = recordTotal (hexString oid1)
      (filter (fun d => isApproved (Donation.status d)) mixedRecords).
Proof.
  apply (aggregate_totals_conserved JS.asciiLowerCase JS.asciiTrim
           mixedRecords (hexString oid1)).
  vm_compute. discriminate.
Defined.

(** C5, on the code.  The single glyphs come first in the table, so by the
    time the entry "श्री" is tried the name already reads "shree ram":
    the term "shri" occurs neither in the name nor in its transliteration
    and the donor is filtered out.  With the proper nouns tried first the
    same name would read "shri ram" and match. *)
Theorem shri_search_misses :
  transliterateHindiToEnglish JS.asciiLowerCase "श्री राम" = "shree ram" /\
  (forall d, Donor.donorName d = "श्री राम" ->
     searchMatches JS.asciiLowerCase "shri" d = false) /\
  filteredDonors JS.asciiLowerCase JS.asciiTrim shriRamRecords
                "shri" "" AnyStatus = [] /\
  length (filteredDonors JS.asciiLowerCase JS.asciiTrim shriRamRecords
                        "" "" AnyStatus) = 1%nat /\
  transliterateWith JS.asciiLowerCase wordsFirstMap "श्री राम" = "shri ram" /\
  JS.includes "shri ram" "shri" = true.
Proof.
  split; [now vm_compute |].
  split; [intros d Hd; unfold searchMatches; rewrite Hd; now vm_compute |].
  repeat split; now vm_compute.
Qed.

(** C7 as stated fails on the notes: the aggregate of [notedRecords] keeps
    the notes of the first record, not those of the last one seen. *)
Lemma notes_are_not_last_seen :
  exists g,
    groupDonationsByName JS.asciiLowerCase JS.asciiTrim notedRecords = [g] /\
    members JS.asciiLowerCase JS.asciiTrim
            "sita_65a4f0c2b7e1d9a3c5f00001" notedRecords = notedRecords /\
    Donor.notes g = "first" /\
    map Donation.notes notedRecords = ["first"; "second"] /\
    Donor.notes g <> last (map Donation.notes notedRecords) "".
Proof.
  eexists. split; [vm_compute; reflexivity |].
  repeat split; now vm_compute.
Qed.


Lemma representative_date_and_notes_witness :
  In (summarize JS.asciiTrim sita1 [sita2])
     (groupDonationsByName JS.asciiLowerCase JS.asciiTrim notedRecords) /\
  exists k d0 rest,
    In (k, summarize JS.asciiTrim sita1 [sita2])
       (groupedOf JS.asciiLowerCase JS.asciiTrim notedRecords) /\
    members JS.asciiLowerCase JS.asciiTrim k notedRecords = d0 :: rest /\
    Donor.notes (summarize JS.asciiTrim sita1 [sita2]) = Donation.notes d0 /\
    exists pre m post,
      d0 :: rest = (pre ++ m :: post)%list /\
      Donor.date (summarize JS.asciiTrim sita1 [sita2]) = Donation.date m /\
      (forall x, In x pre ->
         (getTime (Donation.date x) < getTime (Donation.date m))%Z) /\
      (forall x, In x post ->
         (getTime (Donation.date x) <= getTime (Donation.date m))%Z).
Proof.
  assert (H : In (summarize JS.asciiTrim sita1 [sita2])
                (groupDonationsByName JS.asciiLowerCase JS.asciiTrim
                   notedRecords))
    by (vm_compute; left; reflexivity).
  split; [exact H |].
  exact (representative_date_and_notes JS.asciiLowerCase JS.asciiTrim
           notedRecords (summarize JS.asciiTrim sita1 [sita2]) H).
Defined.

(** ** Server: collections, requests and routing *)

(** The fields a JSON request body may carry, each possibly absent. *)
Module Body.

Inductive DateField :=
| DateAbsent                (* no [date] field *)
| DateIsNull                (* [date: null] *)
| DateEmpty                 (* [date: ""] *)
| DateUnparsable            (* a string that is not a date *)
| DateGiven (ms : Z).       (* a date string, by its time value *)

Record OrderItem := mkItem {
  id : string;
  newOrder : Z
}.

Record t := mk {
  donorName : option string;
  amount : option (option Z);   (* absent, [null], or a number *)
  date : DateField;
  categoryId : option string;
  notes : option string;
  status : option Status;
  name : option string;
  order : option Z;
  orders : option (list OrderItem)
}.

Definition empty : t :=
  {| donorName := None; amount := None; date := DateAbsent;
     categoryId := None; notes := None; status := None;
     name := None; order := None; orders := None |}.

End Body.

(** A stored sub-admin account (the password hash is left out). *)
Record SubAdminAccount := {
  accountName : string;
  accountPermissions : Permissions
}.

(** An activity log entry (the details text and the origin address are
    left out: nothing below reads them). *)
Record LogEntry := {
  action : string;
  entity : string;
  entityId : option string;
  user : string;
  userType : UserType
}.

Record State := {
  donations : list Donation.t;
  categories : list Category.t;
  subAdmins : list SubAdminAccount;
  logs : list LogEntry
}.

Inductive Method := GET | POST | PUT | DELETE.

Record Request := {
  method : Method;
  path : list string;            (* the segments of the URL path *)
  xUser : option string;         (* header [x-user] *)
  xUserType : option string;     (* header [x-user-type] *)
  body : Body.t
}.

(** What the handler takes from its environment: the id MongoDB gives the
    next document and the clock. *)
Record Env := {
  newId : ObjectId;
  now : Z
}.

Inductive Failure := CastError | ValidationError | TypeError.

Inductive Payload :=
| Message (m : string)
| ErrorMessage (e : Failure)
| CannotDelete (donationCount : nat)
| DonationJson (d : Donation.t)
| CategoryJson (c : Category.t)
| CategoryList (l : list Category.t)
| DonationList (l : list Donation.t).

Record Response := {
  statusCode : nat;
  payload : Payload
}.

Definition respond (code : nat) (p : Payload) : Response :=
  {| statusCode := code; payload := p |}.

(** [response.ok] of [fetch]. *)
Definition responseOk (r : Response) : bool :=
  (200 <=? statusCode r)%nat && (statusCode r <=? 299)%nat.

(** [req.headers[h] || fallback]: an absent or empty header is falsy. *)
Definition headerOr (h : option string) (fallback : string) : string :=
  match h with
  | None => fallback
  | Some EmptyString => fallback
  | Some s => s
  end.

Definition parseUserType (s : string) : option UserType :=
  if String.eqb s "admin" then Some admin
  else if String.eqb s "subadmin" then Some subadmin
  else None.

(** [createLog]: the entry is appended unless [ActivityLog.create] rejects
    it (a [userType] outside the enum), in which case the error is only
    printed. *)
Definition createLog (req : Request) (act ent : string)
    (entId : option string) (st : State) : State :=
  match parseUserType (headerOr (xUserType req) "admin") with
  | Some ut =>
      {| donations := donations st;
         categories := categories st;
         subAdmins := subAdmins st;
         logs := (logs st ++
                  [ {| action := act; entity := ent; entityId := entId;
                       user := headerOr (xUser req) "admin";
                       userType := ut |} ])%list |}
  | None => st
  end.

Definition withDonations (l : list Donation.t) (st : State) : State :=
  {| donations := l; categories := categories st;
     subAdmins := subAdmins st; logs := logs st |}.

Definition withCategories (l : list Category.t) (st : State) : State :=
  {| donations := donations st; categories := l;
     subAdmins := subAdmins st; logs := logs st |}.

(** *** Collections *)

Definition findDonation (i : ObjectId) (l : list Donation.t)
  : option Donation.t :=
  find (fun d => sameId (Donation._id d) i) l.

Fixpoint updateDonationById (i : ObjectId) (f : Donation.t -> Donation.t)
    (l : list Donation.t) : list Donation.t :=
  match l with
  | [] => []
  | d :: rest =>
      if sameId (Donation._id d) i then f d :: rest
      else d :: updateDonationById i f rest
  end.

Fixpoint removeDonationById (i : ObjectId) (l : list Donation.t)
  : list Donation.t :=
  match l with
  | [] => []
  | d :: rest =>
      if sameId (Donation._id d) i then rest
      else d :: removeDonationById i rest
  end.

Definition findCategory (i : ObjectId) (l : list Category.t)
  : option Category.t :=
  find (fun c => sameId (Category._id c) i) l.

Fixpoint updateCategoryById (i : ObjectId) (f : Category.t -> Category.t)
    (l : list Category.t) : list Category.t :=
  match l with
  | [] => []
  | c :: rest =>
      if sameId (Category._id c) i then f c :: rest
      else c :: updateCategoryById i f rest
  end.

Fixpoint removeCategoryById (i : ObjectId) (l : list Category.t)
  : list Category.t :=
  match l with
  | [] => []
  | c :: rest =>
      if sameId (Category._id c) i then rest
      else c :: removeCategoryById i rest
  end.

(** [.populate('categoryId')]: the referenced document, or [null]. *)
Definition populate (cats : list Category.t) (d : Donation.t) : Donation.t :=
  {| Donation._id := Donation._id d;
     Donation.donorName := Donation.donorName d;
     Donation.amount := Donation.amount d;
     Donation.date := Donation.date d;
     Donation.categoryId :=
       match Donation.categoryId d with
       | RefId i =>
           match findCategory i cats with
           | Some c => RefDoc c
           | None => RefNull
           end
       | r => r
       end;
     Donation.notes := Donation.notes d;
     Donation.status := Donation.status d |}.

(** Ascending stable sort on the order key: [.sort({ order: 1 })] on the
    server, [.sort((a, b) => a.order - b.order)] in the browser. *)
Fixpoint insertByOrder (c : Category.t) (l : list Category.t)
  : list Category.t :=
  match l with
  | [] => [c]
  | x :: rest =>
      if (Category.order c <=? Category.order x)%Z then c :: l
      else x :: insertByOrder c rest
  end.

Definition sortByOrder (l : list Category.t) : list Category.t :=
  fold_right insertByOrder [] l.

Definition setOrder (o : Z) (c : Category.t) : Category.t :=
  {| Category._id := Category._id c;
     Category.name := Category.name c;
     Category.order := o |}.

(** *** Routing *)

Inductive Segment := Lit (s : string) | Param (name : string).

Inductive Endpoint :=
| CreateDonation | UpdateDonation | ApproveDonation | DeleteDonation
| ListCategories | CreateCategory | UpdateCategory | DeleteCategory
| ReorderCategories
| Other (route : string).

(** The routes of [server.js] in the order of their registration.  (The
    middleware registered before them, [cors], [express.json] and
    [express.static], hands every POST, PUT and DELETE with a well-formed
    body on to the routes.) *)
Definition routes : list (Method * list Segment * Endpoint) :=
  [ (POST, [Lit "api"; Lit "auth"; Lit "login"], Other "login");
    (GET, [Lit "api"; Lit "donations"], Other "donations");
    (POST, [Lit "api"; Lit "donations"], CreateDonation);
    (PUT, [Lit "api"; Lit "donations"; Param "id"], UpdateDonation);
    (PUT, [Lit "api"; Lit "donations"; Param "id"; Lit "approve"],
     ApproveDonation);
    (DELETE, [Lit "api"; Lit "donations"; Param "id"], DeleteDonation);
    (GET, [Lit "api"; Lit "categories"], ListCategories);
    (POST, [Lit "api"; Lit "categories"], CreateCategory);
    (PUT, [Lit "api"; Lit "categories"; Param "id"], UpdateCategory);
    (DELETE, [Lit "api"; Lit "categories"; Param "id"], DeleteCategory);
    (PUT, [Lit "api"; Lit "categories"; Lit "reorder"], ReorderCategories);
    (GET, [Lit "api"; Lit "subadmins"], Other "subadmins");
    (POST, [Lit "api"; Lit "subadmins"], Other "subadmins");
    (PUT, [Lit "api"; Lit "subadmins"; Param "id"], Other "subadmins");
    (DELETE, [Lit "api"; Lit "subadmins"; Param "id"], Other "subadmins");
    (GET, [Lit "api"; Lit "settings"], Other "settings");
    (PUT, [Lit "api"; Lit "settings"], Other "settings");
    (PUT, [Lit "api"; Lit "settings"; Lit "password"], Other "password");
    (GET, [Lit "api"; Lit "logs"], Other "logs");
    (GET, [Lit "api"; Lit "stats"], Other "stats");
    (GET, [Lit "api"; Lit "community"], Other "community");
    (GET, [Lit "api"; Lit "community"; Lit "admin"], Other "community");
    (POST, [Lit "api"; Lit "community"], Other "community");
    (POST, [Lit "api"; Lit "community"; Param "id"; Lit "reply"],
     Other "reply");
    (DELETE, [Lit "api"; Lit "community"; Param "id"], Other "community");
    (PUT, [Lit "api"; Lit "settings"; Lit "community"], Other "community");
    (PUT, [Lit "api"; Lit "settings"; Lit "showDates"], Other "showDates");
    (GET, [Lit "admin"], Other "admin");
    (GET, [], Other "index") ].

Definition sameMethod (a b : Method) : bool :=
  match a, b with
  | GET, GET | POST, POST | PUT, PUT | DELETE, DELETE => true
  | _, _ => false
  end.

(** Express compares literal segments without regard to case; a parameter
    takes one whole segment. *)
Definition segmentMatches (pat : Segment) (seg : string) : bool :=
  match pat with
  | Lit s => String.eqb (JS.asciiLowerCase s) (JS.asciiLowerCase seg)
  | Param _ => true
  end.

Fixpoint pathMatches (pattern : list Segment) (p : list string) : bool :=
  match pattern, p with
  | [], [] => true
  | pat :: pattern', seg :: p' =>
      segmentMatches pat seg && pathMatches pattern' p'
  | _, _ => false
  end.

(** [req.params]. *)
Fixpoint params (pattern : list Segment) (p : list string)
  : list (string * string) :=
  match pattern, p with
  | Param n :: pattern', seg :: p' => (n, seg) :: params pattern' p'
  | _ :: pattern', _ :: p' => params pattern' p'
  | _, _ => []
  end.

(** The first registered route whose method and path match handles the
    request. *)
Fixpoint dispatchIn (rs : list (Method * list Segment * Endpoint))
    (m : Method) (p : list string)
  : option (Endpoint * list (string * string)) :=
  match rs with
  | [] => None
  | (m', pattern, e) :: rest =>
      if sameMethod m' m && pathMatches pattern p
      then Some (e, params pattern p)
      else dispatchIn rest m p
  end.

Definition dispatch (m : Method) (p : list string)
  : option (Endpoint * list (string * string)) :=
  dispatchIn routes m p.

Definition paramId (ps : list (string * string)) : string :=
  match ps with
  | (_, v) :: _ => v
  | [] => ""
  end.

(** *** Handlers *)

(** [!req.body.amount] and [!req.body.date]. *)
Definition amountFalsy (a : option (option Z)) : bool :=
  match a with
  | Some (Some z) => (z =? 0)%Z
  | _ => true
  end.

Definition dateFalsy (d : Body.DateField) : bool :=
  match d with
  | Body.DateAbsent | Body.DateIsNull | Body.DateEmpty => true
  | Body.DateUnparsable | Body.DateGiven _ => false
  end.

(** [new Donation(donationData)] followed by validation: the required
    paths must be present, the values must cast, the defaults of the
    schema fill what is absent.  [None] is the error [save] throws. *)
Definition newDonation (env : Env) (b : Body.t) (st : Status)
  : option Donation.t :=
  match Body.donorName b, Body.categoryId b with
  | Some (String c n), Some cid =>
      match castObjectId cid, Body.date b with
      | None, _ => None
      | _, Body.DateUnparsable => None
      | Some cat, dt =>
          Some {| Donation._id := newId env;
                  Donation.donorName := String c n;
                  Donation.amount :=
                    match Body.amount b with
                    | None => Some 0%Z
                    | Some a => a
                    end;
                  Donation.date :=
                    match dt with
                    | Body.DateAbsent => DateISO (now env)
                    | Body.DateGiven ms => DateISO ms
                    | _ => DateNull
                    end;
                  Donation.categoryId := RefId cat;
                  Donation.notes :=
                    match Body.notes b with
                    | Some s => s
                    | None => ""
                    end;
                  Donation.status := st |}
      end
  | _, _ => None
  end.

Definition saveDonation (env : Env) (req : Request) (status : Status)
    (st : State) : State * Response :=
  match newDonation env (body req) status with
  | None => (st, respond 400 (ErrorMessage ValidationError))
  | Some d =>
      let st1 := withDonations (donations st ++ [d])%list st in
      (createLog req "ADD" "DONATION" (Some (hexString (Donation._id d))) st1,
       respond 201 (DonationJson (populate (categories st) d)))
  end.

(** [app.post('/api/donations')]. *)
Definition createDonation (env : Env) (req : Request) (st : State)
  : State * Response :=
  let userType := headerOr (xUserType req) "admin" in
  if String.eqb userType "subadmin" then
    if amountFalsy (Body.amount (body req)) || dateFalsy (Body.date (body req))
    then (st, respond 400
                (Message "Amount and Date are required for Sub-admins"))
    else saveDonation env req pending st
  else saveDonation env req approved st.

(** The update [findByIdAndUpdate(id, req.body)] applies: every field the
    body carries is set after casting; validators do not run.  [None] is
    a [CastError]. *)
Definition castPatch (b : Body.t) : option (Donation.t -> Donation.t) :=
  let cat :=
    match Body.categoryId b with
    | None => Some None
    | Some s =>
        match castObjectId s with
        | Some i => Some (Some i)
        | None => None
        end
    end in
  match cat, Body.date b with
  | None, _ => None
  | _, Body.DateUnparsable => None
  | Some newCat, dt =>
      Some (fun d =>
        {| Donation._id := Donation._id d;
           Donation.donorName :=
             match Body.donorName b with
             | Some n => n
             | None => Donation.donorName d
             end;
           Donation.amount :=
             match Body.amount b with
             | Some a => a
             | None => Donation.amount d
             end;
           Donation.date :=
             match dt with
             | Body.DateAbsent => Donation.date d
             | Body.DateGiven ms => DateISO ms
             | _ => DateNull
             end;
           Donation.categoryId :=
             match newCat with
             | Some i => RefId i
             | None => Donation.categoryId d
             end;
           Donation.notes :=
             match Body.notes b with
             | Some s => s
             | None => Donation.notes d
             end;
           Donation.status :=
             match Body.status b with
             | Some s => s
             | None => Donation.status d
             end |})
  end.

(** [app.put('/api/donations/:id')]. *)
Definition updateDonation (idParam : string) (req : Request) (st : State)
  : State * Response :=
  match castObjectId idParam, castPatch (body req) with
  | None, _ | _, None => (st, respond 400 (ErrorMessage CastError))
  | Some i, Some f =>
      match findDonation i (donations st) with
      | None => (st, respond 404 (Message "Donation not found"))
      | Some oldDonation =>
          let st1 :=
            withDonations (updateDonationById i f (donations st)) st in
          (createLog req "EDIT" "DONATION" (Some (hexString i)) st1,
           respond 200
             (DonationJson (populate (categories st) (f oldDonation))))
      end
  end.

Definition setStatus (s : Status) (d : Donation.t) : Donation.t :=
  {| Donation._id := Donation._id d;
     Donation.donorName := Donation.donorName d;
     Donation.amount := Donation.amount d;
     Donation.date := Donation.date d;
     Donation.categoryId := Donation.categoryId d;
     Donation.notes := Donation.notes d;
     Donation.status := s |}.

(** [app.put('/api/donations/:id/approve')]. *)
Definition approveDonation (idParam : string) (req : Request) (st : State)
  : State * Response :=
  match castObjectId idParam with
  | None => (st, respond 400 (ErrorMessage CastError))
  | Some i =>
      match findDonation i (donations st) with
      | None => (st, respond 404 (Message "Donation not found"))
      | Some d =>
          let st1 :=
            withDonations
              (updateDonationById i (setStatus approved) (donations st)) st in
          (createLog req "APPROVE" "DONATION" (Some (hexString i)) st1,
           respond 200
             (DonationJson (populate (categories st) (setStatus approved d))))
      end
  end.

(** [app.delete('/api/donations/:id')]. *)
Definition deleteDonation (idParam : string) (req : Request) (st : State)
  : State * Response :=
  match castObjectId idParam with
  | None => (st, respond 500 (ErrorMessage CastError))
  | Some i =>
      match findDonation i (donations st) with
      | None => (st, respond 404 (Message "Donation not found"))
      | Some d =>
          let st1 := createLog req "DELETE" "DONATION"
                       (Some (hexString (Donation._id d))) st in
          (withDonations (removeDonationById i (donations st1)) st1,
           respond 200 (Message "Donation deleted"))
      end
  end.

(** [app.get('/api/categories')]. *)
Definition listCategories (st : State) : State * Response :=
  (st, respond 200 (CategoryList (sortByOrder (categories st)))).

(** The greatest order key in the collection, if there is a category. *)
Fixpoint maxOrder (l : list Category.t) : option Z :=
  match l with
  | [] => None
  | c :: rest =>
      match maxOrder rest with
      | None => Some (Category.order c)
      | Some m => Some (Z.max (Category.order c) m)
      end
  end.

(** [app.post('/api/categories')]: the new order key is
    [(maxOrder?.order || 0) + 1]. *)
Definition createCategory (env : Env) (req : Request) (st : State)
  : State * Response :=
  match Body.name (body req) with
  | Some (String c n) =>
      let category :=
        {| Category._id := newId env;
           Category.name := String c n;
           Category.order :=
             JS.add (match maxOrder (categories st) with
                     | Some m => m
                     | None => 0%Z
                     end) 1 |} in
      let st1 := withCategories (categories st ++ [category])%list st in
      (createLog req "ADD" "CATEGORY"
         (Some (hexString (Category._id category))) st1,
       respond 201 (CategoryJson category))
  | _ => (st, respond 400 (ErrorMessage ValidationError))
  end.

Definition patchCategory (b : Body.t) (c : Category.t) : Category.t :=
  {| Category._id := Category._id c;
     Category.name :=
       match Body.name b with
       | Some n => n
       | None => Category.name c
       end;
     Category.order :=
       match Body.order b with
       | Some o => o
       | None => Category.order c
       end |}.

(** [app.put('/api/categories/:id')]. *)
Definition updateCategory (idParam : string) (req : Request) (st : State)
  : State * Response :=
  match castObjectId idParam with
  | None => (st, respond 400 (ErrorMessage CastError))
  | Some i =>
      match findCategory i (categories st) with
      | None => (st, respond 404 (Message "Category not found"))
      | Some oldCategory =>
          let f := patchCategory (body req) in
          let st1 :=
            withCategories (updateCategoryById i f (categories st)) st in
          (createLog req "EDIT" "CATEGORY" (Some (hexString i)) st1,
           respond 200 (CategoryJson (f oldCategory)))
      end
  end.

(** [app.delete('/api/categories/:id')]. *)
Definition deleteCategory (idParam : string) (req : Request) (st : State)
  : State * Response :=
  match castObjectId idParam with
  | None => (st, respond 500 (ErrorMessage CastError))
  | Some i =>
      let donationCount :=
        length (filter (fun d => inCategory (hexString i)
                                   (Donation.categoryId d))
                       (donations st)) in
      if (0 <? donationCount)%nat
      then (st, respond 400 (CannotDelete donationCount))
      else
        match findCategory i (categories st) with
        | None => (st, respond 404 (Message "Category not found"))
        | Some c =>
            let st1 := createLog req "DELETE" "CATEGORY"
                         (Some (hexString (Category._id c))) st in
            (withCategories (removeCategoryById i (categories st1)) st1,
             respond 200 (Message "Category deleted"))
        end
  end.

(** The loop of the batch-reorder handler: the assignments are applied
    one after the other; an id that does not cast stops the loop with
    the earlier assignments in place ([false]). *)
Fixpoint applyOrders (orders : list Body.OrderItem) (cats : list Category.t)
  : list Category.t * bool :=
  match orders with
  | [] => (cats, true)
  | item :: rest =>
      match castObjectId (Body.id item) with
      | None => (cats, false)
      | Some i =>
          applyOrders rest
            (updateCategoryById i (setOrder (Body.newOrder item)) cats)
      end
  end.

(** [app.put('/api/categories/reorder')]. *)
Definition reorderCategories (req : Request) (st : State)
  : State * Response :=
  match Body.orders (body req) with
  | None => (st, respond 400 (ErrorMessage TypeError))
  | Some orders =>
      let (cats, ok) := applyOrders orders (categories st) in
      if ok
      then (withCategories cats st,
            respond 200 (CategoryList (sortByOrder cats)))
      else (withCategories cats st, respond 400 (ErrorMessage CastError))
  end.

(** The application: the handler of the route [dispatch] selects.  [None]
    stands for a request outside this model (a route whose handler is not
    embedded, or no route at all). *)
Definition serve (env : Env) (req : Request) (st : State)
  : option (State * Response) :=
  match dispatch (method req) (path req) with
  | Some (CreateDonation, _) => Some (createDonation env req st)
  | Some (UpdateDonation, ps) => Some (updateDonation (paramId ps) req st)
  | Some (ApproveDonation, ps) => Some (approveDonation (paramId ps) req st)
  | Some (DeleteDonation, ps) => Some (deleteDonation (paramId ps) req st)
  | Some (ListCategories, _) => Some (listCategories st)
  | Some (CreateCategory, _) => Some (createCategory env req st)
  | Some (UpdateCategory, ps) => Some (updateCategory (paramId ps) req st)
  | Some (DeleteCategory, ps) => Some (deleteCategory (paramId ps) req st)
  | Some (ReorderCategories, _) => Some (reorderCategories req st)
  | Some (Other _, _) => None
  | None => None
  end.

(** *** The front end's calls

    [apiPut] and its siblings send the JSON body and a content type, no
    [x-user] headers. *)
Definition apiRequest (m : Method) (p : list string) (b : Body.t)
  : Request :=
  {| method := m; path := p; xUser := None; xUserType := None; body := b |}.

(** [arr.findIndex(p)], counting from [i]; [None] is [-1]. *)
Fixpoint findIndexFrom {A : Type} (p : A -> bool) (i : nat) (l : list A)
  : option nat :=
  match l with
  | [] => None
  | x :: rest => if p x then Some i else findIndexFrom p (S i) rest
  end.

Definition findIndex {A : Type} (p : A -> bool) (l : list A) : option nat :=
  findIndexFrom p 0 l.

Definition hasId (id : string) (c : Category.t) : bool :=
  String.eqb (hexString (Category._id c)) id.

Definition swapOf (c other : Category.t) : list Body.OrderItem :=
  [ Body.mkItem (hexString (Category._id c)) (Category.order other);
    Body.mkItem (hexString (Category._id other)) (Category.order c) ].

(** The [orders] array [moveCategoryUp] builds; [None] when it returns
    before sending anything ([index <= 0]). *)
Definition moveCategoryUpOrders (categoriesCache : list Category.t)
    (id : string) : option (list Body.OrderItem) :=
  let sortedCategories := sortByOrder categoriesCache in
  match findIndex (hasId id) sortedCategories with
  | None | Some O => None
  | Some (S j) =>
      match nth_error sortedCategories (S j), nth_error sortedCategories j with
      | Some c, Some prev => Some (swapOf c prev)
      | _, _ => None
      end
  end.

(** The [orders] array [moveCategoryDown] builds; [None] when it returns
    early ([index >= length - 1]).  An id that is not in the list has
    index [-1], for which the function goes on and fails on
    [sortedCategories[-1]._id]: nothing is sent either. *)
Definition moveCategoryDownOrders (categoriesCache : list Category.t)
    (id : string) : option (list Body.OrderItem) :=
  let sortedCategories := sortByOrder categoriesCache in
  match findIndex (hasId id) sortedCategories with
  | None => None
  | Some j =>
      match nth_error sortedCategories j, nth_error sortedCategories (S j) with
      | Some c, Some next => Some (swapOf c next)
      | _, _ => None
      end
  end.

Definition reorderBody (orders : list Body.OrderItem) : Body.t :=
  {| Body.donorName := None; Body.amount := None;
     Body.date := Body.DateAbsent; Body.categoryId := None;
     Body.notes := None; Body.status := None; Body.name := None;
     Body.order := None; Body.orders := Some orders |}.

Definition reorderPath : list string := ["api"; "categories"; "reorder"].

(** The server state after the [apiPut('/api/categories/reorder', ...)] of
    a move. *)
Definition sendReorder (env : Env) (orders : option (list Body.OrderItem))
    (st : State) : State :=
  match orders with
  | None => st
  | Some os =>
      match serve env (apiRequest PUT reorderPath (reorderBody os)) st with
      | Some (st', _) => st'
      | None => st
      end
  end.

Definition moveCategoryUp (env : Env) (categoriesCache : list Category.t)
    (id : string) (st : State) : State :=
  sendReorder env (moveCategoryUpOrders categoriesCache id) st.

Definition moveCategoryDown (env : Env) (categoriesCache : list Category.t)
    (id : string) (st : State) : State :=
  sendReorder env (moveCategoryDownOrders categoriesCache id) st.

(** ** Properties of the server *)

Lemma lowerAscii_hex (c : ascii) : isHexDigit c = true -> JS.lowerAscii c = c.
Proof.
  destruct c as [[] [] [] [] [] [] [] []]; intros H;
    try reflexivity; discriminate H.
Qed.

Lemma asciiLowerCase_hex (s : string) :
  allHex s = true -> JS.asciiLowerCase s = s.
Proof.
  induction s as [| c s IH]; cbn; intros H; [reflexivity |].
  apply andb_true_iff in H as [Hc Hs].
  now rewrite (lowerAscii_hex c Hc), (IH Hs).
Qed.

Lemma asciiLowerCase_hexString (i : ObjectId) :
  JS.asciiLowerCase (hexString i) = hexString i.
Proof.
  apply asciiLowerCase_hex. pose proof (hexString_ok i) as H.
  unfold isObjectIdString in H. now apply andb_true_iff in H as [_ H].
Qed.

Lemma castObjectId_Some (s : string) (i : ObjectId) :
  castObjectId s = Some i -> hexString i = JS.asciiLowerCase s.
Proof.
  unfold castObjectId.
  destruct (bool_dec (isObjectIdString (JS.asciiLowerCase s)) true);
    [| discriminate].
  now intros [= <-].
Qed.

Lemma castObjectId_hexString (i : ObjectId) :
  exists i', castObjectId (hexString i) = Some i' /\
             hexString i' = hexString i.
Proof.
  unfold castObjectId.
  destruct (bool_dec (isObjectIdString (JS.asciiLowerCase (hexString i))) true)
    as [H | H].
  - eexists. split; [reflexivity |]. apply asciiLowerCase_hexString.
  - exfalso. apply H. rewrite asciiLowerCase_hexString. apply hexString_ok.
Qed.

Lemma castObjectId_reorder : castObjectId "reorder" = None.
Proof. reflexivity. Qed.

(** Whatever matches the literal route [/api/categories/reorder] matches
    the parameter route [/api/categories/:id]. *)
Lemma reorder_path_is_an_id_path (p : list string) :
  pathMatches [Lit "api"; Lit "categories"; Lit "reorder"] p = true ->
  pathMatches [Lit "api"; Lit "categories"; Param "id"] p = true.
Proof.
  destruct p as [| a [| b [| c [| d p]]]]; cbn [pathMatches]; intros H;
    try discriminate H; rewrite ?andb_false_r in H; try discriminate H.
  apply andb_true_iff in H as [Ha H].
  apply andb_true_iff in H as [Hb _]. now rewrite Ha, Hb.
Qed.

(** C10.  A PUT to [/api/categories/reorder] is dispatched to the
    update-category handler with [id = "reorder"]; no request at all
    reaches the batch-reorder handler; the request fails on the id and
    leaves the stored state as it was; hence the moves of the front end
    never change the server's categories. *)
Theorem reorder_route_is_shadowed :
  dispatch PUT reorderPath = Some (UpdateCategory, [("id", "reorder")]) /\
  (forall m p ps, dispatch m p <> Some (ReorderCategories, ps)) /\
  (forall env req st,
     method req = PUT -> path req = reorderPath ->
     serve env req st
       = Some (updateCategory "reorder" req st) /\
     updateCategory "reorder" req st
       = (st, respond 400 (ErrorMessage CastError)) /\
     responseOk (snd (updateCategory "reorder" req st)) = false) /\
  (forall env categoriesCache id st,
     moveCategoryUp env categoriesCache id st = st /\
     moveCategoryDown env categoriesCache id st = st).
Proof.
  assert (Hd : dispatch PUT reorderPath
               = Some (UpdateCategory, [("id", "reorder")]))
    by reflexivity.
  assert (Hu : forall req st,
            updateCategory "reorder" req st
              = (st, respond 400 (ErrorMessage CastError))).
  { intros req st. unfold updateCategory.
    now rewrite castObjectId_reorder. }
  assert (Hs : forall env os st,
            sendReorder env os st = st).
  { intros env [os |] st; [| reflexivity].
    unfold sendReorder, serve, apiRequest. cbn [method path].
    rewrite Hd. cbn [paramId]. now rewrite Hu. }
  split; [exact Hd | split; [| split]].
  - intros m p ps H. unfold dispatch, routes in H.
    cbn [dispatchIn] in H.
    destruct m; cbn [sameMethod andb] in H;
      repeat match type of H with
             | (if ?c then _ else _) = _ =>
                 let E := fresh "E" in
                 destruct c eqn:E; [try discriminate H |]
             end; try discriminate H.
    match goal with
    | Ht : pathMatches [Lit "api"; Lit "categories"; Lit "reorder"] p = true
      |- _ => apply reorder_path_is_an_id_path in Ht; congruence
    end.
  - intros env req st Hm Hp. unfold serve. rewrite Hm, Hp, Hd.
    cbn [paramId]. rewrite Hu. repeat split; reflexivity.
  - intros env cache id st. unfold moveCategoryUp, moveCategoryDown.
    now rewrite !Hs.
Qed.

Lemma createLog_donations (req : Request) (a e : string)
    (i : option string) (st : State) :
  donations (createLog req a e i st) = donations st.
Proof.
  unfold createLog. now destruct (parseUserType _).
Qed.

Lemma createLog_categories (req : Request) (a e : string)
    (i : option string) (st : State) :
  categories (createLog req a e i st) = categories st.
Proof.
  unfold createLog. now destruct (parseUserType _).
Qed.

Lemma newDonation_status (env : Env) (b : Body.t) (s : Status)
    (d : Donation.t) :
  newDonation env b s = Some d ->
  Donation.status d = s /\
  Donation.amount d
    = match Body.amount b with None => Some 0%Z | Some a => a end /\
  Donation.date d
    = match Body.date b with
      | Body.DateAbsent => DateISO (now env)
      | Body.DateGiven ms => DateISO ms
      | _ => DateNull
      end /\
  Body.date b <> Body.DateUnparsable.
Proof.
  unfold newDonation.
  destruct (Body.donorName b) as [[| c n] |]; try discriminate.
  destruct (Body.categoryId b) as [cid |]; try discriminate.
  destruct (castObjectId cid) as [cat |]; try discriminate.
  destruct (Body.date b); try discriminate; intros [= <-];
    repeat split; discriminate.
Qed.

Lemma headerOr_subadmin (h : option string) :
  headerOr h "admin" = "subadmin" <-> h = Some "subadmin".
Proof.
  destruct h as [[| c s] |]; cbn; split; intros H;
    try discriminate H; congruence.
Qed.

(** A store with one category and nothing else. *)
Definition emptyStore : State :=
  {| donations := []; categories := [category1]; subAdmins := [];
     logs := [] |}.

(** The body of a donation of Sita to category 1, with the amount and
    the date as given. *)
Definition sitaGives (a : option (option Z)) (dt : Body.DateField)
  : Body.t :=
  {| Body.donorName := Some "Sita"; Body.amount := a; Body.date := dt;
     Body.categoryId := Some "65a4f0c2b7e1d9a3c5f00001";
     Body.notes := Some "puja"; Body.status := None; Body.name := None;
     Body.order := None; Body.orders := None |}.

(** [POST /api/donations] with the headers of the sub-admin ravi. *)
Definition postedByRavi (b : Body.t) : Request :=
  {| method := POST; path := ["api"; "donations"];
     xUser := Some "ravi"; xUserType := Some "subadmin"; body := b |}.

(** The same request with the headers of the admin. *)
Definition postedByAdmin (b : Body.t) : Request :=
  {| method := POST; path := ["api"; "donations"];
     xUser := Some "admin"; xUserType := Some "admin"; body := b |}.

Definition sitaDonation (s : Status) : Donation.t :=
  {| Donation._id := oid4; Donation.donorName := "Sita";
     Donation.amount := Some 251%Z; Donation.date := DateISO 1705363200000;
     Donation.categoryId := RefId oid1; Donation.notes := "puja";
     Donation.status := s |}.

(** C8.  On [POST /api/donations] a request whose [x-user-type] header is
    [subadmin] is answered 400 with the message "Amount and Date are
    required for Sub-admins", nothing being stored or logged, when the
    amount or the date is missing (absent, null, or the falsy 0 and empty
    string); when the request is accepted the record it creates is
    pending for a sub-admin, with an amount and a date, and approved for
    any other sender; a request that is not answered 201 leaves the state
    as it was; complete requests are accepted.  Through the router: the
    sub-admin ravi without an amount, or without a date, is refused; with
    both, his donation is stored pending and logged under his name; the
    admin's is stored approved. *)
Theorem subadmin_donation_rules :
  (forall env req st,
     xUserType req = Some "subadmin" ->
     Body.amount (body req) = None \/
     Body.amount (body req) = Some None \/
     Body.amount (body req) = Some (Some 0%Z) \/
     Body.date (body req) = Body.DateAbsent \/
     Body.date (body req) = Body.DateIsNull \/
     Body.date (body req) = Body.DateEmpty ->
     createDonation env req st
       = (st, respond 400
                (Message "Amount and Date are required for Sub-admins"))) /\
  (forall env req st,
     statusCode (snd (createDonation env req st)) = 201%nat ->
     exists d,
       donations (fst (createDonation env req st))
         = (donations st ++ [d])%list /\
       (xUserType req = Some "subadmin" ->
          Donation.status d = pending /\
          (exists a, Donation.amount d = Some a /\ a <> 0%Z) /\
          (exists ms, Donation.date d = DateISO ms)) /\
       (xUserType req <> Some "subadmin" ->
          Donation.status d = approved)) /\
  (forall env req st,
     statusCode (snd (createDonation env req st)) <> 201%nat ->
     fst (createDonation env req st) = st) /\
  (forall env req st c n cat a ms,
     Body.donorName (body req) = Some (String c n) ->
     Body.categoryId (body req) = Some (hexString cat) ->
     Body.amount (body req) = Some (Some a) -> a <> 0%Z ->
     Body.date (body req) = Body.DateGiven ms ->
     statusCode (snd (createDonation env req st)) = 201%nat) /\
  (forall env,
     serve env (postedByRavi (sitaGives None (Body.DateGiven 1705363200000)))
           emptyStore
       = Some (emptyStore,
               respond 400
                 (Message "Amount and Date are required for Sub-admins")) /\
     serve env (postedByRavi (sitaGives (Some (Some 251%Z)) Body.DateIsNull))
           emptyStore
       = Some (emptyStore,
               respond 400
                 (Message "Amount and Date are required for Sub-admins"))) /\
  (forall t,
     serve {| newId := oid4; now := t |}
           (postedByRavi (sitaGives (Some (Some 251%Z))
                            (Body.DateGiven 1705363200000)))
           emptyStore
       = Some ({| donations := [sitaDonation pending];
                  categories := [category1]; subAdmins := [];
                  logs := [ {| action := "ADD"; entity := "DONATION";
                               entityId := Some "65a4f0c2b7e1d9a3c5f00004";
                               user := "ravi"; userType := subadmin |} ] |},
               respond 201
                 (DonationJson
                    {| Donation._id := oid4; Donation.donorName := "Sita";
                       Donation.amount := Some 251%Z;
                       Donation.date := DateISO 1705363200000;
                       Donation.categoryId := RefDoc category1;
                       Donation.notes := "puja";
                       Donation.status := pending |})) /\
     donations
       (fst (createDonation {| newId := oid4; now := t |}
               (postedByAdmin (sitaGives (Some (Some 251%Z))
                                 (Body.DateGiven 1705363200000)))
               emptyStore))
       = [sitaDonation approved] /\
     donations
       (fst (createDonation {| newId := oid4; now := t |}
               (postedByAdmin (sitaGives None Body.DateIsNull))
               emptyStore))
       = [ {| Donation._id := oid4; Donation.donorName := "Sita";
              Donation.amount := Some 0%Z; Donation.date := DateNull;
              Donation.categoryId := RefId oid1; Donation.notes := "puja";
              Donation.status := approved |} ]).
Proof.
  split; [| split; [| split; [| split; [| split]]]].
  - intros env req st Hs Hf. unfold createDonation.
    apply headerOr_subadmin in Hs. rewrite Hs.
    replace ("subadmin" =? "subadmin") with true by reflexivity.
    destruct Hf as [-> | [-> | [-> | [-> | [-> | ->]]]]];
      try reflexivity; now rewrite orb_true_r.
  - intros env req st. unfold createDonation, saveDonation.
    destruct (headerOr (xUserType req) "admin" =? "subadmin") eqn:Es.
    + destruct (amountFalsy (Body.amount (body req))) eqn:Ea;
        [cbn; discriminate |].
      destruct (dateFalsy (Body.date (body req))) eqn:Ed;
        [cbn; discriminate |].
      cbn [orb].
      destruct (newDonation env (body req) pending) as [d |] eqn:En;
        [| cbn; discriminate].
      intros _. exists d. cbn [fst]. rewrite createLog_donations.
      split; [reflexivity | split].
      * intros _.
        apply newDonation_status in En as (Hst & Ham & Hdt & Hok).
        split; [assumption | split].
        -- rewrite Ham. unfold amountFalsy in Ea.
           destruct (Body.amount (body req)) as [[a |] |];
             try discriminate Ea.
           exists a. split; [reflexivity |].
           now apply Z.eqb_neq.
        -- rewrite Hdt. unfold dateFalsy in Ed.
           destruct (Body.date (body req)); try discriminate Ed.
           ++ now contradiction Hok.
           ++ eexists; reflexivity.
      * intros Hn. apply String.eqb_eq, headerOr_subadmin in Es.
        contradiction.
    + destruct (newDonation env (body req) approved) as [d |] eqn:En;
        [| cbn; discriminate].
      intros _. exists d. cbn [fst]. rewrite createLog_donations.
      split; [reflexivity | split].
      * intros Hs. apply headerOr_subadmin in Hs.
        apply String.eqb_neq in Es. contradiction.
      * intros _. now apply newDonation_status in En.
  - intros env req st. unfold createDonation, saveDonation.
    destruct (headerOr (xUserType req) "admin" =? "subadmin").
    + destruct (amountFalsy _ || dateFalsy _); [reflexivity |].
      destruct (newDonation env (body req) pending);
        [cbn; intros H; now contradiction H | reflexivity].
    + destruct (newDonation env (body req) approved);
        [cbn; intros H; now contradiction H | reflexivity].
  - intros env req st c n cat a ms Hn Hc Ha Hnz Hd.
    assert (Hnew : forall s, exists d, newDonation env (body req) s = Some d).
    { intros s. unfold newDonation. rewrite Hn, Hc, Hd.
      destruct (castObjectId_hexString cat) as (i' & -> & _).
      eexists; reflexivity. }
    unfold createDonation, saveDonation. rewrite Ha, Hd.
    replace (amountFalsy (Some (Some a))) with false
      by (symmetry; now apply Z.eqb_neq).
    cbn [dateFalsy orb].
    destruct (headerOr (xUserType req) "admin" =? "subadmin").
    + destruct (Hnew pending) as [d ->]. reflexivity.
    + destruct (Hnew approved) as [d ->]. reflexivity.
  - intros env. split; reflexivity.
  - intros t. repeat split; now vm_compute.
Qed.

(** *** Edit and approve *)




(** The status of the stored donation with id [i], if there is one. *)
Definition statusOf (i : ObjectId) (st : State) : option Status :=
  option_map Donation.status (findDonation i (donations st)).


Lemma sameId_true (a b : ObjectId) :
  sameId a b = true <-> hexString a = hexString b.
Proof. apply String.eqb_eq. Qed.

Lemma findDonation_update (i j : ObjectId) (f : Donation.t -> Donation.t)
    (l : list Donation.t) :
  (forall d, Donation._id (f d) = Donation._id d) ->
  findDonation i (updateDonationById j f l) =
  option_map (fun d => if sameId (Donation._id d) j then f d else d)
             (findDonation i l).
Proof.
  intros Hid. unfold findDonation.
  induction l as [| d l IH]; [reflexivity |].
  cbn [updateDonationById find].
  destruct (sameId (Donation._id d) j) eqn:Ej.
  - cbn [find]. rewrite Hid.
    destruct (sameId (Donation._id d) i) eqn:Ei.
    + cbn. now rewrite Ej.
    + destruct (find _ l) as [d' |] eqn:Ef; [| reflexivity].
      cbn. apply find_some in Ef as [_ Ef].
      destruct (sameId (Donation._id d') j) eqn:Ej'; [| reflexivity].
      apply sameId_true in Ej, Ej', Ef.
      assert (Hc : sameId (Donation._id d) i = true)
        by (apply sameId_true; congruence).
      congruence.
  - cbn [find]. destruct (sameId (Donation._id d) i) eqn:Ei.
    + cbn. now rewrite Ej.
    + exact IH.
Qed.

Lemma castPatch_fields (b : Body.t) (f : Donation.t -> Donation.t) :
  castPatch b = Some f ->
  forall d,
    Donation._id (f d) = Donation._id d /\
    Donation.status (f d)
      = match Body.status b with Some s => s | None => Donation.status d end.
Proof.
  unfold castPatch.
  destruct (Body.categoryId b) as [s |].
  - destruct (castObjectId s); [| discriminate].
    destruct (Body.date b); try discriminate; intros [= <-] d; now split.
  - destruct (Body.date b); try discriminate; intros [= <-] d; now split.
Qed.



Definition ravi : SubAdminAccount :=
  {| accountName := "ravi";
     accountPermissions :=
       {| canAddDonation := false; canEditDonation := false;
          canDeleteDonation := false; canManageCategory := false;
          assignedCategories := [] |} |}.

(** A store with one approved donation, one category and the sub-admin
    [ravi], none of whose permission flags is set. *)
Definition store0 : State :=
  {| donations :=
       [ {| Donation._id := oid2; Donation.donorName := "Ram";
            Donation.amount := Some 500%Z;
            Donation.date := DateISO 1705276800000;
            Donation.categoryId := RefId oid1; Donation.notes := "";
            Donation.status := approved |} ];
     categories := [category1];
     subAdmins := [ravi];
     logs := [] |}.





(** *** Requests and permissions *)

(** The [user] object the login route returns for a sub-admin account. *)
Definition loginUser (a : SubAdminAccount) : User :=
  {| type := subadmin; username := accountName a;
     permissions := Some (accountPermissions a) |}.

Definition withSubAdmins (l : list SubAdminAccount) (st : State) : State :=
  {| donations := donations st; categories := categories st;
     subAdmins := l; logs := logs st |}.

Definition raviDeletes : Request :=
  {| method := DELETE; path := ["api"; "donations"; hexString oid2];
     xUser := Some "ravi"; xUserType := Some "subadmin";
     body := Body.empty |}.

(** C2 as stated fails: the sub-admin [ravi] is denied the deletion by
    the evaluator, yet the delete request that names him removes the
    donation and is logged; the same request without any actor header
    (no actor at all is denied too) does the same. *)
Lemma denied_delete_is_carried_out :
  In ravi (subAdmins store0) /\
  canUserDelete (Some (loginUser ravi)) = false /\
  canUserDelete None = false /\
  xUser raviDeletes = Some (accountName ravi) /\
  dispatch (method raviDeletes) (path raviDeletes)
    = Some (DeleteDonation, [("id", hexString oid2)]) /\
  (exists st',
     serve {| newId := oid4; now := 0 |} raviDeletes store0
       = Some (st', respond 200 (Message "Donation deleted")) /\
     donations store0 <> donations st' /\
     donations st' = [] /\
     logs st' = [ {| action := "DELETE"; entity := "DONATION";
                     entityId := Some (hexString oid2);
                     user := "ravi"; userType := subadmin |} ]) /\
  (exists st',
     serve {| newId := oid4; now := 0 |}
           (apiRequest DELETE (path raviDeletes) Body.empty) store0
       = Some (st', respond 200 (Message "Donation deleted")) /\
     donations st' = [] /\
     length (logs st') = 1%nat).
Proof.
  split; [now left |].
  repeat (split; [reflexivity |]).
  split; eexists; (split; [vm_compute; reflexivity |]);
    repeat split; now vm_compute.
Qed.

Lemma createLog_withSubAdmins (req : Request) (a e : string)
    (i : option string) (l : list SubAdminAccount) (st : State) :
  createLog req a e i (withSubAdmins l st)
    = withSubAdmins l (createLog req a e i st).
Proof.
  unfold createLog. now destruct (parseUserType _).
Qed.

Lemma withDonations_withSubAdmins (l : list Donation.t)
    (a : list SubAdminAccount) (st : State) :
  withDonations l (withSubAdmins a st) = withSubAdmins a (withDonations l st).
Proof. reflexivity. Qed.

Lemma withCategories_withSubAdmins (l : list Category.t)
    (a : list SubAdminAccount) (st : State) :
  withCategories l (withSubAdmins a st)
    = withSubAdmins a (withCategories l st).
Proof. reflexivity. Qed.

Ltac split_scrutinee :=
  match goal with
  | |- context [match ?x with _ => _ end] => destruct x
  end.

(** C2, as the code has it.  No handler consults the permission
    evaluator or reads the stored permission sets: what a request does to
    the donations, the categories and the log, and its response, do not
    depend on them.  A delete request for a stored donation removes it
    and appends one DELETE entry, whoever sends it. *)
Theorem mutations_ignore_permissions :
  (forall env req st accounts,
     serve env req (withSubAdmins accounts st)
       = option_map (fun r => (withSubAdmins accounts (fst r), snd r))
                    (serve env req st)) /\
  (forall idParam req st i d ut,
     castObjectId idParam = Some i ->
     findDonation i (donations st) = Some d ->
     parseUserType (headerOr (xUserType req) "admin") = Some ut ->
     deleteDonation idParam req st =
     ({| donations := removeDonationById i (donations st);
         categories := categories st;
         subAdmins := subAdmins st;
         logs := (logs st ++
                  [ {| action := "DELETE"; entity := "DONATION";
                       entityId := Some (hexString (Donation._id d));
                       user := headerOr (xUser req) "admin";
                       userType := ut |} ])%list |},
      respond 200 (Message "Donation deleted"))).
Proof.
  split.
  - intros env req st accounts. unfold serve.
    destruct (dispatch (method req) (path req)) as [[e ps] |];
      [| reflexivity].
    destruct e; cbn [option_map fst snd]; try reflexivity; f_equal;
      unfold createDonation, saveDonation, updateDonation, approveDonation,
        deleteDonation, listCategories, createCategory, updateCategory,
        deleteCategory, reorderCategories;
      cbn [withSubAdmins donations categories];
      repeat split_scrutinee; cbn [fst snd];
      rewrite ?withDonations_withSubAdmins, ?withCategories_withSubAdmins,
        ?createLog_withSubAdmins;
      reflexivity.
  - intros idParam req st i d ut Hc Hf Hu. unfold deleteDonation.
    rewrite Hc, Hf. unfold createLog. rewrite Hu. reflexivity.
Qed.

(** ** Category ordering

    The front end computes the two assignments of a move from the listing
    it loaded ([GET /api/categories]) and sends them to
    [/api/categories/reorder]. *)

Definition idOf (c : Category.t) : string := hexString (Category._id c).

(** [categoriesCache] after [loadAllData]: the payload of
    [listCategories]. *)
Definition loadedCategories (st : State) : list Category.t :=
  sortByOrder (categories st).

(** The exchange of the order keys of [x] and [y], applied to one
    document: [x] takes the key of [y], [y] that of [x], any other
    document is left alone. *)
Definition exchange (x y c : Category.t) : Category.t :=
  if hasId (idOf x) c then setOrder (Category.order y) c
  else if hasId (idOf y) c then setOrder (Category.order x) c
  else c.

(** Ascending with distinct keys. *)
Definition ascending (l : list Category.t) : Prop :=
  StronglySorted Z.lt (map Category.order l).

Lemma insertByOrder_perm (c : Category.t) (l : list Category.t) :
  Permutation (insertByOrder c l) (c :: l).
Proof.
  induction l as [| x l IH]; cbn; [reflexivity |].
  destruct (Category.order c <=? Category.order x)%Z; [reflexivity |].
  rewrite IH. apply perm_swap.
Qed.

Lemma sortByOrder_cons (x : Category.t) (l : list Category.t) :
  sortByOrder (x :: l) = insertByOrder x (sortByOrder l).
Proof. reflexivity. Qed.

Lemma sortByOrder_perm (l : list Category.t) :
  Permutation (sortByOrder l) l.
Proof.
  induction l as [| x l IH]; [reflexivity |].
  rewrite sortByOrder_cons, insertByOrder_perm. now apply perm_skip.
Qed.

Lemma insertByOrder_ascending (c : Category.t) (l : list Category.t) :
  ascending l -> ~ In (Category.order c) (map Category.order l) ->
  ascending (insertByOrder c l).
Proof.
  unfold ascending. induction l as [| x l IH]; cbn; intros Hs Hn.
  - repeat constructor.
  - apply StronglySorted_inv in Hs as [Hs Hall].
    destruct (Z.leb_spec (Category.order c) (Category.order x)) as [Hle | Hgt].
    + cbn. constructor; [constructor; assumption |].
      assert (Hlt : (Category.order c < Category.order x)%Z) by lia.
      constructor; [assumption |].
      eapply Forall_impl; [| exact Hall]. cbn. intros; lia.
    + cbn. constructor.
      * apply IH; [assumption | tauto].
      * eapply Permutation_Forall.
        -- apply Permutation_map. symmetry. apply insertByOrder_perm.
        -- cbn. constructor; [lia | assumption].
Qed.

Lemma sortByOrder_ascending (l : list Category.t) :
  NoDup (map Category.order l) -> ascending (sortByOrder l).
Proof.
  induction l as [| x l IH]; intros Hnd.
  - constructor.
  - rewrite sortByOrder_cons. cbn in Hnd.
    inversion Hnd as [| ? ? Hnotin Hnd']; subst.
    apply insertByOrder_ascending; [now apply IH |].
    intros Hin. apply Hnotin.
    eapply Permutation_in; [| exact Hin].
    apply Permutation_map, sortByOrder_perm.
Qed.

Lemma ascending_unique (l1 l2 : list Category.t) :
  ascending l1 -> ascending l2 -> Permutation l1 l2 -> l1 = l2.
Proof.
  unfold ascending. revert l2.
  induction l1 as [| x l1 IH]; intros l2 H1 H2 Hp.
  - apply Permutation_nil in Hp. now subst.
  - destruct l2 as [| y l2];
      [apply Permutation_sym, Permutation_nil in Hp; discriminate |].
    cbn in H1, H2.
    apply StronglySorted_inv in H1 as [H1 Hx].
    apply StronglySorted_inv in H2 as [H2 Hy].
    rewrite Forall_forall in Hx, Hy.
    assert (Hxy : x = y).
    { assert (Hin1 : In x (y :: l2))
        by (eapply Permutation_in; [exact Hp | now left]).
      assert (Hin2 : In y (x :: l1))
        by (eapply Permutation_in;
            [apply Permutation_sym; exact Hp | now left]).
      destruct Hin1 as [-> | Hin1]; [reflexivity |].
      destruct Hin2 as [-> | Hin2]; [reflexivity |].
      apply (in_map Category.order) in Hin1, Hin2.
      specialize (Hx _ Hin2). specialize (Hy _ Hin1). lia. }
    subst y. f_equal. apply IH; try assumption.
    now apply Permutation_cons_inv in Hp.
Qed.

Lemma sortByOrder_fixed (l : list Category.t) :
  ascending l -> sortByOrder l = l.
Proof.
  unfold ascending. induction l as [| x l IH]; intros Hs;
    [reflexivity |].
  cbn in Hs. apply StronglySorted_inv in Hs as [Hs Hx].
  rewrite sortByOrder_cons, (IH Hs).
  destruct l as [| y l]; [reflexivity |]. cbn in Hx |- *.
  inversion Hx as [| ? ? Hlt _]; subst.
  destruct (Z.leb_spec (Category.order x) (Category.order y));
    [reflexivity | lia].
Qed.

Lemma findIndexFrom_app {A : Type} (p : A -> bool) (i : nat)
    (l1 : list A) (b : A) (l2 : list A) :
  (forall x, In x l1 -> p x = false) -> p b = true ->
  findIndexFrom p i (l1 ++ b :: l2) = Some (i + length l1)%nat.
Proof.
  revert i. induction l1 as [| a l1 IH]; intros i Hn Hb; cbn.
  - now rewrite Hb, Nat.add_0_r.
  - rewrite (Hn a) by now left.
    rewrite IH by (intros; try apply Hn; auto; now right).
    f_equal. lia.
Qed.

Lemma nth_error_middle {A : Type} (l1 : list A) (x : A) (l2 : list A) :
  nth_error (l1 ++ x :: l2) (length l1) = Some x.
Proof.
  induction l1 as [| a l1 IH]; cbn; [reflexivity | exact IH].
Qed.

Lemma hasId_true (x c : Category.t) :
  hasId (idOf x) c = true <-> idOf c = idOf x.
Proof. apply String.eqb_eq. Qed.

Lemma hasId_false (x c : Category.t) :
  hasId (idOf x) c = false <-> idOf c <> idOf x.
Proof. apply String.eqb_neq. Qed.

Lemma updateCategoryById_map (i : ObjectId) (f : Category.t -> Category.t)
    (l : list Category.t) :
  NoDup (map idOf l) ->
  updateCategoryById i f l
    = map (fun c => if hasId (hexString i) c then f c else c) l.
Proof.
  induction l as [| c l IH]; cbn; intros Hnd; [reflexivity |].
  inversion Hnd as [| ? ? Hnotin Hnd']; subst.
  change (sameId (Category._id c) i) with (hasId (hexString i) c).
  destruct (hasId (hexString i) c) eqn:E.
  - f_equal. rewrite <- (map_id l) at 1. apply map_ext_in.
    intros c' Hin. destruct (hasId (hexString i) c') eqn:E'; [| reflexivity].
    exfalso. apply Hnotin.
    apply String.eqb_eq in E, E'. fold (idOf c) in E. fold (idOf c') in E'.
    rewrite E, <- E'. now apply in_map.
  - f_equal. now apply IH.
Qed.

Lemma exchange_idOf (x y c : Category.t) : idOf (exchange x y c) = idOf c.
Proof.
  unfold exchange. now destruct (hasId (idOf x) c), (hasId (idOf y) c).
Qed.

Lemma map_exchange_ids (x y : Category.t) (l : list Category.t) :
  map idOf (map (exchange x y) l) = map idOf l.
Proof.
  rewrite map_map. apply map_ext. intros c. apply exchange_idOf.
Qed.

(** The two assignments of a swap, applied one after the other, are the
    exchange. *)
Lemma applyOrders_swap (x y : Category.t) (cats : list Category.t) :
  NoDup (map idOf cats) -> idOf x <> idOf y ->
  applyOrders (swapOf x y) cats = (map (exchange x y) cats, true).
Proof.
  intros Hnd Hne. unfold swapOf. cbn [applyOrders Body.id Body.newOrder].
  destruct (castObjectId_hexString (Category._id x)) as (i & -> & Hi).
  destruct (castObjectId_hexString (Category._id y)) as (j & -> & Hj).
  fold (idOf x) in Hi. fold (idOf y) in Hj.
  rewrite (updateCategoryById_map i) by assumption.
  rewrite (updateCategoryById_map j).
  - rewrite map_map, Hi, Hj. f_equal. apply map_ext. intros c.
    unfold exchange. destruct (hasId (idOf x) c) eqn:Ex.
    + replace (hasId (idOf y) (setOrder (Category.order y) c)) with false;
        [reflexivity |].
      symmetry. apply hasId_true in Ex.
      apply String.eqb_neq. cbn. fold (idOf c). congruence.
    + reflexivity.
  - rewrite map_map.
    erewrite map_ext; [exact Hnd |].
    intros c. cbn. now destruct (hasId (hexString i) c).
Qed.

Lemma ids_apart (l1 : list Category.t) (a b : Category.t)
    (l2 : list Category.t) :
  NoDup (map idOf (l1 ++ a :: b :: l2)) ->
  idOf a <> idOf b /\
  forall c, In c l1 \/ In c l2 -> idOf c <> idOf a /\ idOf c <> idOf b.
Proof.
  rewrite map_app. cbn [map]. intros H.
  pose proof (NoDup_remove_2 _ _ _ H) as Ha.
  pose proof (NoDup_remove_2 _ _ _ (NoDup_remove_1 _ _ _ H)) as Hb.
  split.
  - intros E. apply Ha. apply in_or_app. right. left. now symmetry.
  - intros c Hc. split; intros E.
    + apply Ha. rewrite <- E. apply in_or_app.
      destruct Hc as [Hc | Hc];
        [left | right; right]; now apply in_map.
    + apply Hb. rewrite <- E. apply in_or_app.
      destruct Hc as [Hc | Hc]; [left | right]; now apply in_map.
Qed.

Lemma exchange_elsewhere (x y : Category.t) (l : list Category.t) :
  (forall c, In c l -> idOf c <> idOf x /\ idOf c <> idOf y) ->
  map (exchange x y) l = l.
Proof.
  intros H. rewrite <- (map_id l) at 2. apply map_ext_in. intros c Hin.
  destruct (H c Hin) as [Hx Hy]. unfold exchange.
  apply hasId_false in Hx, Hy. now rewrite Hx, Hy.
Qed.

Lemma exchange_listing (l1 : list Category.t) (a b : Category.t)
    (l2 : list Category.t) :
  NoDup (map idOf (l1 ++ a :: b :: l2)) ->
  map (exchange b a) (l1 ++ a :: b :: l2)
    = (l1 ++ setOrder (Category.order b) a
          :: setOrder (Category.order a) b :: l2)%list.
Proof.
  intros Hnd. destruct (ids_apart _ _ _ _ Hnd) as [Hab Hrest].
  rewrite map_app. cbn [map].
  rewrite !exchange_elsewhere by (intros c Hc; split; apply Hrest; auto).
  f_equal. unfold exchange.
  assert (E1 : hasId (idOf b) a = false) by now apply hasId_false.
  assert (E2 : hasId (idOf a) a = true) by now apply hasId_true.
  assert (E3 : hasId (idOf b) b = true) by now apply hasId_true.
  now rewrite E1, E2, E3.
Qed.

Lemma orders_up (l1 : list Category.t) (a b : Category.t)
    (l2 : list Category.t) :
  ascending (l1 ++ a :: b :: l2) ->
  NoDup (map idOf (l1 ++ a :: b :: l2)) ->
  moveCategoryUpOrders (l1 ++ a :: b :: l2) (idOf b) = Some (swapOf b a).
Proof.
  intros Hasc Hnd. unfold moveCategoryUpOrders.
  rewrite (sortByOrder_fixed _ Hasc).
  destruct (ids_apart _ _ _ _ Hnd) as [Hab Hrest].
  replace (l1 ++ a :: b :: l2)%list with ((l1 ++ [a]) ++ b :: l2)%list
    by (now rewrite <- app_assoc).
  unfold findIndex. rewrite findIndexFrom_app.
  - rewrite length_app. cbn [length].
    replace (0 + (length l1 + 1))%nat with (S (length l1)) by lia.
    replace (nth_error ((l1 ++ [a]) ++ b :: l2) (S (length l1)))
      with (Some b).
    + rewrite <- app_assoc. cbn [app]. now rewrite nth_error_middle.
    + replace (S (length l1)) with (length (l1 ++ [a]))
        by (rewrite length_app; cbn; lia).
      now rewrite nth_error_middle.
  - intros x Hx. apply hasId_false.
    apply in_app_or in Hx as [Hx | [<- | []]]; [apply Hrest; auto | exact Hab].
  - now apply hasId_true.
Qed.

Lemma orders_down (l1 : list Category.t) (a b : Category.t)
    (l2 : list Category.t) :
  ascending (l1 ++ a :: b :: l2) ->
  NoDup (map idOf (l1 ++ a :: b :: l2)) ->
  moveCategoryDownOrders (l1 ++ a :: b :: l2) (idOf a) = Some (swapOf a b).
Proof.
  intros Hasc Hnd. unfold moveCategoryDownOrders.
  rewrite (sortByOrder_fixed _ Hasc).
  destruct (ids_apart _ _ _ _ Hnd) as [Hab Hrest].
  unfold findIndex. rewrite findIndexFrom_app.
  - cbn [Nat.add]. rewrite nth_error_middle.
    replace (nth_error (l1 ++ a :: b :: l2) (S (length l1))) with (Some b);
      [reflexivity |].
    replace (l1 ++ a :: b :: l2)%list with ((l1 ++ [a]) ++ b :: l2)%list
      by (now rewrite <- app_assoc).
    replace (S (length l1)) with (length (l1 ++ [a]))
      by (rewrite length_app; cbn; lia).
    now rewrite nth_error_middle.
  - intros x Hx. apply hasId_false. apply Hrest. auto.
  - now apply hasId_true.
Qed.

Lemma orders_up_first (c : Category.t) (rest : list Category.t) :
  ascending (c :: rest) -> moveCategoryUpOrders (c :: rest) (idOf c) = None.
Proof.
  intros Hasc. unfold moveCategoryUpOrders.
  rewrite (sortByOrder_fixed _ Hasc). unfold findIndex. cbn [findIndexFrom].
  assert (E : hasId (idOf c) c = true) by now apply hasId_true.
  now rewrite E.
Qed.

Lemma orders_down_last (init : list Category.t) (c : Category.t) :
  ascending (init ++ [c]) -> NoDup (map idOf (init ++ [c])) ->
  moveCategoryDownOrders (init ++ [c]) (idOf c) = None.
Proof.
  intros Hasc Hnd. unfold moveCategoryDownOrders.
  rewrite (sortByOrder_fixed _ Hasc).
  unfold findIndex. rewrite findIndexFrom_app.
  - cbn [Nat.add]. rewrite nth_error_middle.
    replace (nth_error (init ++ [c]) (S (length init))) with (@None Category.t);
      [reflexivity |].
    symmetry. apply nth_error_None. rewrite length_app. cbn. lia.
  - intros x Hx. apply hasId_false. intros E.
    rewrite map_app in Hnd. cbn [map] in Hnd.
    apply NoDup_remove_2 in Hnd. apply Hnd. rewrite <- E.
    apply in_or_app. left. now apply in_map.
  - now apply hasId_true.
Qed.

Lemma sendReorder_nothing (env : Env) (orders : option (list Body.OrderItem))
    (st : State) :
  sendReorder env orders st = st.
Proof.
  destruct orders as [os |]; [| reflexivity].
  unfold sendReorder, serve, apiRequest. cbn [method path].
  replace (dispatch PUT reorderPath)
    with (Some (UpdateCategory, [("id", "reorder")])) by reflexivity.
  cbn [paramId]. unfold updateCategory. now rewrite castObjectId_reorder.
Qed.

Definition categoryA : Category.t :=
  {| Category._id := oid1; Category.name := "A"; Category.order := 10 |}.
Definition categoryB : Category.t :=
  {| Category._id := oid2; Category.name := "B"; Category.order := 20 |}.
Definition categoryC : Category.t :=
  {| Category._id := oid3; Category.name := "C"; Category.order := 35 |}.

(** Three categories, stored in another order than they are listed. *)
Definition store3 : State :=
  {| donations := []; categories := [categoryB; categoryC; categoryA];
     subAdmins := []; logs := [] |}.

(** C6, on the code.  For a store whose categories have distinct ids and
    distinct order keys, and two neighbours [a], [b] of its ascending
    listing: move-up of [b] and move-down of [a] do ask for the exchange
    of the two order keys, but the request is answered 400 by the handler
    of [/api/categories/:id] and the listing after the move is the listing
    before it, not the one with [a] and [b] exchanged.  (Move-up of the
    first element and move-down of the last send nothing.)  So with the
    categories A, B, C of keys 10, 20, 35: move-up of B sends B := 10,
    A := 20 and leaves the listing A, B, C. *)
Theorem moves_exchange_nothing :
  (forall env st l1 a b l2,
     NoDup (map idOf (categories st)) ->
     NoDup (map Category.order (categories st)) ->
     loadedCategories st = (l1 ++ a :: b :: l2)%list ->
     moveCategoryUpOrders (loadedCategories st) (idOf b)
       = Some (swapOf b a) /\
     moveCategoryDownOrders (loadedCategories st) (idOf a)
       = Some (swapOf a b) /\
     serve env (apiRequest PUT reorderPath (reorderBody (swapOf b a))) st
       = Some (st, respond 400 (ErrorMessage CastError)) /\
     serve env (apiRequest PUT reorderPath (reorderBody (swapOf a b))) st
       = Some (st, respond 400 (ErrorMessage CastError)) /\
     loadedCategories
       (moveCategoryUp env (loadedCategories st) (idOf b) st)
       = (l1 ++ a :: b :: l2)%list /\
     loadedCategories
       (moveCategoryDown env (loadedCategories st) (idOf a) st)
       = (l1 ++ a :: b :: l2)%list /\
     (l1 ++ a :: b :: l2)%list
       <> (l1 ++ setOrder (Category.order a) b
              :: setOrder (Category.order b) a :: l2)%list) /\
  (forall st c rest,
     NoDup (map Category.order (categories st)) ->
     loadedCategories st = c :: rest ->
     moveCategoryUpOrders (loadedCategories st) (idOf c) = None) /\
  (forall st init c,
     NoDup (map idOf (categories st)) ->
     NoDup (map Category.order (categories st)) ->
     loadedCategories st = (init ++ [c])%list ->
     moveCategoryDownOrders (loadedCategories st) (idOf c) = None) /\
  (forall env,
     loadedCategories store3 = [categoryA; categoryB; categoryC] /\
     moveCategoryUpOrders (loadedCategories store3) (idOf categoryB)
       = Some [ Body.mkItem "65a4f0c2b7e1d9a3c5f00002" 10;
                Body.mkItem "65a4f0c2b7e1d9a3c5f00001" 20 ] /\
     moveCategoryUp env (loadedCategories store3) (idOf categoryB) store3
       = store3 /\
     loadedCategories
       (moveCategoryUp env (loadedCategories store3) (idOf categoryB) store3)
       = [categoryA; categoryB; categoryC] /\
     loadedCategories
       (moveCategoryDown env (loadedCategories store3) (idOf categoryB)
          store3)
       = [categoryA; categoryB; categoryC]).
Proof.
  assert (Hserve : forall env os st,
            serve env (apiRequest PUT reorderPath (reorderBody os)) st
              = Some (st, respond 400 (ErrorMessage CastError))).
  { intros env os st. unfold serve, apiRequest. cbn [method path].
    replace (dispatch PUT reorderPath)
      with (Some (UpdateCategory, [("id", "reorder")])) by reflexivity.
    cbn [paramId]. unfold updateCategory.
    now rewrite castObjectId_reorder. }
  split; [| split; [| split]].
  - intros env st l1 a b l2 Hid Hord E.
    assert (Hasc : ascending (loadedCategories st))
      by now apply sortByOrder_ascending.
    assert (HidS : NoDup (map idOf (loadedCategories st))).
    { eapply Permutation_NoDup; [| exact Hid].
      apply Permutation_map. symmetry. apply sortByOrder_perm. }
    unfold moveCategoryUp, moveCategoryDown.
    rewrite !sendReorder_nothing, !Hserve.
    rewrite E in Hasc, HidS |- *.
    rewrite orders_up, orders_down by assumption.
    repeat split; try reflexivity; try (rewrite <- E; reflexivity).
    intros Heq. apply app_inv_head in Heq. injection Heq as Ha _.
    destruct (ids_apart _ _ _ _ HidS) as [Hab _].
    apply Hab. rewrite Ha at 1. reflexivity.
  - intros st c rest Hord E.
    assert (Hasc : ascending (loadedCategories st))
      by now apply sortByOrder_ascending.
    rewrite E in Hasc |- *. now apply orders_up_first.
  - intros st init c Hid Hord E.
    assert (Hasc : ascending (loadedCategories st))
      by now apply sortByOrder_ascending.
    assert (HidS : NoDup (map idOf (loadedCategories st))).
    { eapply Permutation_NoDup; [| exact Hid].
      apply Permutation_map. symmetry. apply sortByOrder_perm. }
    rewrite E in Hasc, HidS |- *. now apply orders_down_last.
  - intros env. unfold moveCategoryUp, moveCategoryDown.
    rewrite !sendReorder_nothing. repeat split; reflexivity.
Qed.

(** * Further properties of the front end *)

Section Aggregates.

Variables toLowerCase trim : string -> string.

(** A quantity that starts at 0 in a new aggregate and grows by [w d] when
    the record [d] is absorbed adds up, over all aggregates, to the sum of
    [w] over the records. *)
Lemma grouped_additive (f : Donor.t -> Z) (w : Donation.t -> Z) :
  (forall d, f (newDonor trim d) = 0%Z) ->
  (forall g d, f (absorb g d) = (f g + w d)%Z) ->
  forall ds,
    sumZ (map (fun e => f (snd e)) (groupedOf toLowerCase trim ds)) = sumZ (map w ds).
Proof.
  intros Hnew Habs.
  assert (Hupd : forall k d l g,
            lookup k l = Some g ->
            sumZ (map (fun e => f (snd e))
                    (update k (fun g => absorb g d) l))
            = (sumZ (map (fun e => f (snd e)) l) + w d)%Z).
  { intros k d l. unfold sumZ.
    induction l as [| [k' g'] l IH]; cbn; intros g; [discriminate |].
    destruct (String.eqb k' k).
    - intros _. cbn. rewrite Habs. lia.
    - intros H. cbn. rewrite (IH _ H). lia. }
  induction ds as [| d ds IH] using rev_ind; [reflexivity |].
  rewrite groupedOf_snoc, map_app, sumZ_app. cbn [map sumZ fold_right].
  destruct (lookup (nameKey toLowerCase trim d) (groupedOf toLowerCase trim ds)) as [g |] eqn:Hk.
  - rewrite (groupStep_old _ _ _ _ _ Hk), (Hupd _ _ _ _ Hk), IH. lia.
  - rewrite (groupStep_new _ _ _ _ Hk), map_app, sumZ_app, IH.
    cbn. rewrite Habs, Hnew. lia.
Qed.

Lemma magnitudes_selection (p : Donation.t -> bool) (ds : list Donation.t) :
  (sumZ (map (fun d => Z.abs (amountOr0 (Donation.amount d))) (filter p ds))
   <= sumZ (map (fun d => Z.abs (amountOr0 (Donation.amount d))) ds))%Z.
Proof.
  replace ds with (filter (fun _ => true) ds) at 2
    by (induction ds as [| d ds IH]; cbn; [| rewrite IH]; reflexivity).
  now apply magnitudes_filter.
Qed.

(** Within the safe integers the totals of all aggregates together are
    the mathematical sum of the amounts. *)
Lemma grouped_totals_exact (ds : list Donation.t) :
  (sumZ (map (fun d => Z.abs (amountOr0 (Donation.amount d))) ds)
   <= JS.maxSafeInteger)%Z ->
  sumZ (map Donor.amount (groupDonationsByName toLowerCase trim ds))
    = sumZ (map (fun d => amountOr0 (Donation.amount d)) ds).
Proof.
  intros Hb.
  rewrite <- (grouped_additive historyTotal
                (fun d => amountOr0 (Donation.amount d)))
    by (reflexivity || apply historyTotal_absorb).
  unfold groupDonationsByName. rewrite map_map. f_equal.
  apply map_ext_in. intros [k g] Hin. cbn [snd].
  apply (amount_exact toLowerCase trim ds k); [assumption |].
  pose proof (magnitudes_selection
                (fun d => String.eqb (nameKey toLowerCase trim d) k) ds)
    as Hm.
  unfold members. lia.
Qed.

(** When the magnitudes of the amounts of the records add up to no more
    than [Number.MAX_SAFE_INTEGER], the totals of all aggregates add up to
    the amounts of all records, a missing amount counting as 0. *)
Theorem all_totals_conserved (ds : list Donation.t) :
  (sumZ (map (fun d => match Donation.amount d with
                       | Some a => Z.abs a
                       | None => 0%Z
                       end) ds) <= JS.maxSafeInteger)%Z ->
  sumZ (map Donor.amount (groupDonationsByName toLowerCase trim ds))
    = sumZ (map (fun d => match Donation.amount d with
                          | Some a => a
                          | None => 0%Z
                          end) ds).
Proof.
  intros Hb. apply grouped_totals_exact.
  etransitivity; [| exact Hb]. apply Z.eq_le_incl. f_equal.
  apply map_ext. intros d. unfold amountOr0.
  now destruct (Donation.amount d).
Qed.

(** Every record is one history entry of one aggregate: the histories
    together have as many entries as there are records. *)
Theorem histories_cover_records (ds : list Donation.t) :
  sumZ (map (fun g => Z.of_nat (length (Donor.history g)))
          (groupDonationsByName toLowerCase trim ds))
    = Z.of_nat (length ds).
Proof.
  unfold groupDonationsByName. rewrite map_map.
  rewrite (grouped_additive
             (fun g => Z.of_nat (length (Donor.history g)))
             (fun _ => 1%Z)).
  - unfold sumZ. induction ds as [| d ds IH]; [reflexivity |].
    cbn [map fold_right length]. rewrite IH, Nat2Z.inj_succ. lia.
  - reflexivity.
  - intros g d. cbn [absorb Donor.history]. rewrite length_app.
    cbn [length]. lia.
Qed.

Lemma update_length (k : string) (f : Donor.t -> Donor.t)
    (l : list (string * Donor.t)) :
  length (update k f l) = length l.
Proof.
  rewrite <- (length_map fst (update k f l)), map_fst_update.
  apply length_map.
Qed.

(** There are never more aggregates than records, and there is one as
    soon as there is a record. *)
Theorem aggregates_bounded (ds : list Donation.t) :
  (length (groupDonationsByName toLowerCase trim ds) <= length ds)%nat /\
  (groupDonationsByName toLowerCase trim ds = [] <-> ds = []).
Proof.
  unfold groupDonationsByName.
  assert (Hlen : (length (groupedOf toLowerCase trim ds) <= length ds)%nat /\
                 (ds <> [] -> groupedOf toLowerCase trim ds <> [])).
  { induction ds as [| d ds [IH1 IH2]] using rev_ind.
    - split; [cbn; lia | congruence].
    - rewrite groupedOf_snoc, length_app. cbn [length].
      destruct (lookup (nameKey toLowerCase trim d) (groupedOf toLowerCase trim ds)) as [g |] eqn:Hk.
      + rewrite (groupStep_old _ _ _ _ _ Hk). split.
        * rewrite update_length. lia.
        * intros _ H. apply (f_equal (@length _)) in H.
          rewrite update_length in H.
          destruct (groupedOf toLowerCase trim ds); [discriminate Hk | discriminate H].
      + rewrite (groupStep_new _ _ _ _ Hk). split.
        * rewrite length_app. cbn. lia.
        * intros _ H. now apply app_eq_nil in H as [_ H]. }
  destruct Hlen as [H1 H2]. rewrite length_map. split; [exact H1 |].
  split.
  - intros H. destruct ds as [| d ds]; [reflexivity |].
    exfalso. apply H2; [discriminate |]. now apply map_eq_nil in H.
  - now intros ->.
Qed.

(** The records that open a group: those no earlier record shares its
    key with ([seen] holds the keys met so far). *)
Fixpoint leadersFrom (seen : list string) (ds : list Donation.t)
  : list Donation.t :=
  match ds with
  | [] => []
  | d :: rest =>
      if existsb (String.eqb (nameKey toLowerCase trim d)) seen
      then leadersFrom seen rest
      else d :: leadersFrom (nameKey toLowerCase trim d :: seen) rest
  end.

Definition leaders (ds : list Donation.t) : list Donation.t :=
  leadersFrom [] ds.

Lemma existsb_eqb_same (k k' : string) (l : list string) :
  String.eqb k k' = true ->
  existsb (String.eqb k) l = existsb (String.eqb k') l.
Proof.
  intros E. apply String.eqb_eq in E. now subst.
Qed.

Lemma leadersFrom_snoc (seen : list string) (ds : list Donation.t)
    (d : Donation.t) :
  leadersFrom seen (ds ++ [d]) =
  (leadersFrom seen ds ++
   if existsb (String.eqb (nameKey toLowerCase trim d)) seen
      || existsb (String.eqb (nameKey toLowerCase trim d))
           (map (nameKey toLowerCase trim) ds)
   then [] else [d])%list.
Proof.
  revert seen. induction ds as [| x ds IH]; intros seen.
  - cbn. rewrite orb_false_r.
    now destruct (existsb _ seen).
  - cbn [app leadersFrom map existsb].
    destruct (existsb (String.eqb (nameKey toLowerCase trim x)) seen) eqn:Ex.
    + rewrite IH.
      destruct (String.eqb (nameKey toLowerCase trim d)
                  (nameKey toLowerCase trim x)) eqn:E; [| reflexivity].
      rewrite (existsb_eqb_same _ _ seen E), Ex. reflexivity.
    + rewrite IH. cbn [existsb app].
      f_equal. f_equal.
      destruct (String.eqb (nameKey toLowerCase trim d)
                  (nameKey toLowerCase trim x));
        destruct (existsb (String.eqb (nameKey toLowerCase trim d)) seen);
        reflexivity.
Qed.

Lemma key_met_iff_grouped (k : string) (ds : list Donation.t) :
  existsb (String.eqb k) (map (nameKey toLowerCase trim) ds) = false <->
  lookup k (groupedOf toLowerCase trim ds) = None.
Proof.
  destruct (groupedOf_spec toLowerCase trim ds) as [_ Hl]. rewrite Hl.
  clear Hl. unfold members. induction ds as [| d ds IH]; cbn; [tauto |].
  rewrite (String.eqb_sym k).
  destruct (String.eqb (nameKey toLowerCase trim d) k); cbn.
  - split; discriminate.
  - exact IH.
Qed.

Lemma map_update_invariant {B : Type} (h : Donor.t -> B) (k : string)
    (f : Donor.t -> Donor.t) (l : list (string * Donor.t)) :
  (forall g, h (f g) = h g) ->
  map (fun e => h (snd e)) (update k f l) = map (fun e => h (snd e)) l.
Proof.
  intros Hf. induction l as [| [k' g] l IH]; cbn; [reflexivity |].
  destruct (String.eqb k' k); cbn; [now rewrite Hf | now rewrite IH].
Qed.

(** The aggregates come in the order in which their first records come,
    and each carries the id, the trimmed name, the category reference and
    the notes of that first record. *)
Theorem aggregates_follow_first_records (ds : list Donation.t) :
  map (fun g => (Donor._id g, Donor.donorName g, Donor.categoryId g,
                 Donor.notes g))
      (groupDonationsByName toLowerCase trim ds)
  = map (fun d => (Donation._id d, trim (Donation.donorName d),
                   Donation.categoryId d, Donation.notes d))
        (leaders ds).
Proof.
  unfold groupDonationsByName, leaders. rewrite map_map.
  induction ds as [| d ds IH] using rev_ind; [reflexivity |].
  rewrite groupedOf_snoc, leadersFrom_snoc. cbn [existsb orb].
  destruct (lookup (nameKey toLowerCase trim d)
              (groupedOf toLowerCase trim ds)) as [g |] eqn:Hk.
  - rewrite (groupStep_old _ _ _ _ _ Hk).
    rewrite (map_update_invariant
               (fun g => (Donor._id g, Donor.donorName g,
                          Donor.categoryId g, Donor.notes g)))
      by reflexivity.
    destruct (existsb _ _) eqn:E.
    + now rewrite app_nil_r.
    + apply key_met_iff_grouped in E. congruence.
  - rewrite (groupStep_new _ _ _ _ Hk), !map_app, IH.
    apply key_met_iff_grouped in Hk. rewrite Hk. reflexivity.
Qed.

(** A double sum of amounts that are not negative is not negative, and
    is 0 only when every amount is. *)
Lemma fold_add_nonneg (l : list Z) (acc : Z) :
  (0 <= acc)%Z -> (forall z, In z l -> (0 <= z)%Z) ->
  (0 <= fold_left JS.add l acc)%Z /\
  (fold_left JS.add l acc = 0%Z <->
   acc = 0%Z /\ forall z, In z l -> z = 0%Z).
Proof.
  revert acc. induction l as [| a l IH]; intros acc Hacc Hpos;
    cbn [fold_left].
  - split; [assumption | split; [intros ->; split; [reflexivity |] |
                                 now intros [-> _]]].
    intros z [].
  - assert (Ha : (0 <= a)%Z) by (apply Hpos; now left).
    destruct (add_nonneg acc a Hacc Ha) as [Hge Hz].
    destruct (IH (JS.add acc a) Hge) as [IH1 IH2];
      [intros z Hin; apply Hpos; now right |].
    split; [assumption |]. rewrite IH2. split.
    + intros [H0 Hl]. destruct (Hz H0) as [-> ->].
      split; [reflexivity |]. intros z [<- | Hin]; [reflexivity | auto].
    + intros [-> Hl]. rewrite (Hl a) by now left.
      split; [reflexivity |]. intros z Hin. apply Hl. now right.
Qed.

(** With amounts that are not negative, an aggregate passes the "pledged"
    filter ([amount === 0]) exactly when none of its records carries an
    amount (each is 0 or missing), and passes the "paid" filter
    ([amount > 0]) exactly when it fails the other. *)
Theorem pledged_iff_nothing_paid (ds : list Donation.t) (k : string)
    (g : Donor.t) :
  In (k, g) (groupedOf toLowerCase trim ds) ->
  (forall d, In d (members toLowerCase trim k ds) ->
     (0 <= amountOr0 (Donation.amount d))%Z) ->
  ((Donor.amount g =? 0)%Z = true <->
   forall d, In d (members toLowerCase trim k ds) ->
     amountOr0 (Donation.amount d) = 0%Z) /\
  (Donor.amount g >? 0)%Z = negb (Donor.amount g =? 0)%Z.
Proof.
  intros Hin Hpos.
  destruct (groupedOf_entry _ _ _ _ _ Hin) as (d0 & rest & Hm & ->).
  destruct (summarize_fields trim d0 rest) as (_ & _ & _ & _ & Ha & _).
  rewrite Ha, <- Hm.
  destruct (fold_add_nonneg
              (map (fun d => amountOr0 (Donation.amount d))
                 (members toLowerCase trim k ds)) 0%Z) as [Hge Hz].
  { lia. }
  { intros z Hz. apply in_map_iff in Hz as (d & <- & Hd). now apply Hpos. }
  set (total := fold_left JS.add _ 0%Z) in *.
  split.
  - rewrite Z.eqb_eq, Hz. split.
    + intros [_ H] d Hd. apply H.
      now apply (in_map (fun d => amountOr0 (Donation.amount d))).
    + intros H. split; [reflexivity |].
      intros z Hz'. apply in_map_iff in Hz' as (d & <- & Hd). now apply H.
  - destruct (Z.eqb_spec total 0); destruct (Z.gtb_spec total 0);
      cbn; try reflexivity; lia.
Qed.

Lemma filteredDonors_grouped (cache : list Donation.t)
    (term cat : string) (sf : StatusFilter) (g : Donor.t) :
  In g (filteredDonors toLowerCase trim cache term cat sf) ->
  In g (groupDonationsByName toLowerCase trim
          (filter (fun d => isApproved (Donation.status d)) cache)).
Proof.
  unfold filteredDonors. intros H.
  destruct sf; try (apply filter_In in H as [H _]);
    destruct cat; try (apply filter_In in H as [H _]);
    destruct term; try (apply filter_In in H as [H _]); exact H.
Qed.

(** Whatever the filters, a donor that is shown is an aggregate of
    approved records only: each entry of its history is the entry of an
    approved donation of the cache.  A pending donation never shows. *)
Theorem public_view_has_approved_only (cache : list Donation.t)
    (term cat : string) (sf : StatusFilter) (g : Donor.t) :
  In g (filteredDonors toLowerCase trim cache term cat sf) ->
  Donor.history g <> [] /\
  forall h, In h (Donor.history g) ->
    exists d, In d cache /\ Donation.status d = approved /\
              h = historyEntry d.
Proof.
  intros Hin. apply filteredDonors_grouped in Hin.
  unfold groupDonationsByName in Hin.
  apply in_map_iff in Hin as [[k g'] [Heq Hin]]. cbn in Heq. subst g'.
  destruct (groupedOf_entry _ _ _ _ _ Hin) as (d0 & rest & Hm & ->).
  destruct (summarize_fields trim d0 rest) as (_ & _ & _ & _ & _ & Hh & _).
  rewrite Hh. split; [discriminate |].
  intros h Hh'. apply in_map_iff in Hh' as (d & <- & Hd).
  rewrite <- Hm in Hd. apply members_key in Hd as [_ Hd].
  apply filter_In in Hd as [Hd Hs]. exists d.
  repeat split; try assumption.
  now destruct (Donation.status d).
Qed.

Lemma prefix_refl (s : string) : String.prefix s s = true.
Proof.
  induction s as [| c s IH]; cbn; [reflexivity |].
  now destruct (ascii_dec c c).
Qed.

Lemma includes_refl (s : string) : JS.includes s s = true.
Proof.
  destruct s; cbn [JS.includes]; now rewrite prefix_refl.
Qed.

(** Searching for the name an aggregate shows always finds it, whatever
    the letter case of the name. *)
Theorem search_by_full_name_finds (cache : list Donation.t) (g : Donor.t) :
  In g (groupDonationsByName toLowerCase trim
          (filter (fun d => isApproved (Donation.status d)) cache)) ->
  In g (filteredDonors toLowerCase trim cache (Donor.donorName g) ""
          AnyStatus).
Proof.
  intros Hin. unfold filteredDonors.
  destruct (Donor.donorName g) eqn:En; [exact Hin |].
  apply filter_In. split; [exact Hin |].
  unfold searchMatches. now rewrite En, includes_refl.
Qed.

(** A character that does not occur in the text. *)
Fixpoint absent (c : ascii) (s : string) : bool :=
  match s with
  | EmptyString => true
  | String x s' => negb (Ascii.eqb x c) && absent c s'
  end.

Lemma replaceScan_absent (c : ascii) (p rep s : string) :
  absent c s = true -> JS.replaceScan (String c p) rep 0 s = s.
Proof.
  induction s as [| x s IH]; cbn; [reflexivity |].
  intros H. apply andb_true_iff in H as [Hx Hs].
  destruct (ascii_dec c x) as [-> | _].
  - rewrite Ascii.eqb_refl in Hx. discriminate.
  - now rewrite IH.
Qed.

(** A text without the byte that opens every Devanagari glyph (names in
    Latin letters, digits, punctuation) is only lower-cased by the
    transliteration: no entry of the table applies. *)
Theorem transliteration_keeps_latin (text : string) :
  absent "224" text = true ->
  transliterateHindiToEnglish toLowerCase text = toLowerCase text.
Proof.
  intros Habs. unfold transliterateHindiToEnglish, transliterateWith.
  f_equal.
  assert (Htab : forallb (fun e => match fst e with
                                   | String c _ => Ascii.eqb c "224"
                                   | EmptyString => false
                                   end) transliterationMap = true)
    by (vm_compute; reflexivity).
  revert Htab. generalize transliterationMap as table.
  induction table as [| [pat rep] table IH]; cbn; intros Htab;
    [reflexivity |].
  apply andb_true_iff in Htab as [Hp Ht].
  destruct pat as [| c p]; [discriminate |].
  apply Ascii.eqb_eq in Hp. subst c.
  unfold JS.replaceAll. rewrite replaceScan_absent by assumption.
  now apply IH.
Qed.

End Aggregates.

Definition sitaKey : string := "sita_65a4f0c2b7e1d9a3c5f00001".

Lemma all_totals_conserved_witness :
  sumZ (map Donor.amount
          (groupDonationsByName JS.asciiLowerCase JS.asciiTrim mixedRecords))
    = sumZ (map (fun d => match Donation.amount d with
                          | Some a => a
                          | None => 0%Z
                          end) mixedRecords).
Proof.
  apply all_totals_conserved. vm_compute. discriminate.
Defined.

Lemma pledged_iff_nothing_paid_witness :
  ((Donor.amount (summarize JS.asciiTrim sita1 [sita2]) =? 0)%Z = true <->
   forall d,
     In d (members JS.asciiLowerCase JS.asciiTrim sitaKey notedRecords) ->
     amountOr0 (Donation.amount d) = 0%Z) /\
  (Donor.amount (summarize JS.asciiTrim sita1 [sita2]) >? 0)%Z
    = negb (Donor.amount (summarize JS.asciiTrim sita1 [sita2]) =? 0)%Z.
Proof.
  apply (pledged_iff_nothing_paid JS.asciiLowerCase JS.asciiTrim
           notedRecords sitaKey).
  - vm_compute. left. reflexivity.
  - intros d Hd.
    assert (Hm : members JS.asciiLowerCase JS.asciiTrim sitaKey notedRecords
                 = [sita1; sita2]) by (vm_compute; reflexivity).
    rewrite Hm in Hd. destruct Hd as [<- | [<- | []]]; cbn; lia.
Defined.

Lemma public_view_has_approved_only_witness :
  Donor.history (summarize JS.asciiTrim sita1 [sita2]) <> [] /\
  forall h, In h (Donor.history (summarize JS.asciiTrim sita1 [sita2])) ->
    exists d, In d notedRecords /\ Donation.status d = approved /\
              h = historyEntry d.
Proof.
  apply (public_view_has_approved_only JS.asciiLowerCase JS.asciiTrim
           notedRecords "sita" "" Paid).
  vm_compute. left. reflexivity.
Defined.

Lemma search_by_full_name_finds_witness :
  In (summarize JS.asciiTrim sita1 [sita2])
     (filteredDonors JS.asciiLowerCase JS.asciiTrim notedRecords
        (Donor.donorName (summarize JS.asciiTrim sita1 [sita2])) ""
        AnyStatus).
Proof.
  apply search_by_full_name_finds.
  vm_compute. left. reflexivity.
Defined.

Lemma transliteration_keeps_latin_witness :
  transliterateHindiToEnglish JS.asciiLowerCase "Ram Kumar"
    = JS.asciiLowerCase "Ram Kumar".
Proof.
  apply transliteration_keeps_latin. reflexivity.
Defined.

(** * Further properties of the server *)

(** What [createLog] appends: one entry, or nothing when the entry is
    rejected. *)
Definition logExtra (req : Request) (act ent : string)
    (entId : option string) : list LogEntry :=
  match parseUserType (headerOr (xUserType req) "admin") with
  | Some ut =>
      [ {| action := act; entity := ent; entityId := entId;
           user := headerOr (xUser req) "admin"; userType := ut |} ]
  | None => []
  end.

Lemma createLog_logs (req : Request) (a e : string) (i : option string)
    (st : State) :
  logs (createLog req a e i st) = (logs st ++ logExtra req a e i)%list.
Proof.
  unfold createLog, logExtra.
  destruct (parseUserType _); cbn; [reflexivity | now rewrite app_nil_r].
Qed.

Lemma logExtra_short (req : Request) (a e : string) (i : option string) :
  (length (logExtra req a e i) <= 1)%nat.
Proof.
  unfold logExtra. destruct (parseUserType _); cbn; lia.
Qed.

Lemma dispatch_never_reorders (m : Method) (p : list string)
    (ps : list (string * string)) :
  dispatch m p <> Some (ReorderCategories, ps).
Proof.
  intros H. unfold dispatch, routes in H. cbn [dispatchIn] in H.
  destruct m; cbn [sameMethod andb] in H;
    repeat match type of H with
           | (if ?c then _ else _) = _ =>
               let E := fresh "E" in
               destruct c eqn:E; [try discriminate H |]
           end; try discriminate H.
  match goal with
  | Ht : pathMatches [Lit "api"; Lit "categories"; Lit "reorder"] p = true
    |- _ => apply reorder_path_is_an_id_path in Ht; congruence
  end.
Qed.

Ltac unfold_handlers :=
  unfold createDonation, saveDonation, updateDonation, approveDonation,
    deleteDonation, listCategories, createCategory, updateCategory,
    deleteCategory, reorderCategories.

(** The log only grows: a request appends at most one entry and never
    touches the entries that are there; a request that is answered with
    an error appends nothing. *)
Theorem log_is_append_only (env : Env) (req : Request) (st st' : State)
    (r : Response) :
  serve env req st = Some (st', r) ->
  exists extra,
    logs st' = (logs st ++ extra)%list /\
    (length extra <= 1)%nat /\
    (responseOk r = false -> extra = []).
Proof.
  unfold serve. intros H.
  destruct (dispatch (method req) (path req)) as [[e ps] |];
    [| discriminate H].
  destruct e; try discriminate H;
    apply (f_equal (option_map (fun x => (logs (fst x), snd x)))) in H;
    cbn [option_map] in H; injection H as <- <-;
    unfold_handlers; repeat split_scrutinee;
    cbn [fst snd withDonations withCategories logs];
    rewrite ?createLog_logs;
    cbn [withDonations withCategories logs];
    first
      [ exists []; rewrite app_nil_r;
        now (split; [reflexivity | split; [cbn; lia | reflexivity]])
      | eexists; split; [reflexivity |];
        split; [apply logExtra_short | cbn; discriminate] ].
Qed.

(** A request that is answered with an error leaves the whole store as it
    was. *)
Theorem failed_request_changes_nothing (env : Env) (req : Request)
    (st st' : State) (r : Response) :
  serve env req st = Some (st', r) ->
  responseOk r = false ->
  st' = st.
Proof.
  unfold serve. intros H.
  destruct (dispatch (method req) (path req)) as [[e ps] |] eqn:Hd;
    [| discriminate H].
  destruct e; try discriminate H;
    try (exfalso; exact (dispatch_never_reorders _ _ _ Hd));
    apply (f_equal (option_map (fun x => (fst x, snd x)))) in H;
    cbn [option_map] in H; injection H as <- <-;
    unfold_handlers; repeat split_scrutinee; cbn [fst snd];
    intros Hr; try reflexivity; discriminate Hr.
Qed.

(** ** Identities in the collections *)

Definition donationId (d : Donation.t) : string := hexString (Donation._id d).

Ltac split_scrutinee_eq :=
  match goal with
  | |- context [match ?x with _ => _ end] => destruct x eqn:?
  end.

Lemma NoDup_snoc {A : Type} (l : list A) (x : A) :
  NoDup l -> ~ In x l -> NoDup (l ++ [x]).
Proof.
  intros Hl Hx. apply NoDup_app; [assumption | repeat constructor; cbn; tauto |].
  intros y Hy [<- | []]. contradiction.
Qed.

Lemma updateDonationById_ids (i : ObjectId) (f : Donation.t -> Donation.t)
    (l : list Donation.t) :
  (forall d, Donation._id (f d) = Donation._id d) ->
  map donationId (updateDonationById i f l) = map donationId l.
Proof.
  intros Hf. induction l as [| d l IH]; cbn; [reflexivity |].
  destruct (sameId (Donation._id d) i); cbn.
  - unfold donationId at 1. now rewrite Hf.
  - now rewrite IH.
Qed.

Lemma removeDonationById_In (i : ObjectId) (l : list Donation.t) (x : string) :
  In x (map donationId (removeDonationById i l)) -> In x (map donationId l).
Proof.
  induction l as [| d l IH]; cbn; [tauto |].
  destruct (sameId (Donation._id d) i); cbn; [tauto |].
  intros [H | H]; [now left | right; now apply IH].
Qed.

Lemma removeDonationById_NoDup (i : ObjectId) (l : list Donation.t) :
  NoDup (map donationId l) -> NoDup (map donationId (removeDonationById i l)).
Proof.
  induction l as [| d l IH]; cbn; intros H; [constructor |].
  inversion H as [| ? ? Hn Hl]; subst.
  destruct (sameId (Donation._id d) i); cbn; [assumption |].
  constructor; [| now apply IH].
  intros Hin. apply Hn. now apply removeDonationById_In in Hin.
Qed.

Lemma updateCategoryById_ids (i : ObjectId) (f : Category.t -> Category.t)
    (l : list Category.t) :
  (forall c, Category._id (f c) = Category._id c) ->
  map idOf (updateCategoryById i f l) = map idOf l.
Proof.
  intros Hf. induction l as [| c l IH]; cbn; [reflexivity |].
  destruct (sameId (Category._id c) i); cbn.
  - unfold idOf at 1. now rewrite Hf.
  - now rewrite IH.
Qed.

Lemma removeCategoryById_In (i : ObjectId) (l : list Category.t) (x : string) :
  In x (map idOf (removeCategoryById i l)) -> In x (map idOf l).
Proof.
  induction l as [| c l IH]; cbn; [tauto |].
  destruct (sameId (Category._id c) i); cbn; [tauto |].
  intros [H | H]; [now left | right; now apply IH].
Qed.

Lemma removeCategoryById_NoDup (i : ObjectId) (l : list Category.t) :
  NoDup (map idOf l) -> NoDup (map idOf (removeCategoryById i l)).
Proof.
  induction l as [| c l IH]; cbn; intros H; [constructor |].
  inversion H as [| ? ? Hn Hl]; subst.
  destruct (sameId (Category._id c) i); cbn; [assumption |].
  constructor; [| now apply IH].
  intros Hin. apply Hn. now apply removeCategoryById_In in Hin.
Qed.

Lemma newDonation_id (env : Env) (b : Body.t) (s : Status) (d : Donation.t) :
  newDonation env b s = Some d -> Donation._id d = newId env.
Proof.
  unfold newDonation.
  destruct (Body.donorName b) as [[| c n] |]; try discriminate.
  destruct (Body.categoryId b) as [cid |]; try discriminate.
  destruct (castObjectId cid) as [cat |]; try discriminate.
  destruct (Body.date b); try discriminate; now intros [= <-].
Qed.

(** Distinct ids stay distinct: when MongoDB hands out an id that is not
    in use, no request makes two donations or two categories share an
    id. *)
Theorem ids_stay_distinct (env : Env) (req : Request) (st st' : State)
    (r : Response) :
  NoDup (map donationId (donations st)) ->
  NoDup (map idOf (categories st)) ->
  ~ In (hexString (newId env)) (map donationId (donations st)) ->
  ~ In (hexString (newId env)) (map idOf (categories st)) ->
  serve env req st = Some (st', r) ->
  NoDup (map donationId (donations st')) /\
  NoDup (map idOf (categories st')).
Proof.
  intros Hd Hc Hfd Hfc H. unfold serve in H.
  destruct (dispatch (method req) (path req)) as [[e ps] |] eqn:Hdis;
    [| discriminate H].
  destruct e; try discriminate H;
    try (exfalso; exact (dispatch_never_reorders _ _ _ Hdis));
    apply (f_equal (option_map
                      (fun x => (donations (fst x), categories (fst x)))))
      in H;
    cbn [option_map] in H; injection H as <- <-;
    unfold_handlers; repeat split_scrutinee_eq; cbn [fst snd];
    rewrite ?createLog_donations, ?createLog_categories;
    cbn [withDonations withCategories donations categories];
    rewrite ?createLog_donations, ?createLog_categories;
    (split; [| try assumption]); try assumption;
    try (apply removeDonationById_NoDup; assumption);
    try (apply removeCategoryById_NoDup; assumption);
    try (rewrite updateCategoryById_ids by reflexivity; assumption);
    try (rewrite updateDonationById_ids by reflexivity; assumption).
  - rewrite map_app. cbn [map]. apply NoDup_snoc; [assumption |].
    unfold donationId at 1.
    match goal with
    | E : newDonation _ _ _ = Some _ |- _ =>
        now rewrite (newDonation_id _ _ _ _ E)
    end.
  - rewrite map_app. cbn [map]. apply NoDup_snoc; [assumption |].
    unfold donationId at 1.
    match goal with
    | E : newDonation _ _ _ = Some _ |- _ =>
        now rewrite (newDonation_id _ _ _ _ E)
    end.
  - match goal with
    | E : castPatch _ = Some _ |- _ =>
        rewrite updateDonationById_ids
          by (intros d; apply (castPatch_fields _ _ E))
    end.
    assumption.
  - rewrite map_app. cbn [map]. now apply NoDup_snoc.
  - rewrite map_app. cbn [map]. now apply NoDup_snoc.
Qed.

Lemma findDonation_None (i : ObjectId) (l : list Donation.t) :
  findDonation i l = None <-> ~ In (hexString i) (map donationId l).
Proof.
  unfold findDonation. induction l as [| d l IH]; cbn; [tauto |].
  destruct (sameId (Donation._id d) i) eqn:E.
  - apply sameId_true in E. split; [discriminate | intros H].
    exfalso. apply H. now left.
  - rewrite IH. split; [| tauto].
    intros H [Heq | Hin]; [| contradiction].
    assert (sameId (Donation._id d) i = true) by now apply sameId_true.
    congruence.
Qed.

Lemma findDonation_remove_same (i : ObjectId) (l : list Donation.t) :
  NoDup (map donationId l) ->
  findDonation i (removeDonationById i l) = None.
Proof.
  induction l as [| d l IH]; cbn; intros H; [reflexivity |].
  inversion H as [| ? ? Hn Hl]; subst.
  destruct (sameId (Donation._id d) i) eqn:E.
  - apply findDonation_None. apply sameId_true in E.
    unfold donationId in Hn. now rewrite <- E.
  - unfold findDonation. cbn. rewrite E. now apply IH.
Qed.

Lemma findDonation_remove_other (i j : ObjectId) (l : list Donation.t) :
  sameId j i = false ->
  findDonation j (removeDonationById i l) = findDonation j l.
Proof.
  intros Hji. unfold findDonation.
  induction l as [| d l IH]; cbn; [reflexivity |].
  destruct (sameId (Donation._id d) i) eqn:E; cbn.
  - destruct (sameId (Donation._id d) j) eqn:Ej; [| reflexivity].
    apply sameId_true in E, Ej.
    assert (sameId j i = true) by (apply sameId_true; congruence).
    congruence.
  - now rewrite IH.
Qed.

Lemma removeDonationById_length (i : ObjectId) (l : list Donation.t)
    (d : Donation.t) :
  findDonation i l = Some d ->
  S (length (removeDonationById i l)) = length l.
Proof.
  unfold findDonation. induction l as [| x l IH]; cbn; [discriminate |].
  destruct (sameId (Donation._id x) i); [reflexivity |].
  intros H. cbn. now rewrite IH.
Qed.

(** Delete, then look up: after the deletion of a stored donation its id
    is not found any more, every other id is found as before, the
    collection is one document shorter, and the same request repeated is
    answered 404 and changes nothing. *)
Theorem delete_then_lookup (idParam : string) (req : Request) (st : State)
    (i : ObjectId) (d : Donation.t) :
  NoDup (map donationId (donations st)) ->
  castObjectId idParam = Some i ->
  findDonation i (donations st) = Some d ->
  let st' := fst (deleteDonation idParam req st) in
  findDonation i (donations st') = None /\
  (forall j, sameId j i = false ->
     findDonation j (donations st') = findDonation j (donations st)) /\
  S (length (donations st')) = length (donations st) /\
  categories st' = categories st /\
  deleteDonation idParam req st'
    = (st', respond 404 (Message "Donation not found")).
Proof.
  intros Hnd Hc Hf. cbv zeta.
  assert (Hst : donations (fst (deleteDonation idParam req st))
                = removeDonationById i (donations st)).
  { unfold deleteDonation. rewrite Hc, Hf. cbn [fst withDonations donations].
    now rewrite createLog_donations. }
  rewrite Hst. split; [now apply findDonation_remove_same | split; [| split]].
  - intros j Hj. now apply findDonation_remove_other.
  - now apply (removeDonationById_length _ _ d).
  - split.
    + unfold deleteDonation. rewrite Hc, Hf.
      cbn [fst withDonations categories]. apply createLog_categories.
    + unfold deleteDonation at 1. rewrite Hc, Hst.
      now rewrite findDonation_remove_same.
Qed.

Lemma findDonation_snoc (j : ObjectId) (l : list Donation.t) (d : Donation.t) :
  findDonation j (l ++ [d]) =
  match findDonation j l with
  | Some x => Some x
  | None => if sameId (Donation._id d) j then Some d else None
  end.
Proof.
  unfold findDonation. induction l as [| x l IH]; cbn; [reflexivity |].
  now destruct (sameId (Donation._id x) j).
Qed.

(** Create, then look up: when the id MongoDB hands out is not in use, an
    accepted creation stores a donation that is found under that id and
    is the one the response shows (populated); every donation that was
    stored is found as before. *)
Theorem create_then_lookup (env : Env) (req : Request) (st : State) :
  ~ In (hexString (newId env)) (map donationId (donations st)) ->
  statusCode (snd (createDonation env req st)) = 201%nat ->
  exists d,
    findDonation (newId env) (donations (fst (createDonation env req st)))
      = Some d /\
    Donation._id d = newId env /\
    Donation.categoryId d <> RefNull /\
    payload (snd (createDonation env req st))
      = DonationJson (populate (categories st) d) /\
    forall j x,
      findDonation j (donations st) = Some x ->
      findDonation j (donations (fst (createDonation env req st))) = Some x.
Proof.
  intros Hfresh. apply findDonation_None in Hfresh.
  unfold createDonation, saveDonation.
  assert (Hcat : forall s d, newDonation env (body req) s = Some d ->
                             Donation.categoryId d <> RefNull).
  { intros s d. unfold newDonation.
    destruct (Body.donorName (body req)) as [[| c n] |]; try discriminate.
    destruct (Body.categoryId (body req)) as [cid |]; try discriminate.
    destruct (castObjectId cid) as [cat |]; try discriminate.
    destruct (Body.date (body req)); try discriminate;
      intros [= <-]; discriminate. }
  destruct (headerOr (xUserType req) "admin" =? "subadmin");
    [destruct (amountFalsy _ || dateFalsy _); [cbn; discriminate |] |];
    match goal with
    | |- context [newDonation env (body req) ?s] =>
        destruct (newDonation env (body req) s) as [d |] eqn:En;
          [| cbn; discriminate]
    end;
    intros _; exists d; cbn [fst snd payload respond];
    rewrite createLog_donations; cbn [withDonations donations];
    rewrite findDonation_snoc, Hfresh, (newDonation_id _ _ _ _ En);
    (replace (sameId (newId env) (newId env)) with true
       by (symmetry; now apply sameId_true));
    (repeat split; try reflexivity; [now apply (Hcat _ _ En) |]);
    intros j x Hj; now rewrite findDonation_snoc, Hj.
Qed.

(** ** Categories *)

Lemma maxOrder_bound (l : list Category.t) :
  match maxOrder l with
  | None => l = []
  | Some m => forall c, In c l -> (Category.order c <= m)%Z
  end.
Proof.
  induction l as [| x l IH]; cbn; [reflexivity |].
  destruct (maxOrder l) as [m |].
  - intros c [<- | Hc]; [lia |]. specialize (IH c Hc). lia.
  - subst l. intros c [<- | []]. lia.
Qed.

Lemma insertByOrder_last (x c : Category.t) (l : list Category.t) :
  (Category.order x < Category.order c)%Z ->
  insertByOrder x (l ++ [c]) = (insertByOrder x l ++ [c])%list.
Proof.
  intros Hlt. induction l as [| y l IH]; cbn.
  - destruct (Z.leb_spec (Category.order x) (Category.order c));
      [reflexivity | lia].
  - destruct (Category.order x <=? Category.order y)%Z; [reflexivity |].
    now rewrite IH.
Qed.

Lemma sortByOrder_last (l : list Category.t) (c : Category.t) :
  (forall x, In x l -> (Category.order x < Category.order c)%Z) ->
  sortByOrder (l ++ [c]) = (sortByOrder l ++ [c])%list.
Proof.
  induction l as [| x l IH]; intros H; [reflexivity |].
  cbn [app]. rewrite !sortByOrder_cons, IH by (intros; apply H; now right).
  apply insertByOrder_last. apply H. now left.
Qed.

Lemma maxOrder_In (l : list Category.t) (m : Z) :
  maxOrder l = Some m -> exists c, In c l /\ Category.order c = m.
Proof.
  revert m. induction l as [| x l IH]; cbn; intros m; [discriminate |].
  destruct (maxOrder l) as [m' |].
  - intros [= <-]. destruct (Z.max_spec (Category.order x) m') as [[_ E] | [_ E]].
    + destruct (IH m' eq_refl) as (c & Hc & Ec). exists c.
      split; [now right | congruence].
    + exists x. split; [now left | congruence].
  - intros [= <-]. exists x. split; [now left | reflexivity].
Qed.

(** When the order keys in use are safe integers, a created category
    takes a key above every one of them (1 in an empty collection): it
    comes last in the listing, behind the categories in their order so
    far, and distinct keys stay distinct. *)
Theorem new_category_is_listed_last (env : Env) (req : Request) (st : State) :
  (forall x, In x (categories st) ->
     (Z.abs (Category.order x) <= JS.maxSafeInteger)%Z) ->
  statusCode (snd (createCategory env req st)) = 201%nat ->
  exists c,
    categories (fst (createCategory env req st))
      = (categories st ++ [c])%list /\
    (forall x, In x (categories st) ->
       (Category.order x < Category.order c)%Z) /\
    (categories st = [] -> Category.order c = 1%Z) /\
    sortByOrder (categories (fst (createCategory env req st)))
      = (sortByOrder (categories st) ++ [c])%list /\
    (NoDup (map Category.order (categories st)) ->
     NoDup (map Category.order
              (categories (fst (createCategory env req st))))).
Proof.
  intros Hsafe. unfold createCategory.
  destruct (Body.name (body req)) as [[| ch n] |]; try (cbn; discriminate).
  intros _. eexists. cbn [fst]. rewrite createLog_categories.
  cbn [withCategories categories].
  split; [reflexivity |].
  pose proof (maxOrder_bound (categories st)) as Hb.
  assert (Hkey : JS.add match maxOrder (categories st) with
                        | Some m => m
                        | None => 0%Z
                        end 1
                 = (match maxOrder (categories st) with
                    | Some m => m
                    | None => 0
                    end + 1)%Z).
  { apply roundToDouble_exact.
    destruct (maxOrder (categories st)) as [m |] eqn:Em; [| cbn; lia].
    apply maxOrder_In in Em as (c & Hc & <-).
    specialize (Hsafe c Hc). unfold JS.maxSafeInteger in Hsafe. lia. }
  assert (Hlt : forall x, In x (categories st) ->
             (Category.order x <
              JS.add match maxOrder (categories st) with
                     | Some m => m
                     | None => 0%Z
                     end 1)%Z).
  { intros x Hx. rewrite Hkey.
    destruct (maxOrder (categories st)) as [m |].
    - specialize (Hb x Hx). lia.
    - rewrite Hb in Hx. destruct Hx. }
  cbn [Category.order]. split; [exact Hlt | split; [| split]].
  - intros E. rewrite E. reflexivity.
  - now apply sortByOrder_last.
  - intros Hnd. rewrite map_app. cbn [map Category.order].
    apply NoDup_snoc; [assumption |].
    intros Hin. apply in_map_iff in Hin as (x & Hx & Hin).
    specialize (Hlt x Hin). lia.
Qed.

(** Every donation that names a category names a stored one. *)
Definition referencesHold (st : State) : Prop :=
  forall d s,
    In d (donations st) -> resolvedId (Donation.categoryId d) = Some s ->
    exists c, In c (categories st) /\ idOf c = s.

Lemma removeCategoryById_keeps (i : ObjectId) (l : list Category.t)
    (c : Category.t) :
  In c l -> idOf c <> hexString i -> In c (removeCategoryById i l).
Proof.
  intros Hin Hne. induction l as [| x l IH]; cbn; [destruct Hin |].
  destruct (sameId (Category._id x) i) eqn:E.
  - destruct Hin as [-> | Hin]; [| assumption].
    apply sameId_true in E. contradiction.
  - destruct Hin as [-> | Hin]; [now left | right; now apply IH].
Qed.

(** The deletion of a category is refused, with the number of the
    donations that reference it and without any change, as long as there
    is such a donation. *)
Theorem referenced_category_is_kept (idParam : string) (req : Request)
    (st : State) (i : ObjectId) (d : Donation.t) :
  castObjectId idParam = Some i ->
  In d (donations st) ->
  resolvedId (Donation.categoryId d) = Some (hexString i) ->
  exists n,
    (0 < n)%nat /\
    n = length (filter (fun d => inCategory (hexString i)
                                   (Donation.categoryId d))
                       (donations st)) /\
    deleteCategory idParam req st = (st, respond 400 (CannotDelete n)).
Proof.
  intros Hc Hin Hr. unfold deleteCategory. rewrite Hc.
  set (n := length _).
  assert (Hn : (0 < n)%nat).
  { subst n. assert (Hd : In d (filter (fun d => inCategory (hexString i)
                                           (Donation.categoryId d))
                               (donations st))).
    { apply filter_In. split; [assumption |].
      unfold inCategory. rewrite Hr. apply String.eqb_refl. }
    destruct (filter _ _); [destruct Hd | cbn; lia]. }
  exists n. split; [assumption | split; [reflexivity |]].
  apply Nat.ltb_lt in Hn. now rewrite Hn.
Qed.

(** No deletion of a category leaves a donation with a reference to a
    category that is not stored. *)
Theorem category_deletion_keeps_references (idParam : string)
    (req : Request) (st : State) :
  referencesHold st ->
  referencesHold (fst (deleteCategory idParam req st)).
Proof.
  intros Href. unfold deleteCategory.
  destruct (castObjectId idParam) as [i |]; [| exact Href].
  destruct (0 <? length _)%nat eqn:En; [exact Href |].
  destruct (findCategory i (categories st)) as [c |]; [| exact Href].
  cbn [fst]. intros d s Hd Hs.
  cbn [withCategories donations categories] in *.
  rewrite createLog_donations in Hd. rewrite createLog_categories.
  destruct (Href d s Hd Hs) as (c' & Hc' & Hid).
  exists c'. split; [| assumption].
  apply removeCategoryById_keeps; [assumption |].
  intros E. apply Nat.ltb_ge in En.
  assert (Hin : In d (filter (fun d => inCategory (hexString i)
                                          (Donation.categoryId d))
                             (donations st))).
  { apply filter_In. split; [assumption |].
    unfold inCategory. rewrite Hs, <- Hid, E. apply String.eqb_refl. }
  destruct (filter _ _); [destruct Hin | cbn in En; lia].
Qed.

(** ** Approval *)

Lemma updateDonationById_twice (i : ObjectId) (f : Donation.t -> Donation.t)
    (l : list Donation.t) :
  (forall d, Donation._id (f d) = Donation._id d) ->
  (forall d, f (f d) = f d) ->
  updateDonationById i f (updateDonationById i f l)
    = updateDonationById i f l.
Proof.
  intros Hid Hf. induction l as [| d l IH]; cbn; [reflexivity |].
  destruct (sameId (Donation._id d) i) eqn:E; cbn.
  - now rewrite Hid, E, Hf.
  - now rewrite E, IH.
Qed.

Lemma updateDonationById_absent (i : ObjectId) (f : Donation.t -> Donation.t)
    (l : list Donation.t) :
  findDonation i l = None -> updateDonationById i f l = l.
Proof.
  unfold findDonation. induction l as [| x l IH]; cbn; [reflexivity |].
  destruct (sameId (Donation._id x) i); [discriminate |].
  intros H. now rewrite IH.
Qed.

Lemma setStatus_keeps_fields (i : ObjectId) (s : Status)
    (l : list Donation.t) :
  map (fun d => (Donation._id d, Donation.donorName d, Donation.amount d,
                 Donation.date d, Donation.categoryId d, Donation.notes d))
      (updateDonationById i (setStatus s) l)
  = map (fun d => (Donation._id d, Donation.donorName d, Donation.amount d,
                   Donation.date d, Donation.categoryId d, Donation.notes d))
        l.
Proof.
  induction l as [| x l IH]; cbn [updateDonationById map]; [reflexivity |].
  destruct (sameId (Donation._id x) i); cbn [map]; [reflexivity |].
  f_equal. exact IH.
Qed.

(** Approval sets the status of the donation it names and nothing else:
    that donation is found approved afterwards, with its name, amount,
    date, category and notes; every other id is found as before, with the
    same document; approving again changes no donation (it is logged
    again). *)
Theorem approval_sets_only_the_status (idParam : string)
    (req req' : Request) (st : State) (i : ObjectId) :
  castObjectId idParam = Some i ->
  let st' := fst (approveDonation idParam req st) in
  (forall d,
     findDonation i (donations st) = Some d ->
     exists d',
       findDonation i (donations st') = Some d' /\
       Donation.status d' = approved /\
       (Donation._id d', Donation.donorName d', Donation.amount d',
        Donation.date d', Donation.categoryId d', Donation.notes d')
       = (Donation._id d, Donation.donorName d, Donation.amount d,
          Donation.date d, Donation.categoryId d, Donation.notes d)) /\
  (forall j,
     sameId j i = false ->
     findDonation j (donations st') = findDonation j (donations st)) /\
  (findDonation i (donations st) = None -> donations st' = donations st) /\
  map (fun d => (Donation._id d, Donation.donorName d, Donation.amount d,
                 Donation.date d, Donation.categoryId d, Donation.notes d))
      (donations st')
  = map (fun d => (Donation._id d, Donation.donorName d, Donation.amount d,
                   Donation.date d, Donation.categoryId d, Donation.notes d))
        (donations st) /\
  categories st' = categories st /\
  donations (fst (approveDonation idParam req' st')) = donations st'.
Proof.
  intros Hc. cbv zeta.
  assert (Hst : donations (fst (approveDonation idParam req st))
                = updateDonationById i (setStatus approved) (donations st)).
  { unfold approveDonation. rewrite Hc.
    destruct (findDonation i (donations st)) as [d |] eqn:Hf;
      cbn [fst].
    - now rewrite createLog_donations.
    - now rewrite updateDonationById_absent. }
  set (st1 := fst (approveDonation idParam req st)) in *.
  split; [| split; [| split; [| split; [| split]]]].
  - rewrite Hst. intros d Hd.
    rewrite findDonation_update, Hd by reflexivity. cbn [option_map].
    assert (E : sameId (Donation._id d) i = true)
      by (unfold findDonation in Hd; now apply find_some in Hd).
    rewrite E. eexists. split; [reflexivity |]. now split.
  - rewrite Hst. intros j Hj.
    rewrite findDonation_update by reflexivity.
    destruct (findDonation j (donations st)) as [d |] eqn:Hd;
      [| reflexivity].
    cbn [option_map]. unfold findDonation in Hd.
    apply find_some in Hd as [_ Hd].
    destruct (sameId (Donation._id d) i) eqn:E; [| reflexivity].
    apply sameId_true in Hd, E. exfalso.
    assert (Hji : sameId j i = true) by (apply sameId_true; congruence).
    congruence.
  - intros Hn. rewrite Hst. now apply updateDonationById_absent.
  - rewrite Hst. apply setStatus_keeps_fields.
  - subst st1. unfold approveDonation. rewrite Hc.
    destruct (findDonation i (donations st)); cbn [fst];
      [now rewrite createLog_categories | reflexivity].
  - unfold approveDonation. rewrite Hc.
    destruct (findDonation i (donations st1)); cbn [fst];
      [| reflexivity].
    rewrite createLog_donations. cbn [withDonations donations].
    rewrite Hst. now apply updateDonationById_twice.
Qed.

(** ** The donation form of the front end *)

(** The fields [handleDonationSubmit] reads from the form. *)
Record DonationForm := {
  formId : string;          (* hidden field: empty for a new donation *)
  formDonorName : string;
  formAmount : option Z;    (* [parseInt] of the amount: [None] is [NaN] *)
  formDate : option Z;      (* date input: [None] is the empty value *)
  formCategory : string;
  formNotes : string
}.

Section DonationForms.

Variable trim : string -> string.

(** [donationData], as [JSON.stringify] sends it ([NaN] becomes
    [null]). *)
Definition donationData (f : DonationForm) : Body.t :=
  {| Body.donorName := Some (trim (formDonorName f));
     Body.amount := Some (formAmount f);
     Body.date :=
       match formDate f with
       | Some ms => Body.DateGiven ms
       | None => Body.DateEmpty
       end;
     Body.categoryId := Some (formCategory f);
     Body.notes := Some (trim (formNotes f));
     Body.status := None;
     Body.name := None; Body.order := None; Body.orders := None |}.

(** The request [handleDonationSubmit] sends: an update when the form
    carries an id, a creation otherwise. *)
Definition submitRequest (f : DonationForm) : Request :=
  match formId f with
  | EmptyString => apiRequest POST ["api"; "donations"] (donationData f)
  | id => apiRequest PUT ["api"; "donations"; id] (donationData f)
  end.

(** The server state after [handleDonationSubmit]. *)
Definition handleDonationSubmit (env : Env) (f : DonationForm) (st : State)
  : State :=
  match serve env (submitRequest f) st with
  | Some result => fst result
  | None => st
  end.

Lemma statusOf_snoc (i : ObjectId) (st : State) (d : Donation.t) :
  statusOf i (withDonations (donations st ++ [d]) st) =
  match statusOf i st with
  | Some s => Some s
  | None => if sameId (Donation._id d) i then Some (Donation.status d)
            else None
  end.
Proof.
  unfold statusOf. cbn [withDonations donations].
  rewrite findDonation_snoc.
  destruct (findDonation i (donations st)); [reflexivity |].
  now destruct (sameId (Donation._id d) i).
Qed.

Lemma statusOf_createLog (i : ObjectId) (req : Request) (a e : string)
    (x : option string) (st : State) :
  statusOf i (createLog req a e x st) = statusOf i st.
Proof.
  unfold statusOf. now rewrite createLog_donations.
Qed.

(** Whoever is logged in, submitting the donation form never stores a
    pending donation and never changes the status of a stored one: the
    request carries neither a status nor the headers that name a
    sub-admin, and what it logs is attributed to the admin. *)
Theorem form_submission_never_pends (env : Env) (f : DonationForm)
    (st : State) :
  (forall i s,
     statusOf i st = Some s ->
     statusOf i (handleDonationSubmit env f st) = Some s) /\
  (forall i,
     statusOf i st = None ->
     statusOf i (handleDonationSubmit env f st) = None \/
     statusOf i (handleDonationSubmit env f st) = Some approved) /\
  exists extra,
    logs (handleDonationSubmit env f st) = (logs st ++ extra)%list /\
    Forall (fun e => user e = "admin" /\ userType e = admin) extra.
Proof.
  unfold handleDonationSubmit, submitRequest.
  assert (Hnil : exists extra,
             logs st = (logs st ++ extra)%list /\
             Forall (fun e => user e = "admin" /\ userType e = admin) extra)
    by (exists []; now rewrite app_nil_r).
  destruct (formId f) as [| c id].
  - replace (serve env (apiRequest POST ["api"; "donations"] (donationData f))
               st)
      with (Some (createDonation env
                    (apiRequest POST ["api"; "donations"] (donationData f))
                    st))
      by reflexivity.
    unfold createDonation, saveDonation. cbn [xUserType apiRequest headerOr].
    replace ("admin" =? "subadmin") with false by reflexivity.
    cbn [body apiRequest].
    destruct (newDonation env (donationData f) approved) as [d |] eqn:En;
      cbn [fst].
    + apply newDonation_status in En as (Hs & _).
      split; [| split].
      * intros i s Hi. now rewrite statusOf_createLog, statusOf_snoc, Hi.
      * intros i Hi. rewrite statusOf_createLog, statusOf_snoc, Hi, Hs.
        destruct (sameId (Donation._id d) i); [now right | now left].
      * rewrite createLog_logs. cbn [withDonations logs].
        eexists. split; [reflexivity |].
        unfold logExtra. cbn. repeat constructor.
    + repeat split; auto.
  - replace (serve env
               (apiRequest PUT ["api"; "donations"; String c id]
                  (donationData f)) st)
      with (Some (updateDonation (String c id)
                    (apiRequest PUT ["api"; "donations"; String c id]
                       (donationData f)) st))
      by reflexivity.
    unfold updateDonation. cbn [body apiRequest].
    destruct (castObjectId (String c id)) as [j |];
      [| cbn [fst]; repeat split; auto].
    destruct (castPatch (donationData f)) as [p |] eqn:Ep;
      [| cbn [fst]; repeat split; auto].
    destruct (findDonation j (donations st)) as [old |];
      [| cbn [fst]; repeat split; auto].
    assert (Hst : forall i,
               statusOf i
                 (createLog
                    {| method := PUT;
                       path := ["api"; "donations"; String c id];
                       xUser := None; xUserType := None;
                       body := donationData f |}
                    "EDIT" "DONATION" (Some (hexString j))
                    (withDonations (updateDonationById j p (donations st)) st))
               = statusOf i st).
    { intros i. rewrite statusOf_createLog. unfold statusOf.
      cbn [withDonations donations].
      rewrite findDonation_update
        by (intros d; apply (castPatch_fields _ _ Ep)).
      destruct (findDonation i (donations st)) as [d |]; [| reflexivity].
      cbn. destruct (sameId (Donation._id d) j); [| reflexivity].
      now destruct (castPatch_fields _ _ Ep d) as [_ ->]. }
    cbn [fst]. split; [| split].
    + intros i s Hi. now rewrite Hst.
    + intros i Hi. left. now rewrite Hst.
    + rewrite createLog_logs. cbn [withDonations logs].
      eexists. split; [reflexivity |].
      unfold logExtra. cbn. repeat constructor.
Qed.

End DonationForms.

(** ** Statistics and the public list *)

(** The payload of [GET /api/stats]. *)
Record Stats := {
  totalDonors : nat;
  totalAmount : Z;
  totalCategories : nat
}.

Lemma sumZ_perm (l l' : list Z) : Permutation l l' -> sumZ l = sumZ l'.
Proof.
  unfold sumZ. induction 1; cbn; lia.
Qed.

Lemma sumZ_filter_split {A : Type} (w : A -> Z) (p : A -> bool)
    (l : list A) :
  sumZ (map w l)
    = (sumZ (map w (filter p l))
       + sumZ (map w (filter (fun x => negb (p x)) l)))%Z.
Proof.
  unfold sumZ. induction l as [| x l IH]; cbn; [reflexivity |].
  destruct (p x); cbn; lia.
Qed.

Section PublicTotals.

Variables toLowerCase trim : string -> string.

(** [$sum: '$amount'] is computed by MongoDB (integer and compensated
    double summation, [null] skipped).  All that is used of it: while the
    magnitudes add up to a safe integer, the result is the mathematical
    sum. *)
Variable mongoSum : list (option Z) -> Z.

Hypothesis mongoSum_exact :
  forall amounts,
    (sumZ (map (fun a => match a with Some z => Z.abs z | None => 0%Z end)
            amounts) <= JS.maxSafeInteger)%Z ->
    mongoSum amounts
      = sumZ (map (fun a => match a with Some z => z | None => 0%Z end)
                amounts).

(** [app.get('/api/stats')]: an empty collection gives no group, and
    [totalAmount[0]?.total || 0] is 0. *)
Definition getStats (st : State) : Stats :=
  {| totalDonors := length (donations st);
     totalAmount :=
       match donations st with
       | [] => 0%Z
       | _ => mongoSum (map Donation.amount (donations st))
       end;
     totalCategories := length (categories st) |}.

(** The headline figures count every stored donation record, approved or
    pending: within the safe integers the total amount is the sum of the
    totals of the public list plus the amounts of the pending donations,
    and "donors" is the number of records. *)
Theorem stats_include_pending (st : State) (cache : list Donation.t) :
  Permutation cache (map (populate (categories st)) (donations st)) ->
  (sumZ (map (fun d => match Donation.amount d with
                       | Some a => Z.abs a
                       | None => 0%Z
                       end) (donations st)) <= JS.maxSafeInteger)%Z ->
  totalAmount (getStats st) =
    (sumZ (map Donor.amount
             (groupDonationsByName toLowerCase trim
                (filter (fun d => isApproved (Donation.status d)) cache)))
     + sumZ (map (fun d => match Donation.amount d with
                           | Some a => a
                           | None => 0%Z
                           end)
               (filter (fun d => negb (isApproved (Donation.status d)))
                       cache)))%Z /\
  totalDonors (getStats st) = length cache.
Proof.
  intros Hp Hb. split.
  - assert (Ht : totalAmount (getStats st)
                 = sumZ (map (fun d => amountOr0 (Donation.amount d))
                           (donations st))).
    { cbn [getStats totalAmount].
      destruct (donations st) as [| d ds] eqn:E; [reflexivity |].
      rewrite <- E, mongoSum_exact by (rewrite map_map, E; exact Hb).
      now rewrite map_map. }
    rewrite <- magnitudes_read in Hb.
    assert (Hbc : (sumZ (map (fun d => Z.abs (amountOr0 (Donation.amount d)))
                           cache) <= JS.maxSafeInteger)%Z).
    { rewrite (sumZ_perm _ _ (Permutation_map _ Hp)), map_map.
      exact Hb. }
    rewrite grouped_totals_exact
      by (pose proof (magnitudes_selection
                        (fun d => isApproved (Donation.status d)) cache);
          lia).
    change (fun d => match Donation.amount d with
                     | Some a => a
                     | None => 0%Z
                     end)
      with (fun d => amountOr0 (Donation.amount d)).
    rewrite <- sumZ_filter_split, Ht.
    rewrite (sumZ_perm _ _ (Permutation_map _ Hp)), map_map.
    reflexivity.
  - cbn [getStats totalDonors].
    now rewrite (Permutation_length Hp), length_map.
Qed.

(** Populating a donation whose category is stored changes neither its
    group key nor its category; a donation whose category is not stored
    is keyed ["unknown"] and counts for no category. *)
Theorem populated_key (cats : list Category.t) (d : Donation.t)
    (i : ObjectId) :
  Donation.categoryId d = RefId i ->
  (forall c, findCategory i cats = Some c ->
     Donation.categoryId (populate cats d) = RefDoc c /\
     nameKey toLowerCase trim (populate cats d) = nameKey toLowerCase trim d /\
     resolvedId (Donation.categoryId (populate cats d))
       = resolvedId (Donation.categoryId d)) /\
  (findCategory i cats = None ->
     nameKey toLowerCase trim (populate cats d)
       = toLowerCase (trim (Donation.donorName d)) ++ "_unknown" /\
     forall id, inCategory id (Donation.categoryId (populate cats d)) = false).
Proof.
  intros Hd. unfold nameKey, populate, refKey.
  cbn [Donation.categoryId Donation.donorName]. rewrite Hd. split.
  - intros c Hc. rewrite Hc. cbn [resolvedId].
    apply find_some in Hc as [_ Hc]. apply sameId_true in Hc.
    rewrite Hc. repeat split; reflexivity.
  - intros Hc. rewrite Hc. split; reflexivity.
Qed.

End PublicTotals.

(** [store0] with a pending donation of Sita beside the approved one of
    Ram. *)
Definition store1 : State :=
  {| donations :=
       (donations store0 ++
        [ {| Donation._id := oid3; Donation.donorName := "Sita";
             Donation.amount := Some 251%Z;
             Donation.date := DateISO 1705363200000;
             Donation.categoryId := RefId oid1; Donation.notes := "";
             Donation.status := pending |} ])%list;
     categories := categories store0;
     subAdmins := subAdmins store0;
     logs := [] |}.

(** The mathematical sum, [null] skipped: what [$sum] gives on safe
    integers. *)
Definition exactSum (amounts : list (option Z)) : Z :=
  sumZ (map (fun a => match a with Some z => z | None => 0%Z end) amounts).

Lemma stats_include_pending_witness :
  totalAmount (getStats exactSum store1) = 751%Z /\
  sumZ (map Donor.amount
          (groupDonationsByName JS.asciiLowerCase JS.asciiTrim
             (filter (fun d => isApproved (Donation.status d))
                (map (populate (categories store1)) (donations store1)))))
    = 500%Z /\
  totalAmount (getStats exactSum store1) =
    (sumZ (map Donor.amount
             (groupDonationsByName JS.asciiLowerCase JS.asciiTrim
                (filter (fun d => isApproved (Donation.status d))
                   (map (populate (categories store1)) (donations store1)))))
     + sumZ (map (fun d => match Donation.amount d with
                           | Some a => a
                           | None => 0%Z
                           end)
               (filter (fun d => negb (isApproved (Donation.status d)))
                  (map (populate (categories store1)) (donations store1)))))%Z
  /\ totalDonors (getStats exactSum store1)
     = length (map (populate (categories store1)) (donations store1)).
Proof.
  split; [reflexivity | split; [reflexivity |]].
  apply (stats_include_pending JS.asciiLowerCase JS.asciiTrim exactSum
           (fun amounts _ => eq_refl) store1).
  - apply Permutation_refl.
  - vm_compute. discriminate.
Defined.

(** ** Moves and the batch handler *)

Lemma exchange_names (x y : Category.t) (l : list Category.t) :
  map Category.name (map (exchange x y) l) = map Category.name l.
Proof.
  rewrite map_map. apply map_ext. intros c. unfold exchange.
  now destruct (hasId (idOf x) c), (hasId (idOf y) c).
Qed.

Lemma swap_keeps_keys (cats l1 : list Category.t) (a b : Category.t)
    (l2 : list Category.t) :
  NoDup (map idOf cats) ->
  Permutation (l1 ++ a :: b :: l2) cats ->
  idOf a <> idOf b /\
  Permutation (map Category.order (map (exchange b a) cats))
              (map Category.order cats).
Proof.
  intros Hnd Hp.
  assert (HndL : NoDup (map idOf (l1 ++ a :: b :: l2))).
  { eapply Permutation_NoDup; [| exact Hnd].
    apply Permutation_map. now symmetry. }
  split; [now destruct (ids_apart _ _ _ _ HndL) |].
  transitivity (map Category.order (map (exchange b a) (l1 ++ a :: b :: l2))).
  - apply Permutation_map, Permutation_map. now symmetry.
  - rewrite (exchange_listing _ _ _ _ HndL).
    transitivity (map Category.order (l1 ++ a :: b :: l2));
      [| now apply Permutation_map].
    rewrite !map_app. cbn [map Category.order setOrder].
    apply Permutation_app_head, perm_swap.
Qed.

Lemma two_members {A : Type} (x y : A) (l : list A) :
  In x l -> In y l -> x <> y -> exists rest, Permutation (y :: x :: rest) l.
Proof.
  intros Hx Hy Hne.
  apply in_split in Hx as (l1 & l2 & ->).
  assert (Hy' : In y (l1 ++ l2)).
  { apply in_app_or in Hy as [Hy | [Hy | Hy]];
      [apply in_or_app; now left | congruence | apply in_or_app; now right]. }
  apply in_split in Hy' as (m1 & m2 & E).
  exists (m1 ++ m2)%list.
  transitivity (x :: y :: m1 ++ m2); [apply perm_swap |].
  transitivity (x :: l1 ++ l2); [| apply Permutation_middle].
  apply perm_skip. rewrite E. apply Permutation_middle.
Qed.

(** The reorder handler, handed the two assignments of a swap as
    [moveCategoryUp] and [moveCategoryDown] build them ([x] takes the key
    of [y], [y] that of [x]) for two stored categories, carries out
    exactly that exchange: the two categories hold each other's key,
    every other category is as it was, the keys in use are the same, ids
    and names stay where they are, and the answer is the new listing. *)
Theorem reorder_swap_exchanges_keys (req : Request) (st : State)
    (x y : Category.t) :
  NoDup (map idOf (categories st)) ->
  In x (categories st) -> In y (categories st) -> idOf x <> idOf y ->
  Body.orders (body req) = Some (swapOf x y) ->
  let st' := fst (reorderCategories req st) in
  snd (reorderCategories req st)
    = respond 200 (CategoryList (sortByOrder (categories st'))) /\
  In (setOrder (Category.order y) x) (categories st') /\
  In (setOrder (Category.order x) y) (categories st') /\
  (forall c, In c (categories st) ->
     idOf c <> idOf x -> idOf c <> idOf y -> In c (categories st')) /\
  Permutation (map Category.order (categories st'))
              (map Category.order (categories st)) /\
  map idOf (categories st') = map idOf (categories st) /\
  map Category.name (categories st') = map Category.name (categories st) /\
  donations st' = donations st /\ logs st' = logs st.
Proof.
  intros Hnd Hx Hy Hne Ho. cbv zeta.
  assert (Hr : reorderCategories req st
               = (withCategories (map (exchange x y) (categories st)) st,
                  respond 200
                    (CategoryList
                       (sortByOrder (map (exchange x y) (categories st)))))).
  { unfold reorderCategories. rewrite Ho.
    now rewrite applyOrders_swap. }
  rewrite Hr. cbn [fst snd withCategories categories donations logs].
  assert (Hxx : hasId (idOf x) x = true) by now apply hasId_true.
  assert (Hyy : hasId (idOf y) y = true) by now apply hasId_true.
  assert (Hxy : hasId (idOf x) y = false)
    by (apply hasId_false; congruence).
  split; [reflexivity | split; [| split; [| split; [| split]]]].
  - apply in_map_iff. exists x. split; [| assumption].
    unfold exchange. now rewrite Hxx.
  - apply in_map_iff. exists y. split; [| assumption].
    unfold exchange. now rewrite Hxy, Hyy.
  - intros c Hc Hcx Hcy. apply in_map_iff. exists c.
    split; [| assumption]. unfold exchange.
    apply hasId_false in Hcx, Hcy. now rewrite Hcx, Hcy.
  - assert (Hxyne : x <> y) by congruence.
    destruct (two_members x y (categories st) Hx Hy Hxyne) as [rest Hp].
    now destruct (swap_keeps_keys (categories st) [] y x rest Hnd Hp).
  - rewrite map_exchange_ids, exchange_names. now repeat split.
Qed.

Lemma updateCategoryById_names (i : ObjectId) (o : Z) (l : list Category.t) :
  map Category.name (updateCategoryById i (setOrder o) l)
    = map Category.name l.
Proof.
  induction l as [| c l IH]; cbn; [reflexivity |].
  destruct (sameId (Category._id c) i); cbn; [reflexivity | now rewrite IH].
Qed.

Lemma applyOrders_keeps (os : list Body.OrderItem) (cats : list Category.t) :
  map idOf (fst (applyOrders os cats)) = map idOf cats /\
  map Category.name (fst (applyOrders os cats)) = map Category.name cats.
Proof.
  revert cats. induction os as [| item os IH]; intros cats; cbn;
    [now split |].
  destruct (castObjectId (Body.id item)) as [i |]; [| now split].
  destruct (IH (updateCategoryById i (setOrder (Body.newOrder item)) cats))
    as [H1 H2].
  rewrite H1, H2, updateCategoryById_ids, updateCategoryById_names
    by reflexivity.
  now split.
Qed.

(** Whatever assignments it is sent, the batch handler changes order keys
    only: the categories keep their ids and names and their place in the
    collection; donations and log are not touched. *)
Theorem reorder_changes_keys_only (req : Request) (st : State) :
  map idOf (categories (fst (reorderCategories req st)))
    = map idOf (categories st) /\
  map Category.name (categories (fst (reorderCategories req st)))
    = map Category.name (categories st) /\
  donations (fst (reorderCategories req st)) = donations st /\
  logs (fst (reorderCategories req st)) = logs st.
Proof.
  unfold reorderCategories.
  destruct (Body.orders (body req)) as [os |]; [| now repeat split].
  destruct (applyOrders_keeps os (categories st)) as [H1 H2].
  destruct (applyOrders os (categories st)) as [cats ok].
  cbn [fst] in H1, H2.
  destruct ok; cbn [fst withCategories categories donations logs];
    now repeat split.
Qed.

Lemma applyOrders_app (good more : list Body.OrderItem)
    (cats : list Category.t) :
  (forall item, In item good -> castObjectId (Body.id item) <> None) ->
  snd (applyOrders good cats) = true /\
  applyOrders (good ++ more) cats
    = applyOrders more (fst (applyOrders good cats)).
Proof.
  revert cats. induction good as [| item good IH]; intros cats Hg; cbn;
    [now split |].
  destruct (castObjectId (Body.id item)) as [i |] eqn:E.
  - apply IH. intros x Hx. apply Hg. now right.
  - exfalso. apply (Hg item); [now left | assumption].
Qed.

(** The batch is not atomic: at the first id that does not cast the
    handler stops and answers 400, with the assignments before it applied
    and those after it dropped. *)
Theorem reorder_stops_at_bad_id (req : Request) (st : State)
    (good rest : list Body.OrderItem) (bad : Body.OrderItem) :
  Body.orders (body req) = Some (good ++ bad :: rest)%list ->
  (forall item, In item good -> castObjectId (Body.id item) <> None) ->
  castObjectId (Body.id bad) = None ->
  reorderCategories req st
    = (withCategories (fst (applyOrders good (categories st))) st,
       respond 400 (ErrorMessage CastError)).
Proof.
  intros Ho Hg Hb. unfold reorderCategories. rewrite Ho.
  destruct (applyOrders_app good (bad :: rest) (categories st) Hg)
    as [_ ->].
  cbn [applyOrders]. now rewrite Hb.
Qed.

(** ** The properties on concrete stores *)

Definition env4 : Env := {| newId := oid4; now := 1705363200000 |}.

(** A delete request for a donation that is not stored. *)
Definition deletesUnknown : Request :=
  apiRequest DELETE ["api"; "donations"; hexString oid3] Body.empty.

(** The body of a donation form: Sita gives 251 to the category of
    [store0]. *)
Definition sitaBody : Body.t :=
  {| Body.donorName := Some "Sita"; Body.amount := Some (Some 251%Z);
     Body.date := Body.DateGiven 1705363200000;
     Body.categoryId := Some (hexString oid1);
     Body.notes := Some ""; Body.status := None; Body.name := None;
     Body.order := None; Body.orders := None |}.

Definition createsSita : Request :=
  apiRequest POST ["api"; "donations"] sitaBody.

Definition nameBody (n : string) : Body.t :=
  {| Body.donorName := None; Body.amount := None;
     Body.date := Body.DateAbsent; Body.categoryId := None;
     Body.notes := None; Body.status := None; Body.name := Some n;
     Body.order := None; Body.orders := None |}.

Definition createsCategory : Request :=
  apiRequest POST ["api"; "categories"] (nameBody "Mandir").

Definition deletesCategory1 : Request :=
  apiRequest DELETE ["api"; "categories"; hexString oid1] Body.empty.

Lemma store0_donation_ids : NoDup (map donationId (donations store0)).
Proof. repeat constructor. cbn. tauto. Qed.

Lemma store0_category_ids : NoDup (map idOf (categories store0)).
Proof. repeat constructor. cbn. tauto. Qed.

Lemma oid4_not_a_donation :
  ~ In (hexString (newId env4)) (map donationId (donations store0)).
Proof. cbn. intros [H | []]. discriminate H. Qed.

Lemma oid4_not_a_category :
  ~ In (hexString (newId env4)) (map idOf (categories store0)).
Proof. cbn. intros [H | []]. discriminate H. Qed.

Lemma log_is_append_only_witness :
  exists extra,
    logs (fst (deleteDonation (hexString oid2) raviDeletes store0))
      = (logs store0 ++ extra)%list /\
    (length extra <= 1)%nat /\
    (responseOk (snd (deleteDonation (hexString oid2) raviDeletes store0))
       = false -> extra = []).
Proof.
  apply (log_is_append_only env4 raviDeletes store0). now vm_compute.
Defined.

Lemma failed_request_changes_nothing_witness :
  fst (deleteDonation (hexString oid3) deletesUnknown store0) = store0.
Proof.
  apply (failed_request_changes_nothing env4 deletesUnknown store0 _
           (snd (deleteDonation (hexString oid3) deletesUnknown store0)));
    now vm_compute.
Defined.

Lemma ids_stay_distinct_witness :
  NoDup (map donationId (donations (fst (createDonation env4 createsSita
                                           store0)))) /\
  NoDup (map idOf (categories (fst (createDonation env4 createsSita
                                      store0)))).
Proof.
  apply (ids_stay_distinct env4 createsSita store0 _
           (snd (createDonation env4 createsSita store0))).
  - exact store0_donation_ids.
  - exact store0_category_ids.
  - exact oid4_not_a_donation.
  - exact oid4_not_a_category.
  - now vm_compute.
Defined.

Lemma delete_then_lookup_witness :
  findDonation oid2
    (donations (fst (deleteDonation (hexString oid2) raviDeletes store0)))
    = None /\
  S (length (donations
               (fst (deleteDonation (hexString oid2) raviDeletes store0))))
    = length (donations store0).
Proof.
  destruct (delete_then_lookup (hexString oid2) raviDeletes store0 oid2
              {| Donation._id := oid2; Donation.donorName := "Ram";
                 Donation.amount := Some 500%Z;
                 Donation.date := DateISO 1705276800000;
                 Donation.categoryId := RefId oid1; Donation.notes := "";
                 Donation.status := approved |})
    as (H1 & _ & H3 & _).
  - exact store0_donation_ids.
  - now vm_compute.
  - now vm_compute.
  - split; [exact H1 | exact H3].
Defined.

Lemma create_then_lookup_witness :
  exists d,
    findDonation (newId env4)
      (donations (fst (createDonation env4 createsSita store0))) = Some d /\
    Donation._id d = newId env4 /\
    Donation.categoryId d <> RefNull /\
    payload (snd (createDonation env4 createsSita store0))
      = DonationJson (populate (categories store0) d) /\
    forall j x,
      findDonation j (donations store0) = Some x ->
      findDonation j (donations (fst (createDonation env4 createsSita
                                        store0))) = Some x.
Proof.
  apply (create_then_lookup env4 createsSita store0).
  - exact oid4_not_a_donation.
  - reflexivity.
Defined.

Lemma new_category_is_listed_last_witness :
  exists c,
    categories (fst (createCategory env4 createsCategory store0))
      = (categories store0 ++ [c])%list /\
    (forall x, In x (categories store0) ->
       (Category.order x < Category.order c)%Z) /\
    (categories store0 = [] -> Category.order c = 1%Z) /\
    sortByOrder (categories (fst (createCategory env4 createsCategory
                                    store0)))
      = (sortByOrder (categories store0) ++ [c])%list /\
    (NoDup (map Category.order (categories store0)) ->
     NoDup (map Category.order
              (categories (fst (createCategory env4 createsCategory
                                  store0))))).
Proof.
  apply (new_category_is_listed_last env4 createsCategory store0).
  - intros x [<- | []]. vm_compute. discriminate.
  - reflexivity.
Defined.

Lemma referenced_category_is_kept_witness :
  exists n,
    (0 < n)%nat /\
    n = length (filter (fun d => inCategory (hexString oid1)
                                   (Donation.categoryId d))
                       (donations store0)) /\
    deleteCategory (hexString oid1) deletesCategory1 store0
      = (store0, respond 400 (CannotDelete n)).
Proof.
  apply (referenced_category_is_kept (hexString oid1) deletesCategory1
           store0 oid1
           {| Donation._id := oid2; Donation.donorName := "Ram";
              Donation.amount := Some 500%Z;
              Donation.date := DateISO 1705276800000;
              Donation.categoryId := RefId oid1; Donation.notes := "";
              Donation.status := approved |}).
  - now vm_compute.
  - now left.
  - reflexivity.
Defined.

Lemma store0_references : referencesHold store0.
Proof.
  intros d s [<- | []] Hs. cbn in Hs. injection Hs as <-.
  exists category1. split; [now left | reflexivity].
Qed.

Lemma category_deletion_keeps_references_witness :
  referencesHold
    (fst (deleteCategory (hexString oid1) deletesCategory1 store0)).
Proof.
  apply category_deletion_keeps_references. exact store0_references.
Defined.

Definition approvesSita : Request :=
  apiRequest PUT ["api"; "donations"; hexString oid3; "approve"] Body.empty.

Lemma approval_sets_only_the_status_witness :
  statusOf oid3 store1 = Some pending /\
  (exists d',
     findDonation oid3
       (donations (fst (approveDonation (hexString oid3) approvesSita
                          store1))) = Some d' /\
     Donation.status d' = approved /\
     Donation.amount d' = Some 251%Z) /\
  findDonation oid2
    (donations (fst (approveDonation (hexString oid3) approvesSita store1)))
  = findDonation oid2 (donations store1).
Proof.
  destruct (approval_sets_only_the_status (hexString oid3) approvesSita
              approvesSita store1 oid3)
    as (Hnamed & Hothers & _).
  - now vm_compute.
  - split; [reflexivity | split].
    + destruct (Hnamed
                  {| Donation._id := oid3; Donation.donorName := "Sita";
                     Donation.amount := Some 251%Z;
                     Donation.date := DateISO 1705363200000;
                     Donation.categoryId := RefId oid1; Donation.notes := "";
                     Donation.status := pending |} eq_refl)
        as (d' & Hf & Hs & Hfields).
      exists d'. split; [exact Hf | split; [exact Hs |]].
      now injection Hfields as _ _ -> _ _ _.
    + apply Hothers. reflexivity.
Defined.

Lemma populated_key_witness :
  nameKey JS.asciiLowerCase JS.asciiTrim
    (populate [category1]
       {| Donation._id := oid2; Donation.donorName := "Ram";
          Donation.amount := Some 500%Z;
          Donation.date := DateISO 1705276800000;
          Donation.categoryId := RefId oid1; Donation.notes := "";
          Donation.status := approved |})
  = nameKey JS.asciiLowerCase JS.asciiTrim
      {| Donation._id := oid2; Donation.donorName := "Ram";
         Donation.amount := Some 500%Z;
         Donation.date := DateISO 1705276800000;
         Donation.categoryId := RefId oid1; Donation.notes := "";
         Donation.status := approved |}.
Proof.
  destruct (populated_key JS.asciiLowerCase JS.asciiTrim [category1]
              {| Donation._id := oid2; Donation.donorName := "Ram";
                 Donation.amount := Some 500%Z;
                 Donation.date := DateISO 1705276800000;
                 Donation.categoryId := RefId oid1; Donation.notes := "";
                 Donation.status := approved |} oid1 eq_refl)
    as [Hfound _].
  destruct (Hfound category1) as (_ & Hkey & _); [reflexivity |].
  exact Hkey.
Defined.

Lemma reorder_swap_exchanges_keys_witness :
  In (setOrder 10 categoryB)
     (categories
        (fst (reorderCategories
                (apiRequest PUT reorderPath
                   (reorderBody (swapOf categoryB categoryA))) store3))) /\
  In (setOrder 20 categoryA)
     (categories
        (fst (reorderCategories
                (apiRequest PUT reorderPath
                   (reorderBody (swapOf categoryB categoryA))) store3))) /\
  snd (reorderCategories
         (apiRequest PUT reorderPath
            (reorderBody (swapOf categoryB categoryA))) store3)
    = respond 200
        (CategoryList [setOrder 10 categoryB; setOrder 20 categoryA;
                       categoryC]).
Proof.
  destruct (reorder_swap_exchanges_keys
              (apiRequest PUT reorderPath
                 (reorderBody (swapOf categoryB categoryA)))
              store3 categoryB categoryA)
    as (Hr & Hb & Ha & _).
  - repeat constructor; cbn; intuition discriminate.
  - now left.
  - right. right. now left.
  - discriminate.
  - reflexivity.
  - split; [exact Hb | split; [exact Ha | exact Hr]].
Defined.

(** A batch whose second id is not an ObjectId. *)
Definition brokenBatch : Request :=
  apiRequest PUT ["api"; "categories"; "reorder"]
    {| Body.donorName := None; Body.amount := None;
       Body.date := Body.DateAbsent; Body.categoryId := None;
       Body.notes := None; Body.status := None; Body.name := None;
       Body.order := None;
       Body.orders :=
         Some [ Body.mkItem (hexString oid1) 7;
                Body.mkItem "first" 8;
                Body.mkItem (hexString oid2) 9 ] |}.

Lemma reorder_stops_at_bad_id_witness :
  reorderCategories brokenBatch store3
    = (withCategories
         (fst (applyOrders [Body.mkItem (hexString oid1) 7]
                 (categories store3))) store3,
       respond 400 (ErrorMessage CastError)).
Proof.
  apply (reorder_stops_at_bad_id brokenBatch store3
           [Body.mkItem (hexString oid1) 7]
           [Body.mkItem (hexString oid2) 9] (Body.mkItem "first" 8)).
  - reflexivity.
  - intros item [<- | []]. now vm_compute.
  - now vm_compute.
Defined.

(** * Categories a sub-admin is offered *)

(** [arr.join(sep)] on an array of strings. *)
Fixpoint join (sep : string) (l : list string) : string :=
  match l with
  | [] => ""
  | [x] => x
  | x :: rest => x ++ sep ++ join sep rest
  end.

(** [arr.filter(cat => canUserAccessCategory(cat._id))]: the callback may
    throw, which ends the whole call. *)
Fixpoint filterAccessible (currentUser : option User)
    (l : list Category.t) : option (list Category.t) :=
  match l with
  | [] => Some []
  | c :: rest =>
      match canUserAccessCategory currentUser (idOf c) with
      | None => None
      | Some b =>
          match filterAccessible currentUser rest with
          | None => None
          | Some r => Some (if b then c :: r else r)
          end
      end
  end.

(** The [<option>] elements, by value and text, that
    [populateDonationCategorySelect] writes into the select. *)
Definition categoryOption (c : Category.t) : string * string :=
  (idOf c, Category.name c).

Definition populateDonationCategorySelect (currentUser : option User)
    (categoriesCache : list Category.t) : option (list (string * string)) :=
  option_map
    (fun accessibleCategories =>
       ("", "Select category") :: map categoryOption accessibleCategories)
    (filterAccessible currentUser (sortByOrder categoriesCache)).

(** [assignedCats] of [renderSubAdmins], and the text shown after
    "Categories:". *)
Definition assignedCats (categoriesCache : list Category.t)
    (perms : Permissions) : list Category.t :=
  filter (fun c => (length (assignedCategories perms) =? 0)%nat
                   || arrayIncludes (assignedCategories perms) (idOf c))
         categoriesCache.

Definition assignedLabel (categoriesCache : list Category.t)
    (perms : Permissions) : string :=
  match join ", " (map Category.name (assignedCats categoriesCache perms)) with
  | EmptyString => "All"
  | s => s
  end.

Lemma filter_perm {A : Type} (p : A -> bool) (l l' : list A) :
  Permutation l l' -> Permutation (filter p l) (filter p l').
Proof.
  induction 1 as [| x l l' _ IH | x y l | l l' l'' _ IH1 _ IH2]; cbn.
  - constructor.
  - destruct (p x); [now constructor | assumption].
  - destruct (p x), (p y); try reflexivity. apply perm_swap.
  - now transitivity (filter p l').
Qed.

Lemma filter_all {A : Type} (p : A -> bool) (l : list A) :
  (forall x, In x l -> p x = true) -> filter p l = l.
Proof.
  induction l as [| x l IH]; intros H; cbn; [reflexivity |].
  rewrite (H x) by now left. f_equal. apply IH. intros y Hy. apply H.
  now right.
Qed.

Lemma filter_none {A : Type} (p : A -> bool) (l : list A) :
  (forall x, In x l -> p x = false) -> filter p l = [].
Proof.
  induction l as [| x l IH]; intros H; cbn; [reflexivity |].
  rewrite (H x) by now left. apply IH. intros y Hy. apply H. now right.
Qed.

Lemma filterAccessible_subadmin (a : SubAdminAccount)
    (l : list Category.t) :
  filterAccessible (Some (loginUser a)) l
    = Some (assignedCats l (accountPermissions a)).
Proof.
  unfold assignedCats. induction l as [| c l IH]; [reflexivity |].
  cbn [filterAccessible filter]. rewrite IH. reflexivity.
Qed.

(** The select of the donation form and the sub-admin card agree on the
    categories of a sub-admin, up to the order; with no assigned category
    every category is offered.  When categories are assigned and none of
    them is in the cache (they were deleted), the select offers nothing,
    while the card reads "All". *)
Theorem select_and_card_of_subadmin (a : SubAdminAccount)
    (cache : list Category.t) :
  exists offered,
    populateDonationCategorySelect (Some (loginUser a)) cache
      = Some (("", "Select category") :: map categoryOption offered) /\
    Permutation offered (assignedCats cache (accountPermissions a)) /\
    (assignedCategories (accountPermissions a) = [] ->
     offered = sortByOrder cache) /\
    (assignedCategories (accountPermissions a) <> [] ->
     (forall c, In c cache ->
        ~ In (idOf c) (assignedCategories (accountPermissions a))) ->
     offered = [] /\ assignedLabel cache (accountPermissions a) = "All").
Proof.
  exists (assignedCats (sortByOrder cache) (accountPermissions a)).
  unfold populateDonationCategorySelect.
  rewrite filterAccessible_subadmin. cbn [option_map].
  split; [reflexivity |]. split; [| split].
  - apply filter_perm, sortByOrder_perm.
  - intros E. unfold assignedCats. apply filter_all. intros c _.
    now rewrite E.
  - intros Hne Hout.
    assert (Hnone : forall l,
              (forall c, In c l -> In c cache) ->
              assignedCats l (accountPermissions a) = []).
    { intros l Hl. apply filter_none. intros c Hc.
      destruct (assignedCategories (accountPermissions a)) as [| x xs] eqn:E;
        [now destruct Hne |].
      cbn [length Nat.eqb orb].
      destruct (arrayIncludes (x :: xs) (idOf c)) eqn:Ei; [| reflexivity].
      apply arrayIncludes_In in Ei. exfalso.
      exact (Hout c (Hl c Hc) Ei). }
    split.
    + apply Hnone. intros c Hc.
      now apply (Permutation_in _ (sortByOrder_perm cache)).
    + unfold assignedLabel. now rewrite (Hnone cache) by auto.
Qed.

(** An admin is offered every category, in the order of the listing. *)
Theorem select_of_admin (u : User) (cache : list Category.t) :
  isAdmin u = true ->
  populateDonationCategorySelect (Some u) cache
    = Some (("", "Select category")
              :: map categoryOption (sortByOrder cache)).
Proof.
  intros Ha. unfold populateDonationCategorySelect.
  assert (H : forall l, filterAccessible (Some u) l = Some l).
  { induction l as [| c l IH]; [reflexivity |].
    cbn [filterAccessible canUserAccessCategory]. now rewrite Ha, IH. }
  now rewrite H.
Qed.

Definition adminUser : User :=
  {| type := admin; username := "admin"; permissions := None |}.

Lemma select_of_admin_witness :
  populateDonationCategorySelect (Some adminUser) (categories store3)
    = Some (("", "Select category")
              :: map categoryOption (sortByOrder (categories store3))).
Proof.
  apply select_of_admin. reflexivity.
Defined.

(** * CSV import *)

Module Csv.

Record Row := {
  name : string;
  rashi : string;
  dinank : string
}.

End Csv.

(** [s.split(sep)] for a separator of one character: the piece before the
    first separator and the pieces after it. *)
Fixpoint splitPieces (sep : ascii) (s : string) : string * list string :=
  match s with
  | EmptyString => (EmptyString, [])
  | String c rest =>
      let (piece, pieces) := splitPieces sep rest in
      if Ascii.eqb c sep then (EmptyString, piece :: pieces)
      else (String c piece, pieces)
  end.

Definition split (sep : ascii) (s : string) : list string :=
  let (piece, pieces) := splitPieces sep s in piece :: pieces.

Definition quote : ascii := "034"%char.
Definition comma : ascii := ","%char.
Definition newline : ascii := "010"%char.

(** [v.replace(/^"|"$/g, '')]: a quote at the start and a quote at the end
    are removed (one quote alone is the one at the start). *)
Fixpoint dropLastQuote (s : string) : string :=
  match s with
  | EmptyString => EmptyString
  | String c EmptyString => if Ascii.eqb c quote then EmptyString else s
  | String c rest => String c (dropLastQuote rest)
  end.

Definition stripQuotes (s : string) : string :=
  match s with
  | String c rest => if Ascii.eqb c quote then dropLastQuote rest
                     else dropLastQuote s
  | EmptyString => EmptyString
  end.

Fixpoint countChar (c : ascii) (s : string) : nat :=
  match s with
  | EmptyString => 0
  | String x rest => (if Ascii.eqb x c then 1 else 0) + countChar c rest
  end.

Section CsvImport.

Variable trim : string -> string.

Definition isBlank (line : string) : bool :=
  match trim line with
  | EmptyString => true
  | _ => false
  end.

Definition rowOf (line : string) : option Csv.Row :=
  match map (fun v => stripQuotes (trim v)) (split comma line) with
  | a :: b :: c :: _ =>
      Some {| Csv.name := a; Csv.rashi := b; Csv.dinank := c |}
  | _ => None
  end.

Fixpoint rowsOf (lines : list string) : list Csv.Row :=
  match lines with
  | [] => []
  | line :: rest =>
      match rowOf line with
      | Some r => r :: rowsOf rest
      | None => rowsOf rest
      end
  end.

Definition csvLines (text : string) : list string :=
  filter (fun line => negb (isBlank line)) (split newline text).

Definition parseCSV (text : string) (hasHeaders : bool) : list Csv.Row :=
  rowsOf (skipn (if hasHeaders then 1 else 0) (csvLines text)).

Lemma split_length (sep : ascii) (s : string) :
  length (split sep s) = S (countChar sep s).
Proof.
  unfold split. induction s as [| c s IH]; [reflexivity |].
  cbn [splitPieces countChar].
  destruct (splitPieces sep s) as [piece pieces].
  destruct (Ascii.eqb c sep); cbn [length] in *; lia.
Qed.

Lemma rowOf_some (line : string) :
  (exists r, rowOf line = Some r) <-> (2 <= countChar comma line)%nat.
Proof.
  pose proof (split_length comma line) as Hl. unfold rowOf.
  destruct (split comma line) as [| a [| b [| c rest]]]; cbn in Hl |- *;
    (split; [intros [r Hr]; try discriminate Hr; lia
            | intros H; try lia; eauto]).
Qed.

Lemma rowsOf_length (lines : list string) :
  length (rowsOf lines)
    = length (filter (fun line => (2 <=? countChar comma line)%nat) lines).
Proof.
  induction lines as [| line lines IH]; [reflexivity |].
  cbn [rowsOf filter].
  destruct (rowOf line) as [r |] eqn:Er.
  - assert (H : (2 <= countChar comma line)%nat)
      by (apply rowOf_some; eauto).
    apply Nat.leb_le in H. rewrite H. cbn [length]. now rewrite IH.
  - destruct (2 <=? countChar comma line)%nat eqn:E; [| exact IH].
    apply Nat.leb_le, rowOf_some in E. destruct E as [r Hr]. congruence.
Qed.

Lemma rowsOf_In (lines : list string) (r : Csv.Row) :
  In r (rowsOf lines) -> exists line, In line lines /\ rowOf line = Some r.
Proof.
  induction lines as [| line lines IH]; [intros [] |].
  cbn [rowsOf]. destruct (rowOf line) as [r0 |] eqn:Er.
  - intros [<- | Hin].
    + exists line. split; [now left | assumption].
    + destruct (IH Hin) as (l & Hl & Hr). exists l. split; [now right | auto].
  - intros Hin. destruct (IH Hin) as (l & Hl & Hr). exists l.
    split; [now right | auto].
Qed.

(** The parser gives one row for every non-blank line that holds at least
    two commas, counting the commas between quotes like any other, and
    passes over every other line without a word; a row holds the first
    three pieces of its line, trimmed and without their outer quotes.
    With the header option the first non-blank line is left out, whatever
    it holds, so the option costs at most one row. *)
Theorem parseCSV_rows (text : string) (hasHeaders : bool) :
  length (parseCSV text hasHeaders)
    = length (filter (fun line => (2 <=? countChar comma line)%nat)
                (skipn (if hasHeaders then 1 else 0) (csvLines text))) /\
  (forall r, In r (parseCSV text hasHeaders) ->
     exists line a b c rest,
       In line (split newline text) /\ isBlank line = false /\
       split comma line = a :: b :: c :: rest /\
       Csv.name r = stripQuotes (trim a) /\
       Csv.rashi r = stripQuotes (trim b) /\
       Csv.dinank r = stripQuotes (trim c)) /\
  (length (parseCSV text true) <= length (parseCSV text false)
   <= S (length (parseCSV text true)))%nat.
Proof.
  split; [apply rowsOf_length | split].
  - intros r Hin. unfold parseCSV in Hin.
    apply rowsOf_In in Hin as (line & Hl & Hr).
    assert (Hl' : In line (csvLines text)).
    { destruct hasHeaders; [| exact Hl].
      destruct (csvLines text); [destruct Hl | now right]. }
    apply filter_In in Hl' as [Hsrc Hnb]. apply negb_true_iff in Hnb.
    unfold rowOf in Hr.
    destruct (split comma line) as [| a [| b [| c rest]]] eqn:Es;
      try discriminate Hr.
    cbn [map] in Hr. injection Hr as <-.
    exists line, a, b, c, rest. repeat split; assumption || reflexivity.
  - unfold parseCSV. cbn [skipn].
    destruct (csvLines text) as [| line lines]; [cbn; lia |].
    cbn [skipn rowsOf]. destruct (rowOf line); cbn [length]; lia.
Qed.

End CsvImport.
